(** * Reminder notification service: a shallow embedding

    The development embeds [lib/reminderNotifications.ts] (the polling
    scheduler, its due-window test and the browser channel), the
    [checkReminders] poller of [contexts/NotificationContext.tsx] and the
    parts of [lib/email.ts] the scheduler calls, and proves the properties
    the specification states about them.

    Conventions.
    - A JavaScript number is [jsnum]: [NaN] or an integer.  Every number
      the embedded code computes is a time value or a time value plus or
      minus two minutes, far below 2^53, so integers are exact.
    - A [Date] is its time value.  [new Date(x)] applies the language's
      TimeClip: beyond 8.64e15 ms the date is invalid and its time value is
      [NaN]; every comparison with [NaN] is false.
    - The hosted backend is a table of reminder rows threaded through the
      code as explicit state; what each collaborator call does during one
      pass (succeed, return an error, throw) is a parameter of the pass.
    - Every effect is recorded, in program order, in a trace of [event]s.
    - A pass awaits its collaborator calls one after the other; it is
      embedded as one function from the table before to the table after,
      so what other clients do to the table while a call is pending is
      not part of the model. *)

From Stdlib Require Import ZArith List Bool String Ascii Lia.
Import ListNotations.
Open Scope string_scope.
Open Scope list_scope.
Open Scope Z_scope.

(* ------------------------------------------------------------------ *)
(** ** JavaScript numbers and dates                                     *)
(* ------------------------------------------------------------------ *)

Module JS.

Inductive jsnum : Type :=
| NaN
| Num (z : Z).

Definition add (a b : jsnum) : jsnum :=
  match a, b with
  | Num x, Num y => Num (x + y)
  | _, _ => NaN
  end.

Definition sub (a b : jsnum) : jsnum :=
  match a, b with
  | Num x, Num y => Num (x - y)
  | _, _ => NaN
  end.

(** [a <= b], [a >= b], [a > b] on numbers: false as soon as one is NaN. *)
Definition le (a b : jsnum) : bool :=
  match a, b with
  | Num x, Num y => x <=? y
  | _, _ => false
  end.

Definition ge (a b : jsnum) : bool := le b a.

Definition gt (a b : jsnum) : bool :=
  match a, b with
  | Num x, Num y => y <? x
  | _, _ => false
  end.

(** The largest time value of a [Date], in milliseconds. *)
Definition MAX_TIME : Z := 8640000000000000.

Definition TimeClip (t : jsnum) : jsnum :=
  match t with
  | NaN => NaN
  | Num z => if Z.abs z <=? MAX_TIME then Num z else NaN
  end.

(** A [Date] object, identified with its time value. *)
Definition Date : Type := jsnum.

(** [new Date(value)] for a numeric value or for the instant a timestamp
    string denotes. *)
Definition new_Date (value : jsnum) : Date := TimeClip value.

Definition getTime (d : Date) : jsnum := d.

(** JSON values as stored in a [jsonb] column, with [undefined] for what
    a property read yields when the key is absent. *)
#[warnings="-register-all"]
Inductive value : Type :=
| Undefined
| Null
| VBool (b : bool)
| VNum (n : jsnum)
| VStr (s : string)
| VArr (items : list value)
| VObj (fields : list (string * value)).

(** ToBoolean. *)
Definition truthy (v : value) : bool :=
  match v with
  | Undefined | Null => false
  | VBool b => b
  | VNum NaN => false
  | VNum (Num z) => negb (z =? 0)
  | VStr s => negb (String.eqb s EmptyString)
  | VArr _ | VObj _ => true
  end.

Fixpoint lookup (k : string) (fields : list (string * value)) : value :=
  match fields with
  | [] => Undefined
  | (k', v) :: rest => if String.eqb k k' then v else lookup k rest
  end.

(** [v.k] for a data property [k]; only evaluated on truthy [v]. *)
Definition get (v : value) (k : string) : value :=
  match v with
  | VObj fields => lookup k fields
  | _ => Undefined
  end.

(** [a && b]. *)
Definition and_ (a b : value) : value := if truthy a then b else a.

End JS.

(* ------------------------------------------------------------------ *)
(** ** Rows of the hosted tables                                        *)
(* ------------------------------------------------------------------ *)

Module Reminder.
(** A row of [reminders].  [due_date] is the instant, in milliseconds
    since the epoch, that the stored timestamp denotes. *)
Record t : Type := mk {
  id : string;
  user_id : string;
  title : string;
  description : option string;
  reminder_type : string;
  due_date : Z;
  is_completed : bool;
  notification_sent : bool
}.
End Reminder.

Module Profile.
Record t : Type := mk {
  id : string;
  email : option string;
  full_name : option string;
  preferences : JS.value
}.
End Profile.

(* ------------------------------------------------------------------ *)
(** ** The due window (reminderNotifications.ts, lines 139-145)         *)
(* ------------------------------------------------------------------ *)

Definition WINDOW_MS : Z := 2 * 60 * 1000.

Definition windowStart (dueDate : JS.Date) : JS.Date :=
  JS.new_Date (JS.sub (JS.getTime dueDate) (JS.Num WINDOW_MS)).

Definition windowEnd (dueDate : JS.Date) : JS.Date :=
  JS.new_Date (JS.add (JS.getTime dueDate) (JS.Num WINDOW_MS)).

(** [now >= windowStart && now <= windowEnd] *)
Definition isDueNow (now dueDate : JS.Date) : bool :=
  JS.ge now (windowStart dueDate) && JS.le now (windowEnd dueDate).

(** The due test applied to a row: [new Date(reminder.due_date)] first. *)
Definition isDue (now : JS.Date) (due_date : Z) : bool :=
  isDueNow now (JS.new_Date (JS.Num due_date)).

(** The callback of [userReminders.filter] (lines 133-146). *)
Definition dueFilter (now : JS.Date) (reminder : Reminder.t) : bool :=
  if Reminder.is_completed reminder || Reminder.notification_sent reminder
  then false
  else isDue now (Reminder.due_date reminder).

(* ------------------------------------------------------------------ *)
(** ** Collaborators, effects and module state                          *)
(* ------------------------------------------------------------------ *)

(** What an awaited backend call does: it resolves with data, resolves
    with an [error] field, or rejects (throws at the [await]).  Only a
    call that succeeds changes the table. *)
Inductive outcome : Type := Succeeds | ReturnsError | Throws.

(** What the [fetch] of the mail route does (lib/email.ts, [sendEmail]). *)
Inductive http_outcome : Type :=
| Responds (status : Z) (body_is_json : bool)
| Rejects.

Inductive permission : Type := Default | Granted | Denied.

(** The lines written to the console. *)
Inductive message : Type :=
| LogBrowserOnly
| ErrClientNotInitialized
| ErrFetchingProfiles
| LogNoProfiles
| ErrFetchingReminders (user : string)
| ErrUpdatingReminder (id : string)
| LogNotificationMarked (id : string)
| LogBrowserMarked (id : string)
| ErrSendFailed (id : string)
| ErrSendingNotification (id : string)
| ErrInPass
| LogNoDesktopNotification
| ErrFetchingOwnReminders
| ErrCheckingReminders.

(** What a notification call makes visible to the user. *)
Inductive ui_effect : Type :=
| SystemNotification (title body icon : string)
| FeedEntry (title message type : string)
| ConsoleLog (m : message).

(** The callback registered with [setNotificationTrigger]. *)
Definition Trigger : Type := string -> string -> list ui_effect.

(** Module-level variables of reminderNotifications.ts (lines 9-12). *)
Record ServiceModule : Type := {
  isServiceRunning : bool;
  triggerNotification : option Trigger
}.

Definition initialModule : ServiceModule :=
  {| isServiceRunning := false; triggerNotification := None |}.

Definition setNotificationTrigger (trigger : Trigger) (m : ServiceModule)
  : ServiceModule :=
  {| isServiceRunning := isServiceRunning m;
     triggerNotification := Some trigger |}.

(** Everything outside the module that one pass observes. *)
Record World : Type := {
  has_window : bool;                    (* typeof window !== 'undefined' *)
  supabase_ready : bool;                (* the client object is truthy  *)
  clock : Z;                            (* what [new Date()] reads      *)
  supports_Notification : bool;         (* 'Notification' in window     *)
  Notification_permission : permission;
  document_hasFocus : bool;
  profiles : list Profile.t;            (* the profiles table           *)
  profiles_select : outcome;
  reminders_select : string -> outcome; (* by profile id                *)
  send_reminder_route : Reminder.t -> http_outcome;
  reminders_update : string -> outcome  (* by reminder id               *)
}.

(** The reminders table. *)
Definition Store : Type := list Reminder.t.

Definition setSent (r : Reminder.t) : Reminder.t :=
  Reminder.mk (Reminder.id r) (Reminder.user_id r) (Reminder.title r)
    (Reminder.description r) (Reminder.reminder_type r) (Reminder.due_date r)
    (Reminder.is_completed r) true.

(** [.update({ notification_sent: true }).eq('id', id)] when it succeeds. *)
Definition markSent (id : string) (st : Store) : Store :=
  map (fun r => if String.eqb (Reminder.id r) id then setSent r else r) st.

(** [.select('*').eq('user_id', uid)] when it succeeds. *)
Definition remindersOf (uid : string) (st : Store) : list Reminder.t :=
  filter (fun r => String.eqb (Reminder.user_id r) uid) st.

(** The calls made on behalf of one reminder, with what they returned. *)
Inductive call : Type :=
| ShowBrowserNotification (title body : string) (shown : list ui_effect)
| SendReminderNotification (to : option string)
    (firstName title description : string) (dueDate : Z) (success : bool)
| UpdateNotificationSent (id : string) (res : outcome)
| AddNotification (title msg type : string) (shown : list ui_effect).

(** The trace of a pass.  [PassInvoked] marks the entry of the function;
    the profile and the reminder of [OnBehalf] record for whom a call is
    made. *)
Inductive event : Type :=
| PassInvoked
| Console (m : message)
| SelectProfiles (res : outcome)
| SelectReminders (profile : Profile.t) (res : outcome)
| OnBehalf (profile : Profile.t) (reminder : Reminder.t) (c : call).

(** How a block of statements ends. *)
Inductive completion : Type := Normal | Abrupt.

(* ------------------------------------------------------------------ *)
(** ** The browser channel (reminderNotifications.ts, lines 23-53)      *)
(* ------------------------------------------------------------------ *)

Definition showBrowserNotification (w : World) (m : ServiceModule)
    (title body : string) : list ui_effect :=
  if negb (has_window w) then []
  else if negb (supports_Notification w) then
    [ConsoleLog LogNoDesktopNotification]
  else
    match Notification_permission w with
    | Granted =>
        if document_hasFocus w then []
        else
          SystemNotification title body "/favicon.ico"
            :: match triggerNotification m with
               | Some trigger => trigger title body
               | None => []
               end
    | _ => []
    end.

(* ------------------------------------------------------------------ *)
(** ** The in-app feed (NotificationContext.tsx, lines 39-56, 127-135)  *)
(* ------------------------------------------------------------------ *)

Definition addNotification (w : World) (title msg type : string)
  : list ui_effect :=
  FeedEntry title msg type
    :: (if has_window w && supports_Notification w then
          match Notification_permission w with
          | Granted => [SystemNotification title msg "/favicon.ico"]
          | _ => []
          end
        else []).

(** The trigger the notification provider registers. *)
Definition contextTrigger (w : World) : Trigger :=
  fun title body => addNotification w title body "reminder".

(* ------------------------------------------------------------------ *)
(** ** The mail channel (lib/email.ts)                                  *)
(* ------------------------------------------------------------------ *)

(** [sendEmail]: the whole body sits in a try/catch, so a rejected fetch
    or an unreadable body yields [{ success: false }]; the result is the
    [success] field. *)
Definition sendEmail (http : http_outcome) : bool :=
  match http with
  | Responds status true => if negb (status =? 200) then false else true
  | Responds _ false => false
  | Rejects => false
  end.

Definition sendReminderNotification (w : World) (reminder : Reminder.t)
  : bool :=
  sendEmail (send_reminder_route w reminder).

(* ------------------------------------------------------------------ *)
(** ** The evaluation pass (reminderNotifications.ts, lines 59-214)     *)
(* ------------------------------------------------------------------ *)

Definition orElse (s : option string) (fallback : string) : string :=
  match s with
  | Some x => if String.eqb x EmptyString then fallback else x
  | None => fallback
  end.

(** [s.split(' ')[0]] *)
Fixpoint firstToken (s : string) : string :=
  match s with
  | EmptyString => EmptyString
  | String c rest =>
      if Ascii.eqb c " "%char then EmptyString else String c (firstToken rest)
  end.

(** [profile.full_name ? profile.full_name.split(' ')[0] : 'User'] *)
Definition firstNameOf (full_name : option string) : string :=
  match full_name with
  | Some n => if String.eqb n EmptyString then "User" else firstToken n
  | None => "User"
  end.

(** [!!(profile.preferences && profile.preferences.<key>)] *)
Definition preferenceEnabled (profile : Profile.t) (key : string) : bool :=
  JS.truthy (JS.and_ (Profile.preferences profile)
                     (JS.get (Profile.preferences profile) key)).

Definition emailNotificationsEnabled (profile : Profile.t) : bool :=
  preferenceEnabled profile "email_notifications".

Definition browserNotificationsEnabled (profile : Profile.t) : bool :=
  preferenceEnabled profile "browser_notifications".

Definition now (w : World) : JS.Date := JS.new_Date (JS.Num (clock w)).

(** The awaited update and the branch on its [error] (lines 180-189 and
    195-204); [marked] is the line logged when there is no error. *)
Definition updateAndLog (w : World) (profile : Profile.t)
    (reminder : Reminder.t) (marked : message) (st : Store)
  : Store * list event * completion :=
  let id := Reminder.id reminder in
  match reminders_update w id with
  | Succeeds =>
      (markSent id st,
       [OnBehalf profile reminder (UpdateNotificationSent id Succeeds);
        Console marked], Normal)
  | ReturnsError =>
      (st,
       [OnBehalf profile reminder (UpdateNotificationSent id ReturnsError);
        Console (ErrUpdatingReminder id)], Normal)
  | Throws =>
      (st, [OnBehalf profile reminder (UpdateNotificationSent id Throws)],
       Abrupt)
  end.

(** The body of the inner [try] (lines 159-205). *)
Definition deliver (w : World) (m : ServiceModule) (profile : Profile.t)
    (firstName : string) (st : Store) (reminder : Reminder.t)
  : Store * list event * completion :=
  let title := Reminder.title reminder in
  let browser :=
    if browserNotificationsEnabled profile then
      let t := String.append "Reminder: " title in
      let b := orElse (Reminder.description reminder)
                      "You have a reminder due now" in
      [OnBehalf profile reminder
         (ShowBrowserNotification t b (showBrowserNotification w m t b))]
    else [] in
  if emailNotificationsEnabled profile then
    let success := sendReminderNotification w reminder in
    let sent :=
      OnBehalf profile reminder
        (SendReminderNotification (Profile.email profile) firstName title
           (orElse (Reminder.description reminder) EmptyString)
           (Reminder.due_date reminder) success) in
    if success then
      let '(st', tr, c) :=
        updateAndLog w profile reminder
          (LogNotificationMarked (Reminder.id reminder)) st in
      (st', browser ++ sent :: tr, c)
    else
      (st, browser ++ [sent; Console (ErrSendFailed (Reminder.id reminder))],
       Normal)
  else
    let '(st', tr, c) :=
      updateAndLog w profile reminder
        (LogBrowserMarked (Reminder.id reminder)) st in
    (st', browser ++ tr, c).

(** One iteration of the inner loop: the [try] with its [catch]
    (lines 158-208). *)
Definition notifyReminder (w : World) (m : ServiceModule)
    (profile : Profile.t) (firstName : string) (st : Store)
    (reminder : Reminder.t) : Store * list event :=
  let '(st', tr, c) := deliver w m profile firstName st reminder in
  match c with
  | Normal => (st', tr)
  | Abrupt =>
      (st', tr ++ [Console (ErrSendingNotification (Reminder.id reminder))])
  end.

(** [for (const reminder of dueReminders)] (lines 157-209). *)
Fixpoint notifyAll (w : World) (m : ServiceModule) (profile : Profile.t)
    (firstName : string) (st : Store) (dueReminders : list Reminder.t)
  : Store * list event :=
  match dueReminders with
  | [] => (st, [])
  | reminder :: rest =>
      let '(st1, tr1) := notifyReminder w m profile firstName st reminder in
      let '(st2, tr2) := notifyAll w m profile firstName st1 rest in
      (st2, tr1 ++ tr2)
  end.

(** One iteration of the outer loop (lines 105-209).  [Abrupt] is a
    rejected reminder select, which leaves the loop. *)
Definition processProfile (w : World) (m : ServiceModule) (st : Store)
    (profile : Profile.t) : Store * list event * completion :=
  if negb (emailNotificationsEnabled profile)
     && negb (browserNotificationsEnabled profile)
  then (st, [], Normal)
  else
    match reminders_select w (Profile.id profile) with
    | Throws => (st, [SelectReminders profile Throws], Abrupt)
    | ReturnsError =>
        (st, [SelectReminders profile ReturnsError;
              Console (ErrFetchingReminders (Profile.id profile))], Normal)
    | Succeeds =>
        let userReminders := remindersOf (Profile.id profile) st in
        match userReminders with
        | [] => (st, [SelectReminders profile Succeeds], Normal)
        | _ :: _ =>
            let dueReminders := filter (dueFilter (now w)) userReminders in
            match dueReminders with
            | [] => (st, [SelectReminders profile Succeeds], Normal)
            | _ :: _ =>
                let firstName := firstNameOf (Profile.full_name profile) in
                let '(st', tr) :=
                  notifyAll w m profile firstName st dueReminders in
                (st', SelectReminders profile Succeeds :: tr, Normal)
            end
        end
    end.

(** [for (const profile of usersWithProfiles)] (lines 104-210). *)
Fixpoint forEachProfile (w : World) (m : ServiceModule) (st : Store)
    (usersWithProfiles : list Profile.t) : Store * list event * completion :=
  match usersWithProfiles with
  | [] => (st, [], Normal)
  | profile :: rest =>
      let '(st1, tr1, c1) := processProfile w m st profile in
      match c1 with
      | Abrupt => (st1, tr1, Abrupt)
      | Normal =>
          let '(st2, tr2, c2) := forEachProfile w m st1 rest in
          (st2, tr1 ++ tr2, c2)
      end
  end.

(** [.select(...).not('email', 'is', null)] when it succeeds. *)
Definition profilesWithEmail (w : World) : list Profile.t :=
  filter (fun p => match Profile.email p with Some _ => true | None => false end)
         (profiles w).

(** The body of the outer [try] (lines 67-210). *)
Definition passBody (w : World) (m : ServiceModule) (st : Store)
  : Store * list event * completion :=
  if negb (supabase_ready w) then (st, [Console ErrClientNotInitialized], Normal)
  else
    match profiles_select w with
    | Throws => (st, [SelectProfiles Throws], Abrupt)
    | ReturnsError =>
        (st, [SelectProfiles ReturnsError; Console ErrFetchingProfiles], Normal)
    | Succeeds =>
        match profilesWithEmail w with
        | [] => (st, [SelectProfiles Succeeds; Console LogNoProfiles], Normal)
        | usersWithProfiles =>
            let '(st', tr, c) := forEachProfile w m st usersWithProfiles in
            (st', SelectProfiles Succeeds :: tr, c)
        end
    end.

(** [checkAndSendReminderNotifications]: the window guard, then the
    [try] with its [catch] (lines 211-213).  The completion returned is
    that of the function itself. *)
Definition checkAndSendReminderNotifications (w : World) (m : ServiceModule)
    (st : Store) : Store * list event * completion :=
  if negb (has_window w) then (st, [PassInvoked; Console LogBrowserOnly], Normal)
  else
    let '(st', tr, c) := passBody w m st in
    match c with
    | Normal => (st', PassInvoked :: tr, Normal)
    | Abrupt => (st', PassInvoked :: tr ++ [Console ErrInPass], Normal)
    end.

(* ------------------------------------------------------------------ *)
(** ** Starting the service (reminderNotifications.ts, lines 220-239)   *)
(* ------------------------------------------------------------------ *)

Inductive handler : Type := CheckAndSendReminderNotifications.

(** An interval armed with [setInterval(handler, delay)]. *)
Record Timer : Type := { timer_handler : handler; timer_delay : Z }.

(** The client process: the module's variables, the armed intervals, the
    backend's reminders and everything done so far. *)
Record Process : Type := {
  module_state : ServiceModule;
  timers : list Timer;
  store : Store;
  history : list event
}.

Definition initialProcess (st : Store) : Process :=
  {| module_state := initialModule; timers := []; store := st; history := [] |}.

(** The immediate pass is called without [await], so the interval is
    armed in the same turn; the pass is run to its end here. *)
Definition startReminderNotificationService (w : World) (p : Process)
  : Process :=
  if negb (has_window w) then
    {| module_state := module_state p; timers := timers p; store := store p;
       history := history p ++ [Console LogBrowserOnly] |}
  else if isServiceRunning (module_state p) then p
  else
    let m :=
      {| isServiceRunning := true;
         triggerNotification := triggerNotification (module_state p) |} in
    let '(st', tr, _) := checkAndSendReminderNotifications w m (store p) in
    {| module_state := m;
       timers :=
         timers p ++ [{| timer_handler := CheckAndSendReminderNotifications;
                         timer_delay := 30 * 1000 |}];
       store := st';
       history := history p ++ tr |}.

(** The handler of an armed interval runs: one more pass. *)
Definition runPass (w : World) (p : Process) : Process :=
  let '(st', tr, _) :=
    checkAndSendReminderNotifications w (module_state p) (store p) in
  {| module_state := module_state p; timers := timers p; store := st';
     history := history p ++ tr |}.

(** What happens to the process: a view calls the start routine, the
    notification provider registers its trigger, or thirty seconds have
    elapsed and every armed interval fires. *)
Inductive action : Type :=
| Start (w : World)
| SetTrigger (trigger : Trigger)
| Tick (w : World).

Definition step (p : Process) (a : action) : Process :=
  match a with
  | Start w => startReminderNotificationService w p
  | SetTrigger trigger =>
      {| module_state := setNotificationTrigger trigger (module_state p);
         timers := timers p; store := store p; history := history p |}
  | Tick w => fold_left (fun q _ => runPass w q) (timers p) p
  end.

Definition run (acts : list action) (p : Process) : Process :=
  fold_left step acts p.

Definition everyThirtySeconds : Timer :=
  {| timer_handler := CheckAndSendReminderNotifications;
     timer_delay := 30000 |}.

Definition isPassInvoked (e : event) : bool :=
  match e with PassInvoked => true | _ => false end.

Definition passesInvoked (tr : list event) : nat :=
  List.length (filter isPassInvoked tr).

(* ------------------------------------------------------------------ *)
(** ** The provider's poller (NotificationContext.tsx, lines 141-179)   *)
(* ------------------------------------------------------------------ *)

Inductive ctx_event : Type :=
| CtxConsole (m : message)
| CtxSelect (user : string) (res : outcome)
| CtxOnBehalf (reminder : Reminder.t) (c : call).

(** The select with its three [eq] filters, when it succeeds. *)
Definition pendingOf (uid : string) (st : Store) : list Reminder.t :=
  filter (fun r => String.eqb (Reminder.user_id r) uid
                   && Bool.eqb (Reminder.is_completed r) false
                   && Bool.eqb (Reminder.notification_sent r) false) st.

(** [diff <= 600000 && diff > 0] *)
Definition dueWithinTenMinutes (now : JS.Date) (due_date : Z) : bool :=
  let dueDate := JS.new_Date (JS.Num due_date) in
  let diff := JS.sub (JS.getTime dueDate) (JS.getTime now) in
  JS.le diff (JS.Num 600000) && JS.gt diff (JS.Num 0).

(** The [for] loop (lines 157-175); the awaited update's result is not
    inspected, a rejected one leaves the loop. *)
Fixpoint checkEach (w : World) (st : Store) (reminders : list Reminder.t)
  : Store * list ctx_event * completion :=
  match reminders with
  | [] => (st, [], Normal)
  | reminder :: rest =>
      if dueWithinTenMinutes (now w) (Reminder.due_date reminder) then
        let t := String.append "Reminder ("
                   (String.append (Reminder.reminder_type reminder) ")") in
        let shown :=
          CtxOnBehalf reminder
            (AddNotification t (Reminder.title reminder) "reminder"
               (addNotification w t (Reminder.title reminder) "reminder")) in
        let id := Reminder.id reminder in
        let upd := CtxOnBehalf reminder
                     (UpdateNotificationSent id (reminders_update w id)) in
        match reminders_update w id with
        | Throws => (st, [shown; upd], Abrupt)
        | ReturnsError =>
            let '(st', tr, c) := checkEach w st rest in
            (st', shown :: upd :: tr, c)
        | Succeeds =>
            let '(st', tr, c) := checkEach w (markSent id st) rest in
            (st', shown :: upd :: tr, c)
        end
      else checkEach w st rest
  end.

Definition checkReminders (w : World) (user : string) (st : Store)
  : Store * list ctx_event * completion :=
  match reminders_select w user with
  | Throws =>
      (st, [CtxSelect user Throws; CtxConsole ErrCheckingReminders], Normal)
  | ReturnsError =>
      (st, [CtxSelect user ReturnsError; CtxConsole ErrFetchingOwnReminders],
       Normal)
  | Succeeds =>
      let '(st', tr, c) := checkEach w st (pendingOf user st) in
      match c with
      | Normal => (st', CtxSelect user Succeeds :: tr, Normal)
      | Abrupt =>
          (st',
           CtxSelect user Succeeds :: tr ++ [CtxConsole ErrCheckingReminders],
           Normal)
      end
  end.

(* ------------------------------------------------------------------ *)
(** ** Observations on passes and traces                                *)
(* ------------------------------------------------------------------ *)

Definition passStore (w : World) (m : ServiceModule) (st : Store) : Store :=
  fst (fst (checkAndSendReminderNotifications w m st)).

Definition passTrace (w : World) (m : ServiceModule) (st : Store) : list event :=
  snd (fst (checkAndSendReminderNotifications w m st)).


(** At least one of the two channels is switched on. *)
Definition enabled (p : Profile.t) : bool :=
  emailNotificationsEnabled p || browserNotificationsEnabled p.

(** What one iteration of the inner loop does for a reminder; it does
    not depend on the rows of the table. *)
Definition reminderEvents (w : World) (m : ServiceModule) (p : Profile.t)
    (r : Reminder.t) : list event :=
  snd (notifyReminder w m p (firstNameOf (Profile.full_name p)) [] r).

(** The ids of the updates that went through. *)
Definition updatedId (e : event) : list string :=
  match e with
  | OnBehalf _ _ (UpdateNotificationSent id Succeeds) => [id]
  | _ => []
  end.

Definition updatedIds (tr : list event) : list string := flat_map updatedId tr.

Definition mem (x : string) (l : list string) : bool := existsb (String.eqb x) l.

Definition markAll (ids : list string) (st : Store) : Store :=
  map (fun r => if mem (Reminder.id r) ids then setSent r else r) st.

(** [l] occurs in [tr] as a block of consecutive events. *)
Definition Occurs (l tr : list event) : Prop :=
  exists pre post, tr = pre ++ l ++ post.

(** A table changes only by rows getting their flag set. *)
Definition OnlyMarks (st st' : Store) : Prop :=
  Forall2 (fun a b => b = a \/ b = setSent a) st st'.

Definition isUpdate (e : event) : bool :=
  match e with
  | OnBehalf _ _ (UpdateNotificationSent _ _) => true
  | _ => false
  end.

Definition isDelivery (c : call) : bool :=
  match c with
  | UpdateNotificationSent _ _ => false
  | _ => true
  end.


(** The conditions under which the pass gets to reminder [r] of profile
    [p]: the service runs in a browser with a client, the profile select
    succeeds and returns [p], whose channels are not all off, no reminder
    select rejects and that of [p] succeeds, [r] is a row of [p] that
    passes the filter, and ids are the primary keys of their tables. *)
Record Reached (w : World) (st : Store) (p : Profile.t) (r : Reminder.t)
  : Prop := {
  reached_window : has_window w = true;
  reached_client : supabase_ready w = true;
  reached_profiles : profiles_select w = Succeeds;
  reached_no_reject :
    forall q, In q (profilesWithEmail w) ->
              reminders_select w (Profile.id q) <> Throws;
  reached_profile_keys : NoDup (map Profile.id (profilesWithEmail w));
  reached_reminder_keys : NoDup (map Reminder.id st);
  reached_profile : In p (profilesWithEmail w);
  reached_enabled : enabled p = true;
  reached_select : reminders_select w (Profile.id p) = Succeeds;
  reached_row : In r st;
  reached_owner : Reminder.user_id r = Profile.id p;
  reached_due : dueFilter (now w) r = true
}.

(** The conditions of [Reached] that do not concern the filter: the pass
    fetches profile [p] and its rows, and [r] is one of them. *)
Record Fetched (w : World) (st : Store) (p : Profile.t) (r : Reminder.t)
  : Prop := {
  fetched_window : has_window w = true;
  fetched_client : supabase_ready w = true;
  fetched_profiles : profiles_select w = Succeeds;
  fetched_no_reject :
    forall q, In q (profilesWithEmail w) ->
              reminders_select w (Profile.id q) <> Throws;
  fetched_profile_keys : NoDup (map Profile.id (profilesWithEmail w));
  fetched_reminder_keys : NoDup (map Reminder.id st);
  fetched_profile : In p (profilesWithEmail w);
  fetched_enabled : enabled p = true;
  fetched_select : reminders_select w (Profile.id p) = Succeeds;
  fetched_row : In r st;
  fetched_owner : Reminder.user_id r = Profile.id p
}.

(** The preferences of a profile hold neither notification key. *)
Definition hasKey (k : string) (fields : list (string * JS.value)) : bool :=
  existsb (fun kv => String.eqb k (fst kv)) fields.

Inductive NoNotificationKeys : JS.value -> Prop :=
| nk_null : NoNotificationKeys JS.Null
| nk_absent : NoNotificationKeys JS.Undefined
| nk_lacks fields :
    hasKey "email_notifications" fields = false ->
    hasKey "browser_notifications" fields = false ->
    NoNotificationKeys (JS.VObj fields).

(** Preferences with both channels switched off explicitly. *)
Definition allOff : JS.value :=
  JS.VObj [("email_notifications", JS.VBool false);
           ("browser_notifications", JS.VBool false)].

Definition withPreferences (p : Profile.t) (v : JS.value) : Profile.t :=
  Profile.mk (Profile.id p) (Profile.email p) (Profile.full_name p) v.

(** The browser channel does not create the popup. *)
Definition suppressed (w : World) : Prop :=
  has_window w = false \/ supports_Notification w = false
  \/ Notification_permission w <> Granted \/ document_hasFocus w = true.

Definition isSystemNotification (e : ui_effect) : bool :=
  match e with SystemNotification _ _ _ => true | _ => false end.

Definition isFeedEntry (e : ui_effect) : bool :=
  match e with FeedEntry _ _ _ => true | _ => false end.

(** The trace of one iteration of the outer loop and how it ends, as
    functions of the profile and of its rows. *)
Definition profileEvents (w : World) (m : ServiceModule) (st : Store)
    (p : Profile.t) : list event :=
  if enabled p then
    match reminders_select w (Profile.id p) with
    | Throws => [SelectReminders p Throws]
    | ReturnsError =>
        [SelectReminders p ReturnsError;
         Console (ErrFetchingReminders (Profile.id p))]
    | Succeeds =>
        SelectReminders p Succeeds
          :: flat_map (reminderEvents w m p)
               (filter (dueFilter (now w)) (remindersOf (Profile.id p) st))
    end
  else [].

Definition profileCompletion (w : World) (p : Profile.t) : completion :=
  if enabled p then
    match reminders_select w (Profile.id p) with
    | Throws => Abrupt
    | _ => Normal
    end
  else Normal.

(** The same for the whole outer loop. *)
Fixpoint loopEvents (w : World) (m : ServiceModule) (st : Store)
    (ps : list Profile.t) : list event :=
  match ps with
  | [] => []
  | p :: rest =>
      let tr1 := profileEvents w m st p in
      match profileCompletion w p with
      | Abrupt => tr1
      | Normal => tr1 ++ loopEvents w m (markAll (updatedIds tr1) st) rest
      end
  end.

Fixpoint loopCompletion (w : World) (ps : list Profile.t) : completion :=
  match ps with
  | [] => Normal
  | p :: rest =>
      match profileCompletion w p with
      | Abrupt => Abrupt
      | Normal => loopCompletion w rest
      end
  end.

(** Either the service has not started and no interval is armed, or it
    has and exactly the thirty-second interval is. *)
Definition startInvariant (p : Process) : Prop :=
  (isServiceRunning (module_state p) = false /\ timers p = [])
  \/ (isServiceRunning (module_state p) = true
      /\ timers p = [everyThirtySeconds]).


Definition providerStore (w : World) (user : string) (st : Store) : Store :=
  fst (fst (checkReminders w user st)).

Definition providerTrace (w : World) (user : string) (st : Store)
  : list ctx_event :=
  snd (fst (checkReminders w user st)).

(** How many updates of a trace carry the id [id]. *)
Definition isUpdateOf (id : string) (e : event) : bool :=
  match e with
  | OnBehalf _ _ (UpdateNotificationSent id' _) => String.eqb id' id
  | _ => false
  end.

Definition updatesFor (id : string) (tr : list event) : nat :=
  List.length (filter (isUpdateOf id) tr).

(** Some row of [st] owned by [uid] has the id [id]. *)
Definition ownsId (uid id : string) (st : Store) : bool :=
  existsb (fun r => String.eqb (Reminder.user_id r) uid
                    && String.eqb (Reminder.id r) id) st.

(* ------------------------------------------------------------------ *)
(** ** Sample data                                                      *)
(* ------------------------------------------------------------------ *)

Module Sample.

(** 2025-01-01T00:00:00Z, in milliseconds. *)
Definition T : Z := 1735689600000.

Definition prefs (emailOn browserOn : bool) : JS.value :=
  JS.VObj [("notifications_enabled", JS.VBool true);
           ("email_notifications", JS.VBool emailOn);
           ("browser_notifications", JS.VBool browserOn);
           ("theme", JS.VStr "dark")].

Definition alice : Profile.t :=
  Profile.mk "alice" (Some "alice@example.org") (Some "Alice Doe")
    (prefs true false).

Definition bob : Profile.t :=
  Profile.mk "bob" (Some "bob@example.org") (Some "Bob Roe")
    (prefs false true).

Definition carol : Profile.t :=
  Profile.mk "carol" (Some "carol@example.org") (Some "Carol Poe")
    (prefs false false).

Definition dave : Profile.t :=
  Profile.mk "dave" (Some "dave@example.org") (Some "Dave Low") JS.Null.

Definition reminder (id user : string) (due : Z) (completed sent : bool)
  : Reminder.t :=
  Reminder.mk id user (String.append "Task " id) None "personal" due
    completed sent.

Definition ra : Reminder.t := reminder "ra" "alice" T false false.
Definition rb : Reminder.t := reminder "rb" "bob" T false false.
Definition rc : Reminder.t := reminder "rc" "carol" T false false.
Definition rdone : Reminder.t := reminder "rdone" "alice" T true false.
Definition rsoon : Reminder.t :=
  reminder "rsoon" "alice" (T + 5 * 60 * 1000) false false.

Definition table : Store := [ra; rb; rc; rdone].

(** A browser session in which every collaborator call succeeds, read
    one minute after [T]. *)
Definition world : World :=
  {| has_window := true;
     supabase_ready := true;
     clock := T + 60000;
     supports_Notification := true;
     Notification_permission := Granted;
     document_hasFocus := false;
     profiles := [alice; bob; carol; dave];
     profiles_select := Succeeds;
     reminders_select := fun _ => Succeeds;
     send_reminder_route := fun _ => Responds 200 true;
     reminders_update := fun _ => Succeeds |}.

Definition withClock (t : Z) (w : World) : World :=
  {| has_window := has_window w;
     supabase_ready := supabase_ready w;
     clock := t;
     supports_Notification := supports_Notification w;
     Notification_permission := Notification_permission w;
     document_hasFocus := document_hasFocus w;
     profiles := profiles w;
     profiles_select := profiles_select w;
     reminders_select := reminders_select w;
     send_reminder_route := send_reminder_route w;
     reminders_update := reminders_update w |}.

Definition withMail (route : Reminder.t -> http_outcome) (w : World) : World :=
  {| has_window := has_window w;
     supabase_ready := supabase_ready w;
     clock := clock w;
     supports_Notification := supports_Notification w;
     Notification_permission := Notification_permission w;
     document_hasFocus := document_hasFocus w;
     profiles := profiles w;
     profiles_select := profiles_select w;
     reminders_select := reminders_select w;
     send_reminder_route := route;
     reminders_update := reminders_update w |}.

Definition withSelect (sel : string -> outcome) (w : World) : World :=
  {| has_window := has_window w;
     supabase_ready := supabase_ready w;
     clock := clock w;
     supports_Notification := supports_Notification w;
     Notification_permission := Notification_permission w;
     document_hasFocus := document_hasFocus w;
     profiles := profiles w;
     profiles_select := profiles_select w;
     reminders_select := sel;
     send_reminder_route := send_reminder_route w;
     reminders_update := reminders_update w |}.

Definition withFocus (focus : bool) (w : World) : World :=
  {| has_window := has_window w;
     supabase_ready := supabase_ready w;
     clock := clock w;
     supports_Notification := supports_Notification w;
     Notification_permission := Notification_permission w;
     document_hasFocus := focus;
     profiles := profiles w;
     profiles_select := profiles_select w;
     reminders_select := reminders_select w;
     send_reminder_route := send_reminder_route w;
     reminders_update := reminders_update w |}.

(** The reminder select of the first profile rejects. *)
Definition aliceSelectRejects : World :=
  withSelect (fun uid => if String.eqb uid "alice" then Throws else Succeeds)
             world.


(** A server-side rendering process: no [window]. *)
Definition server : World :=
  {| has_window := false;
     supabase_ready := true;
     clock := T + 60000;
     supports_Notification := false;
     Notification_permission := Default;
     document_hasFocus := false;
     profiles := [alice; bob; carol; dave];
     profiles_select := Succeeds;
     reminders_select := fun _ => Succeeds;
     send_reminder_route := fun _ => Responds 200 true;
     reminders_update := fun _ => Succeeds |}.

Definition registered : ServiceModule :=
  setNotificationTrigger (contextTrigger world) initialModule.

End Sample.

(* ------------------------------------------------------------------ *)
(** ** The notification feed (NotificationContext.tsx, lines 30-75)     *)
(* ------------------------------------------------------------------ *)

Module Feed.

Record Notification : Type := mk {
  id : string;
  title : string;
  message : string;
  type : string;
  teamId : option string;
  createdAt : Z;
  read : bool
}.

Definition setRead (n : Notification) : Notification :=
  mk (id n) (title n) (message n) (type n) (teamId n) (createdAt n) true.

(** [notifications.filter(n => !n.read)] *)
Definition unread (ns : list Notification) : list Notification :=
  filter (fun n => negb (read n)) ns.

(** [unreadCount] *)
Definition unreadCount (ns : list Notification) : nat :=
  List.length (unread ns).

(** The state update of [addNotification]: [newId] is the random id and
    [now] the creation time. *)
Definition addNotification (newId : string) (now : Z)
    (title message type : string) (teamId : option string)
    (prev : list Notification) : list Notification :=
  mk newId title message type teamId now false :: prev.

Definition markAsRead (i : string) (prev : list Notification)
  : list Notification :=
  map (fun n => if String.eqb (id n) i then setRead n else n) prev.

Definition markAllAsRead (prev : list Notification) : list Notification :=
  map setRead prev.

Definition clearNotifications (prev : list Notification)
  : list Notification := [].

(** What the toast shows (NotificationToast.tsx, lines 14-21): the most
    recent unread notification. *)
Definition visibleNotifications (ns : list Notification)
  : list Notification :=
  match unread ns with
  | [] => []
  | n :: _ => [n]
  end.

(** The unread notifications that carry the id [i]. *)
Definition unreadWithId (i : string) (ns : list Notification) : nat :=
  List.length (filter (fun n => negb (read n) && String.eqb (id n) i) ns).

End Feed.

(* ------------------------------------------------------------------ *)
(** ** Team messages (NotificationContext.tsx, lines 90-117)            *)
(* ------------------------------------------------------------------ *)

(** What [localStorage.getItem('teams')] and [JSON.parse] give: the call
    throws, there is no item, or there is one, with the value it parses
    to ([None] when [JSON.parse] throws). *)
Inductive storage_item : Type :=
| GetItemThrows
| NoItem
| Item (raw : string) (parsed : option JS.value).

(** [t.id === team_id] for an element of the parsed array; [None] when
    reading [id] off [null] throws. *)
Definition matchesTeam (team_id : string) (t : JS.value) : option bool :=
  match t with
  | JS.Null | JS.Undefined => None
  | _ =>
      Some match JS.get t "id" with
           | JS.VStr s => String.eqb s team_id
           | _ => false
           end
  end.

(** [teams.find((t) => t.id === team_id)]: [None] when the callback
    throws, [Some Undefined] when no element matches. *)
Fixpoint findTeam (team_id : string) (teams : list JS.value)
  : option JS.value :=
  match teams with
  | [] => Some JS.Undefined
  | t :: rest =>
      match matchesTeam team_id t with
      | None => None
      | Some true => Some t
      | Some false => findTeam team_id rest
      end
  end.

Definition yourTeam : JS.value := JS.VStr "your team".

(** The [try] block of lines 98-109: any exception leaves the default. *)
Definition teamNameFor (storage : storage_item) (team_id : string)
  : JS.value :=
  match storage with
  | GetItemThrows => yourTeam
  | NoItem => yourTeam
  | Item raw parsed =>
      if String.eqb raw EmptyString then yourTeam
      else
        match parsed with
        | None => yourTeam
        | Some (JS.VArr teams) =>
            match findTeam team_id teams with
            | None => yourTeam
            | Some team =>
                if JS.truthy team then JS.get team "name" else yourTeam
            end
        | Some _ => yourTeam
        end
  end.

(** The argument of [addNotification] for a team message; the title is
    the text [New message in] followed by the team name. *)
Record ChatNotification : Type := {
  chat_team_name : JS.value;
  chat_message : string;
  chat_type : string;
  chat_teamId : string
}.

(** The realtime callback: [None] when it returns without notifying. *)
Definition onTeamMessage (user_id : string) (storage : storage_item)
    (msg_user_id msg_team_id msg_text : string) : option ChatNotification :=
  if String.eqb msg_user_id user_id then None
  else
    Some {| chat_team_name := teamNameFor storage msg_team_id;
            chat_message := msg_text;
            chat_type := "chat";
            chat_teamId := msg_team_id |}.

(* ------------------------------------------------------------------ *)
(** ** Arithmetic of the reminders view                                 *)
(* ------------------------------------------------------------------ *)

(** [Math.floor(a / d)], [a % d] and comparisons with a literal.  The
    quotient of an integer below 8.64e15 in absolute value by 1000,
    60000, 3600000 or 86400000 is rounded to a double that lies strictly
    between the same two integers, so its floor is the integer floor. *)
Module JSMath.

Definition floorDiv (a : JS.jsnum) (d : Z) : JS.jsnum :=
  match a with
  | JS.Num x => JS.Num (x / d)
  | JS.NaN => JS.NaN
  end.

Definition rem (a : JS.jsnum) (d : Z) : JS.jsnum :=
  match a with
  | JS.Num x => JS.Num (Z.rem x d)
  | JS.NaN => JS.NaN
  end.

Definition abs (a : JS.jsnum) : JS.jsnum :=
  match a with
  | JS.Num x => JS.Num (Z.abs x)
  | JS.NaN => JS.NaN
  end.

Definition isNaN (a : JS.jsnum) : bool :=
  match a with JS.NaN => true | JS.Num _ => false end.

(** [a === z] *)
Definition eqb (a : JS.jsnum) (z : Z) : bool :=
  match a with
  | JS.Num x => x =? z
  | JS.NaN => false
  end.

(** [a < b] *)
Definition lt (a b : JS.jsnum) : bool := JS.gt b a.

End JSMath.

(* ------------------------------------------------------------------ *)
(** ** The reminders view (components/Reminders.tsx)                    *)
(* ------------------------------------------------------------------ *)

Module RemindersView.

Definition dateOf (r : Reminder.t) : JS.Date :=
  JS.new_Date (JS.Num (Reminder.due_date r)).

(** [filteredReminders] (lines 157-163). *)
Definition filteredReminders (filterType : string) (showCompleted : bool)
    (reminders : list Reminder.t) : list Reminder.t :=
  filter (fun reminder =>
            let typeMatch :=
              String.eqb filterType "all"
              || String.eqb (Reminder.reminder_type reminder) filterType in
            let completedMatch :=
              showCompleted || negb (Reminder.is_completed reminder) in
            typeMatch && completedMatch)
         reminders.

(** [upcomingReminders], [overdueReminders], [completedReminders]
    (lines 165-178). *)
Definition upcomingReminders (currentTime : JS.Date)
    (filtered : list Reminder.t) : list Reminder.t :=
  filter (fun r => negb (Reminder.is_completed r)
                   && JS.ge (dateOf r) currentTime) filtered.

Definition overdueReminders (currentTime : JS.Date)
    (filtered : list Reminder.t) : list Reminder.t :=
  filter (fun r => negb (Reminder.is_completed r)
                   && JSMath.lt (dateOf r) currentTime) filtered.

Definition completedReminders (filtered : list Reminder.t)
  : list Reminder.t :=
  filter (fun r => Reminder.is_completed r) filtered.

(** What [formatDate] returns (lines 143-155); [LocaleDate] stands for
    the text of [toLocaleDateString]. *)
Inductive date_label : Type :=
| Today
| Tomorrow
| Yesterday
| DaysAgo (n : JS.jsnum)
| InDays (n : JS.jsnum)
| LocaleDate (date : JS.Date).

Definition MS_PER_DAY : Z := 1000 * 60 * 60 * 24.

Definition formatDate (currentTime : JS.Date) (due_date : Z) : date_label :=
  let date := JS.new_Date (JS.Num due_date) in
  let diffMs := JS.sub (JS.getTime date) (JS.getTime currentTime) in
  let diffDays := JSMath.floorDiv diffMs MS_PER_DAY in
  if JSMath.eqb diffDays 0 then Today
  else if JSMath.eqb diffDays 1 then Tomorrow
  else if JSMath.eqb diffDays (-1) then Yesterday
  else if JSMath.lt diffDays (JS.Num (-1)) then DaysAgo (JSMath.abs diffDays)
  else if JS.gt diffDays (JS.Num 1) && JS.le diffDays (JS.Num 7)
       then InDays diffDays
  else LocaleDate date.

(** The countdown badge (lines 211-229). *)
Inductive time_unit : Type := Days | Hours | Minutes | Seconds.

Inductive countdown : Type :=
| InvalidDate
| DueNow
| InParts (parts : list (JS.jsnum * time_unit)).

Definition pushIf (cond : bool) (part : JS.jsnum * time_unit)
    (parts : list (JS.jsnum * time_unit)) : list (JS.jsnum * time_unit) :=
  if cond then parts ++ [part] else parts.

Definition dueCountdown (currentTime : JS.Date) (dueDate : Z) : countdown :=
  let due := JS.getTime (JS.new_Date (JS.Num dueDate)) in
  if JSMath.isNaN due then InvalidDate
  else
    let diffMs := JS.sub due (JS.getTime currentTime) in
    if JS.le diffMs (JS.Num 0) then DueNow
    else
      let seconds := JSMath.rem (JSMath.floorDiv diffMs 1000) 60 in
      let minutes := JSMath.rem (JSMath.floorDiv diffMs (1000 * 60)) 60 in
      let hours := JSMath.rem (JSMath.floorDiv diffMs (1000 * 60 * 60)) 24 in
      let days := JSMath.floorDiv diffMs (1000 * 60 * 60 * 24) in
      let parts := [] in
      let parts := pushIf (JS.gt days (JS.Num 0)) (days, Days) parts in
      let parts := pushIf (JS.gt hours (JS.Num 0)) (hours, Hours) parts in
      let parts :=
        pushIf (JS.gt minutes (JS.Num 0) && JSMath.eqb days 0)
               (minutes, Minutes) parts in
      let parts :=
        pushIf (JSMath.eqb days 0 && JSMath.eqb hours 0)
               (seconds, Seconds) parts in
      InParts parts.

(** The seconds a list of parts stands for. *)
Definition unitSeconds (u : time_unit) : Z :=
  match u with
  | Days => 86400
  | Hours => 3600
  | Minutes => 60
  | Seconds => 1
  end.

Fixpoint partsSeconds (parts : list (JS.jsnum * time_unit)) : Z :=
  match parts with
  | [] => 0
  | (JS.Num n, u) :: rest => n * unitSeconds u + partsSeconds rest
  | (JS.NaN, _) :: rest => partsSeconds rest
  end.

(** The object passed to [update] by [toggleComplete] (lines 184-187);
    [completed_at] is the clock reading or [null]. *)
Record TogglePayload : Type := {
  payload_is_completed : bool;
  payload_completed_at : option Z
}.

Definition togglePayload (clock : Z) (reminder : Reminder.t) : TogglePayload :=
  {| payload_is_completed := negb (Reminder.is_completed reminder);
     payload_completed_at :=
       if negb (Reminder.is_completed reminder) then Some clock else None |}.

(** A row of [reminders] with its column [completed_at] ([null] or an
    instant), which [toggleComplete] writes and the scheduler and the
    poller never read. *)
Record Row : Type := {
  columns : Reminder.t;
  completed_at : option Z
}.

Definition Table : Type := list Row.

(** The table as the scheduler and the poller read it. *)
Definition storeOf (tb : Table) : Store := map columns tb.

Definition setCompleted (b : bool) (r : Reminder.t) : Reminder.t :=
  Reminder.mk (Reminder.id r) (Reminder.user_id r) (Reminder.title r)
    (Reminder.description r) (Reminder.reminder_type r) (Reminder.due_date r)
    b (Reminder.notification_sent r).

(** [.update(payload).eq('id', id)] when it succeeds: the rows with the
    id get both keys of the payload. *)
Definition applyToggle (payload : TogglePayload) (id : string) (tb : Table)
  : Table :=
  map (fun row =>
         if String.eqb (Reminder.id (columns row)) id
         then {| columns :=
                   setCompleted (payload_is_completed payload) (columns row);
                 completed_at := payload_completed_at payload |}
         else row) tb.

(** [toggleComplete]: [reminder] is the row as the view shows it; an
    error is thrown to the [catch], which logs it. *)
Definition toggleComplete (res : outcome) (clock : Z) (reminder : Reminder.t)
    (tb : Table) : Table :=
  match res with
  | Succeeds =>
      applyToggle (togglePayload clock reminder) (Reminder.id reminder) tb
  | ReturnsError | Throws => tb
  end.

End RemindersView.

(* ------------------------------------------------------------------ *)
(** ** The shared one-second timer (lib/sharedTimer.ts, lines 1-25)     *)
(* ------------------------------------------------------------------ *)

Module SharedTimer.

(** A callback is identified by a number; [subscribers] is the [Set] in
    insertion order.  [active] and [next] belong to the runtime: the
    intervals that are armed and the id the next [setInterval] returns. *)
Record t : Type := {
  subscribers : list nat;
  intervalId : option nat;
  active : list nat;
  next : nat
}.

Definition initial : t :=
  {| subscribers := []; intervalId := None; active := []; next := 1 |}.

(** [!this.intervalId] *)
Definition noInterval (s : t) : bool :=
  match intervalId s with
  | None => true
  | Some n => Nat.eqb n 0
  end.

(** [this.subscribers.add(callback)] *)
Definition add (cb : nat) (l : list nat) : list nat :=
  if existsb (Nat.eqb cb) l then l else l ++ [cb].

(** [this.subscribers.delete(callback)] *)
Definition delete (cb : nat) (l : list nat) : list nat :=
  filter (fun x => negb (Nat.eqb x cb)) l.

Definition subscribe (cb : nat) (s : t) : t :=
  let subs := add cb (subscribers s) in
  if noInterval s then
    {| subscribers := subs; intervalId := Some (next s);
       active := active s ++ [next s]; next := S (next s) |}
  else
    {| subscribers := subs; intervalId := intervalId s;
       active := active s; next := next s |}.

(** The function [subscribe] returns. *)
Definition cleanup (cb : nat) (s : t) : t :=
  let subs := delete cb (subscribers s) in
  match subs, intervalId s with
  | [], Some n =>
      if Nat.eqb n 0 then
        {| subscribers := subs; intervalId := intervalId s;
           active := active s; next := next s |}
      else
        {| subscribers := subs; intervalId := None;
           active := delete n (active s); next := next s |}
  | _, _ =>
      {| subscribers := subs; intervalId := intervalId s;
         active := active s; next := next s |}
  end.

(** One second elapses: every armed interval calls every subscriber with
    the time [now]. *)
Definition tick (now : Z) (s : t) : list (nat * Z) :=
  flat_map (fun _ => map (fun cb => (cb, now)) (subscribers s)) (active s).

Inductive op : Type :=
| Subscribe (cb : nat)
| Cleanup (cb : nat).

Definition apply (s : t) (o : op) : t :=
  match o with
  | Subscribe cb => subscribe cb s
  | Cleanup cb => cleanup cb s
  end.

Definition applyAll (ops : list op) (s : t) : t := fold_left apply ops s.

(** What every reachable state satisfies. *)
Definition Invariant (s : t) : Prop :=
  NoDup (subscribers s) /\ (1 <= next s)%nat
  /\ ((subscribers s = [] /\ intervalId s = None /\ active s = [])
      \/ (subscribers s <> []
          /\ exists n, (1 <= n < next s)%nat
                       /\ intervalId s = Some n /\ active s = [n])).

End SharedTimer.

(* ------------------------------------------------------------------ *)
(** ** The caller of the start routine (AuthContext.tsx, lines 87-115)  *)
(* ------------------------------------------------------------------ *)

(** The body shared by the [getSession] continuation and the
    [onAuthStateChange] callback: [sessionUser] is [session?.user]. *)
Definition onAuthSession (w : World) (sessionUser : option string)
    (p : Process) : Process :=
  match sessionUser with
  | Some _ =>
      if has_window w then startReminderNotificationService w p else p
  | None => p
  end.

Definition onAuthSessions (w : World) (sessions : list (option string))
    (p : Process) : Process :=
  fold_left (fun q s => onAuthSession w s q) sessions p.

Definition signedIn (s : option string) : bool :=
  match s with Some _ => true | None => false end.

(* ------------------------------------------------------------------ *)
(** ** [sendEmail] with its result object (lib/email.ts, lines 12-57)   *)
(* ------------------------------------------------------------------ *)

(** What [response.json()] gives. *)
Inductive json_body : Type :=
| Unreadable
| Body (result : JS.value).

Inductive http_response : Type :=
| HttpResponds (status : Z) (body : json_body)
| HttpRejects.

(** The [error] field of the result: a value read off the response, or
    the message of the exception the [catch] received. *)
Inductive email_error : Type :=
| FromResult (v : JS.value)
| FromException.

Record EmailResult : Type := {
  er_success : bool;
  er_error : option email_error;
  er_data : JS.value
}.

(** [a || b] *)
Definition or_ (a b : JS.value) : JS.value := if JS.truthy a then a else b.

(** Reading a property off [null] or [undefined] throws. *)
Definition nullish (v : JS.value) : bool :=
  match v with
  | JS.Null | JS.Undefined => true
  | _ => false
  end.

Definition caught : EmailResult :=
  {| er_success := false; er_error := Some FromException;
     er_data := JS.Undefined |}.

Definition sendEmailResult (r : http_response) : EmailResult :=
  match r with
  | HttpRejects => caught
  | HttpResponds _ Unreadable => caught
  | HttpResponds status (Body result) =>
      if nullish result then caught
      else if negb (status =? 200) then
        {| er_success := false;
           er_error :=
             Some (FromResult
                     (or_ (or_ (JS.get result "error")
                               (JS.get result "message"))
                          (JS.VStr "Failed to send email")));
           er_data := JS.Undefined |}
      else
        {| er_success := true; er_error := None;
           er_data := JS.get result "data" |}
  end.

(** The outcome the scheduler's model of the mail route keeps. *)
Definition routeOutcome (r : http_response) : http_outcome :=
  match r with
  | HttpRejects => Rejects
  | HttpResponds status Unreadable => Responds status false
  | HttpResponds status (Body result) => Responds status (negb (nullish result))
  end.

(* ------------------------------------------------------------------ *)
(** ** Observations on the provider's poller                            *)
(* ------------------------------------------------------------------ *)

Definition ctxUpdatedId (e : ctx_event) : list string :=
  match e with
  | CtxOnBehalf _ (UpdateNotificationSent id Succeeds) => [id]
  | _ => []
  end.

Definition ctxUpdatedIds (tr : list ctx_event) : list string :=
  flat_map ctxUpdatedId tr.

(** The poll reaches the reminders it selected: the select succeeds and
    no update rejects. *)
Definition PollRuns (w : World) (user : string) : Prop :=
  reminders_select w user = Succeeds
  /\ forall id, reminders_update w id <> Throws.

(** The notification a poll shows for a reminder (lines 163-167). *)
Definition shownByPoller (w : World) (r : Reminder.t) : ctx_event :=
  let t := String.append "Reminder ("
             (String.append (Reminder.reminder_type r) ")") in
  CtxOnBehalf r
    (AddNotification t (Reminder.title r) "reminder"
       (addNotification w t (Reminder.title r) "reminder")).

(** The email call a pass makes for reminder [r] of profile [p]. *)
Definition emailCall (w : World) (p : Profile.t) (r : Reminder.t) : event :=
  OnBehalf p r
    (SendReminderNotification (Profile.email p)
       (firstNameOf (Profile.full_name p)) (Reminder.title r)
       (orElse (Reminder.description r) EmptyString) (Reminder.due_date r)
       (sendReminderNotification w r)).

Fixpoint hasSpace (s : string) : bool :=
  match s with
  | EmptyString => false
  | String c rest => Ascii.eqb c " "%char || hasSpace rest
  end.

(* ------------------------------------------------------------------ *)
(** ** More sample data                                                 *)
(* ------------------------------------------------------------------ *)

Module Sample2.

Definition withUpdate (upd : string -> outcome) (w : World) : World :=
  {| has_window := has_window w;
     supabase_ready := supabase_ready w;
     clock := clock w;
     supports_Notification := supports_Notification w;
     Notification_permission := Notification_permission w;
     document_hasFocus := document_hasFocus w;
     profiles := profiles w;
     profiles_select := profiles_select w;
     reminders_select := reminders_select w;
     send_reminder_route := send_reminder_route w;
     reminders_update := upd |}.

(** Every update returns an error. *)
Definition updateFails : World := withUpdate (fun _ => ReturnsError) Sample.world.

(** The profile select returns an error. *)
Definition profilesFail : World :=
  {| has_window := true;
     supabase_ready := true;
     clock := Sample.T + 60000;
     supports_Notification := true;
     Notification_permission := Granted;
     document_hasFocus := false;
     profiles := [Sample.alice; Sample.bob];
     profiles_select := ReturnsError;
     reminders_select := fun _ => Succeeds;
     send_reminder_route := fun _ => Responds 200 true;
     reminders_update := fun _ => Succeeds |}.

Definition note (id : string) (read : bool) : Feed.Notification :=
  Feed.mk id "Reminder: Task" "You have a reminder due now" "reminder" None 0
    read.

(** A profile with both channels on, its reminder, and a browser session
    in which the mail route answers 500. *)
Definition frank : Profile.t :=
  Profile.mk "frank" (Some "frank@example.org") (Some "Frank Moe")
    (Sample.prefs true true).

Definition rf : Reminder.t := Sample.reminder "rf" "frank" Sample.T false false.

Definition mailDownForFrank : World :=
  {| has_window := true;
     supabase_ready := true;
     clock := Sample.T + 60000;
     supports_Notification := true;
     Notification_permission := Granted;
     document_hasFocus := false;
     profiles := [frank];
     profiles_select := Succeeds;
     reminders_select := fun _ => Succeeds;
     send_reminder_route := fun _ => Responds 500 true;
     reminders_update := fun _ => Succeeds |}.

(** The sample table with its [completed_at] column: the completed row
    was completed one hour before [T]. *)
Definition rows : RemindersView.Table :=
  map (fun r =>
         {| RemindersView.columns := r;
            RemindersView.completed_at :=
              if Reminder.is_completed r then Some (Sample.T - 3600000)
              else None |})
      Sample.table.

End Sample2.

(** The browser call a pass makes for reminder [r] of profile [p]. *)
Definition browserCall (w : World) (m : ServiceModule) (p : Profile.t)
    (r : Reminder.t) : event :=
  let t := String.append "Reminder: " (Reminder.title r) in
  let b := orElse (Reminder.description r) "You have a reminder due now" in
  OnBehalf p r (ShowBrowserNotification t b (showBrowserNotification w m t b)).

(* ================================================================== *)
(** * Properties                                                        *)
(* ================================================================== *)

(* ------------------------------------------------------------------ *)
(** ** The model at work                                                *)
(* ------------------------------------------------------------------ *)

(** One minute after the due instant: mail for the first profile, the
    browser channel for the second, nothing for the two without an
    enabled channel nor for the completed reminder. *)
Example sample_pass :
  passTrace Sample.world Sample.registered Sample.table
  = [PassInvoked; SelectProfiles Succeeds;
     SelectReminders Sample.alice Succeeds;
     OnBehalf Sample.alice Sample.ra
       (SendReminderNotification (Some "alice@example.org") "Alice" "Task ra"
          EmptyString Sample.T true);
     OnBehalf Sample.alice Sample.ra (UpdateNotificationSent "ra" Succeeds);
     Console (LogNotificationMarked "ra");
     SelectReminders Sample.bob Succeeds;
     OnBehalf Sample.bob Sample.rb
       (ShowBrowserNotification "Reminder: Task rb"
          "You have a reminder due now"
          [SystemNotification "Reminder: Task rb"
             "You have a reminder due now" "/favicon.ico";
           FeedEntry "Reminder: Task rb" "You have a reminder due now"
             "reminder";
           SystemNotification "Reminder: Task rb"
             "You have a reminder due now" "/favicon.ico"]);
     OnBehalf Sample.bob Sample.rb (UpdateNotificationSent "rb" Succeeds);
     Console (LogBrowserMarked "rb")]
  /\ passStore Sample.world Sample.registered Sample.table
     = [setSent Sample.ra; setSent Sample.rb; Sample.rc; Sample.rdone].
Proof. split; reflexivity. Qed.

(** Two hundred seconds after the due instant nothing is due. *)
Example sample_pass_late :
  passTrace (Sample.withClock (Sample.T + 200000) Sample.world)
            Sample.registered Sample.table
  = [PassInvoked; SelectProfiles Succeeds;
     SelectReminders Sample.alice Succeeds;
     SelectReminders Sample.bob Succeeds]
  /\ passStore (Sample.withClock (Sample.T + 200000) Sample.world)
               Sample.registered Sample.table
     = Sample.table.
Proof. split; reflexivity. Qed.

(** Without a window the start routine arms nothing. *)
Example sample_start_on_server :
  startReminderNotificationService Sample.server
    (initialProcess Sample.table)
  = {| module_state := initialModule; timers := []; store := Sample.table;
       history := [Console LogBrowserOnly] |}.
Proof. reflexivity. Qed.

Example sample_firstName :
  firstNameOf (Some "Alice Doe") = "Alice"
  /\ firstNameOf (Some EmptyString) = "User"
  /\ firstNameOf None = "User".
Proof. repeat split. Qed.

(* ------------------------------------------------------------------ *)
(** ** The due window                                                   *)
(* ------------------------------------------------------------------ *)

Lemma TimeClip_in_range (z : Z) :
  Z.abs z <= JS.MAX_TIME -> JS.TimeClip (JS.Num z) = JS.Num z.
Proof.
  intros H. unfold JS.TimeClip.
  destruct (Z.leb_spec (Z.abs z) JS.MAX_TIME) as [_ | Hgt]; [reflexivity | lia].
Qed.

Lemma TimeClip_out_of_range (z : Z) :
  JS.MAX_TIME < Z.abs z -> JS.TimeClip (JS.Num z) = JS.NaN.
Proof.
  intros H. unfold JS.TimeClip.
  destruct (Z.leb_spec (Z.abs z) JS.MAX_TIME) as [Hle | _]; [lia | reflexivity].
Qed.

(** The due test on a valid [now], whatever the due instant. *)
Lemma isDue_spec (t due : Z) :
  Z.abs t <= JS.MAX_TIME - 2 * WINDOW_MS ->
  isDue (JS.new_Date (JS.Num t)) due = true <->
  due - 120000 <= t <= due + 120000.
Proof.
  intros Ht. unfold isDue, isDueNow, windowStart, windowEnd, JS.new_Date, JS.getTime.
  assert (HW : WINDOW_MS = 120000) by reflexivity.
  assert (HM : JS.MAX_TIME = 8640000000000000) by reflexivity.
  rewrite (TimeClip_in_range t) by lia.
  destruct (Z_le_gt_dec (Z.abs due) JS.MAX_TIME) as [Hd | Hd].
  - rewrite (TimeClip_in_range due Hd). cbn [JS.sub JS.add]. rewrite HW.
    destruct (Z_le_gt_dec (Z.abs (due - 120000)) JS.MAX_TIME) as [Hs | Hs];
      [rewrite (TimeClip_in_range _ Hs) | rewrite TimeClip_out_of_range by lia];
      (destruct (Z_le_gt_dec (Z.abs (due + 120000)) JS.MAX_TIME) as [He | He];
       [rewrite (TimeClip_in_range _ He) | rewrite TimeClip_out_of_range by lia]);
      cbn [JS.ge JS.le andb]; rewrite ?andb_true_iff, ?Z.leb_le, ?andb_false_r;
      split; intros; try discriminate; lia.
  - rewrite TimeClip_out_of_range by lia. cbn [JS.sub JS.add JS.TimeClip JS.ge JS.le andb].
    split; intros; try discriminate; lia.
Qed.

(* ------------------------------------------------------------------ *)
(** ** The table after a pass is determined by its trace                *)
(* ------------------------------------------------------------------ *)

Lemma setSent_id (r : Reminder.t) : Reminder.id (setSent r) = Reminder.id r.
Proof. reflexivity. Qed.

Lemma setSent_user (r : Reminder.t) :
  Reminder.user_id (setSent r) = Reminder.user_id r.
Proof. reflexivity. Qed.

Lemma setSent_filtered (t : JS.Date) (r : Reminder.t) :
  dueFilter t (setSent r) = false.
Proof. unfold dueFilter. cbn. now rewrite orb_true_r. Qed.

Lemma mem_app (x : string) (l1 l2 : list string) :
  mem x (l1 ++ l2) = mem x l1 || mem x l2.
Proof. unfold mem. apply existsb_app. Qed.

Lemma mem_In (x : string) (l : list string) : mem x l = true <-> In x l.
Proof.
  unfold mem. rewrite existsb_exists. split.
  - intros [y [Hy Heq]]. apply String.eqb_eq in Heq. now subst.
  - intros H. exists x. split; [assumption | apply String.eqb_refl].
Qed.

Lemma markAll_nil (st : Store) : markAll [] st = st.
Proof. unfold markAll. cbn. apply map_id. Qed.

Lemma markSent_markAll (id : string) (st : Store) :
  markSent id st = markAll [id] st.
Proof.
  unfold markSent, markAll. apply map_ext. intros r. cbn.
  now rewrite orb_false_r.
Qed.

Lemma markAll_app (ids1 ids2 : list string) (st : Store) :
  markAll ids2 (markAll ids1 st) = markAll (ids1 ++ ids2) st.
Proof.
  unfold markAll. rewrite map_map. apply map_ext. intros r.
  rewrite mem_app.
  destruct (mem (Reminder.id r) ids1); cbn.
  - now destruct (mem (Reminder.id r) ids2).
  - reflexivity.
Qed.

Lemma updatedIds_app (t1 t2 : list event) :
  updatedIds (t1 ++ t2) = updatedIds t1 ++ updatedIds t2.
Proof. unfold updatedIds. apply flat_map_app. Qed.

Lemma In_markAll (ids : list string) (st : Store) (r' : Reminder.t) :
  In r' (markAll ids st) ->
  exists r, In r st /\ (r' = r \/ r' = setSent r).
Proof.
  unfold markAll. rewrite in_map_iff. intros [r [Heq Hin]].
  exists r. split; [assumption |].
  destruct (mem (Reminder.id r) ids); subst; auto.
Qed.

Lemma markAll_keeps (ids : list string) (st : Store) (r : Reminder.t) :
  In r st -> ~ In (Reminder.id r) ids -> In r (markAll ids st).
Proof.
  intros Hin Hno. unfold markAll. apply in_map_iff. exists r.
  split; [| assumption].
  destruct (mem (Reminder.id r) ids) eqn:E; [| reflexivity].
  apply mem_In in E. contradiction.
Qed.

Lemma markAll_marks (ids : list string) (st : Store) (r : Reminder.t) :
  In r st -> In (Reminder.id r) ids -> In (setSent r) (markAll ids st).
Proof.
  intros Hin Hid. unfold markAll. apply in_map_iff. exists r.
  split; [| assumption].
  apply mem_In in Hid. now rewrite Hid.
Qed.

Lemma markAll_ids (ids : list string) (st : Store) :
  map Reminder.id (markAll ids st) = map Reminder.id st.
Proof.
  unfold markAll. rewrite map_map. apply map_ext. intros r.
  now destruct (mem (Reminder.id r) ids).
Qed.

Lemma markAll_OnlyMarks (ids : list string) (st : Store) :
  OnlyMarks st (markAll ids st).
Proof.
  unfold OnlyMarks, markAll. induction st as [| r st IH]; cbn.
  - constructor.
  - constructor; [| exact IH].
    destruct (mem (Reminder.id r) ids); auto.
Qed.

(** One iteration of the inner loop: the trace does not depend on the
    table, and the table changes as the trace says. *)
Lemma notifyReminder_spec w m p fn st r :
  notifyReminder w m p fn st r =
  (markAll (updatedIds (snd (notifyReminder w m p fn [] r))) st,
   snd (notifyReminder w m p fn [] r)).
Proof.
  unfold notifyReminder, deliver, updateAndLog.
  destruct (browserNotificationsEnabled p), (emailNotificationsEnabled p),
    (sendReminderNotification w r), (reminders_update w (Reminder.id r));
    cbn; rewrite ?markSent_markAll, ?markAll_nil; reflexivity.
Qed.

Lemma notifyAll_spec w m p st due :
  notifyAll w m p (firstNameOf (Profile.full_name p)) st due =
  (markAll (updatedIds (flat_map (reminderEvents w m p) due)) st,
   flat_map (reminderEvents w m p) due).
Proof.
  revert st. induction due as [| r rest IH]; intros st; cbn [notifyAll flat_map].
  - now rewrite markAll_nil.
  - rewrite notifyReminder_spec. rewrite IH.
    fold (reminderEvents w m p r).
    now rewrite markAll_app, updatedIds_app.
Qed.

Lemma processProfile_spec w m st p :
  processProfile w m st p =
  (markAll (updatedIds (profileEvents w m st p)) st,
   profileEvents w m st p, profileCompletion w p).
Proof.
  unfold processProfile, profileEvents, profileCompletion, enabled.
  destruct (emailNotificationsEnabled p), (browserNotificationsEnabled p);
    cbn [negb andb orb]; try (now rewrite markAll_nil);
    (destruct (reminders_select w (Profile.id p));
     [| now rewrite markAll_nil | now rewrite markAll_nil];
     destruct (remindersOf (Profile.id p) st) as [| r0 rs] eqn:Hrs;
     [now rewrite markAll_nil |];
     destruct (filter (dueFilter (now w)) (r0 :: rs)) as [| d0 ds] eqn:Hdue;
     [now rewrite markAll_nil |];
     rewrite notifyAll_spec; reflexivity).
Qed.

Lemma forEachProfile_spec w m st ps :
  forEachProfile w m st ps =
  (markAll (updatedIds (loopEvents w m st ps)) st,
   loopEvents w m st ps, loopCompletion w ps).
Proof.
  revert st. induction ps as [| p rest IH]; intros st;
    cbn [forEachProfile loopEvents loopCompletion].
  - now rewrite markAll_nil.
  - rewrite processProfile_spec.
    destruct (profileCompletion w p); [| reflexivity].
    rewrite IH. now rewrite markAll_app, updatedIds_app.
Qed.

(* ------------------------------------------------------------------ *)
(** ** What a trace can contain                                         *)
(* ------------------------------------------------------------------ *)

Lemma reminderEvents_tagged w m p r q r' c :
  In (OnBehalf q r' c) (reminderEvents w m p r) -> q = p /\ r' = r.
Proof.
  unfold reminderEvents, notifyReminder, deliver, updateAndLog.
  destruct (browserNotificationsEnabled p), (emailNotificationsEnabled p),
    (sendReminderNotification w r), (reminders_update w (Reminder.id r));
    cbn; intros H;
    repeat (destruct H as [H | H]; [inversion H; now subst |]);
    contradiction.
Qed.

Lemma reminderEvents_no_select w m p r q res :
  ~ In (SelectReminders q res) (reminderEvents w m p r).
Proof.
  unfold reminderEvents, notifyReminder, deliver, updateAndLog.
  destruct (browserNotificationsEnabled p), (emailNotificationsEnabled p),
    (sendReminderNotification w r), (reminders_update w (Reminder.id r));
    cbn; intros H;
    repeat (destruct H as [H | H]; [discriminate H |]);
    contradiction.
Qed.

Lemma remindersOf_In uid st r :
  In r (remindersOf uid st) <-> In r st /\ Reminder.user_id r = uid.
Proof.
  unfold remindersOf. rewrite filter_In. now rewrite String.eqb_eq.
Qed.

Lemma profileEvents_on_behalf w m st p q r c :
  In (OnBehalf q r c) (profileEvents w m st p) ->
  q = p /\ enabled p = true /\ reminders_select w (Profile.id p) = Succeeds
  /\ In r st /\ Reminder.user_id r = Profile.id p
  /\ dueFilter (now w) r = true
  /\ In (OnBehalf q r c) (reminderEvents w m p r).
Proof.
  unfold profileEvents.
  destruct (enabled p) eqn:En; [| intros []].
  destruct (reminders_select w (Profile.id p)) eqn:Sel; cbn [In].
  - intros [H | H]; [discriminate H |].
    apply in_flat_map in H. destruct H as [r0 [Hr0 Hev]].
    destruct (reminderEvents_tagged _ _ _ _ _ _ _ Hev) as [-> ->].
    apply filter_In in Hr0. destruct Hr0 as [Hrow Hdue].
    apply remindersOf_In in Hrow. destruct Hrow as [Hin Hown].
    repeat split; assumption.
  - intros [H | [H | []]]; discriminate H.
  - intros [H | []]; discriminate H.
Qed.

Lemma profileEvents_select w m st p q res :
  In (SelectReminders q res) (profileEvents w m st p) ->
  q = p /\ enabled p = true /\ res = reminders_select w (Profile.id p).
Proof.
  unfold profileEvents.
  destruct (enabled p) eqn:En; [| intros []].
  destruct (reminders_select w (Profile.id p)) eqn:Sel; cbn [In].
  - intros [H | H]; [inversion H; now subst |].
    apply in_flat_map in H. destruct H as [r0 [_ Hev]].
    now apply reminderEvents_no_select in Hev.
  - intros [H | [H | []]]; [inversion H; now subst | discriminate H].
  - intros [H | []]; inversion H; now subst.
Qed.

Lemma In_markAll_due t ids st r :
  In r (markAll ids st) -> dueFilter t r = true -> In r st.
Proof.
  intros Hin Hdue. apply In_markAll in Hin.
  destruct Hin as [r0 [Hr0 [-> | ->]]]; [assumption |].
  now rewrite setSent_filtered in Hdue.
Qed.

Lemma loopEvents_on_behalf w m ps : forall st q r c,
  In (OnBehalf q r c) (loopEvents w m st ps) ->
  In q ps /\ enabled q = true /\ reminders_select w (Profile.id q) = Succeeds
  /\ In r st /\ Reminder.user_id r = Profile.id q
  /\ dueFilter (now w) r = true
  /\ In (OnBehalf q r c) (reminderEvents w m q r).
Proof.
  induction ps as [| p rest IH]; intros st q r c; cbn [loopEvents].
  - intros [].
  - intros H.
    assert (Hcases : In (OnBehalf q r c) (profileEvents w m st p) \/
                     In (OnBehalf q r c)
                        (loopEvents w m
                           (markAll (updatedIds (profileEvents w m st p)) st)
                           rest)).
    { destruct (profileCompletion w p); [| now left].
      apply in_app_or in H. exact H. }
    destruct Hcases as [H1 | H2].
    + apply profileEvents_on_behalf in H1.
      destruct H1 as [-> H1]. split; [now left | exact H1].
    + apply IH in H2. destruct H2 as [Hq [He [Hs [Hr [Ho [Hd Hev]]]]]].
      split; [now right |].
      repeat split; try assumption.
      eapply In_markAll_due; eassumption.
Qed.

Lemma loopEvents_select w m ps : forall st q res,
  In (SelectReminders q res) (loopEvents w m st ps) ->
  In q ps /\ enabled q = true /\ res = reminders_select w (Profile.id q).
Proof.
  induction ps as [| p rest IH]; intros st q res; cbn [loopEvents].
  - intros [].
  - intros H.
    assert (Hcases : In (SelectReminders q res) (profileEvents w m st p) \/
                     In (SelectReminders q res)
                        (loopEvents w m
                           (markAll (updatedIds (profileEvents w m st p)) st)
                           rest)).
    { destruct (profileCompletion w p); [| now left].
      apply in_app_or in H. exact H. }
    destruct Hcases as [H1 | H2].
    + apply profileEvents_select in H1.
      destruct H1 as [-> H1]. split; [now left | exact H1].
    + apply IH in H2. destruct H2 as [Hq H2]. split; [now right | exact H2].
Qed.

(** The pass as a whole. *)
Lemma passTrace_unfold w m st :
  passTrace w m st =
  if negb (has_window w) then [PassInvoked; Console LogBrowserOnly]
  else if negb (supabase_ready w) then
    [PassInvoked; Console ErrClientNotInitialized]
  else
    match profiles_select w with
    | Throws => [PassInvoked; SelectProfiles Throws; Console ErrInPass]
    | ReturnsError =>
        [PassInvoked; SelectProfiles ReturnsError; Console ErrFetchingProfiles]
    | Succeeds =>
        match profilesWithEmail w with
        | [] => [PassInvoked; SelectProfiles Succeeds; Console LogNoProfiles]
        | ps =>
            PassInvoked :: SelectProfiles Succeeds :: loopEvents w m st ps
              ++ match loopCompletion w ps with
                 | Normal => []
                 | Abrupt => [Console ErrInPass]
                 end
        end
    end.
Proof.
  unfold passTrace, checkAndSendReminderNotifications, passBody.
  destruct (has_window w); cbn [negb]; [| reflexivity].
  destruct (supabase_ready w); cbn [negb]; [| reflexivity].
  destruct (profiles_select w); try reflexivity.
  destruct (profilesWithEmail w) as [| p0 ps]; [reflexivity |].
  rewrite forEachProfile_spec.
  destruct (loopCompletion w (p0 :: ps)); cbn; [now rewrite app_nil_r | reflexivity].
Qed.

Lemma pass_spec w m st :
  checkAndSendReminderNotifications w m st =
  (markAll (updatedIds (passTrace w m st)) st, passTrace w m st, Normal).
Proof.
  unfold passTrace, checkAndSendReminderNotifications, passBody.
  destruct (has_window w); cbn [negb]; [| now rewrite markAll_nil].
  destruct (supabase_ready w); cbn [negb]; [| now rewrite markAll_nil].
  destruct (profiles_select w); try (now rewrite markAll_nil).
  destruct (profilesWithEmail w) as [| p0 ps]; [now rewrite markAll_nil |].
  rewrite forEachProfile_spec.
  destruct (loopCompletion w (p0 :: ps)); cbn [fst snd];
    unfold updatedIds; cbn [flat_map updatedId app];
    rewrite ?flat_map_app; cbn [flat_map updatedId app];
    rewrite ?app_nil_r; reflexivity.
Qed.

Lemma passStore_spec w m st :
  passStore w m st = markAll (updatedIds (passTrace w m st)) st.
Proof. unfold passStore. now rewrite pass_spec. Qed.

Ltac bookkeeping_only :=
  repeat (apply Forall_cons;
          [first [left; reflexivity
                 | right; left; eexists; reflexivity
                 | right; right; eexists; reflexivity] |]);
  apply Forall_nil.

Lemma passTrace_loop w m st e :
  In e (passTrace w m st) ->
  (forall msg, e <> Console msg) -> e <> PassInvoked ->
  (forall res, e <> SelectProfiles res) ->
  has_window w = true /\ supabase_ready w = true
  /\ profiles_select w = Succeeds
  /\ In e (loopEvents w m st (profilesWithEmail w)).
Proof.
  intros Hin Hc Hp Hs. rewrite passTrace_unfold in Hin.
  assert (Hskip : forall l, In e l ->
            Forall (fun x => x = PassInvoked \/ (exists msg, x = Console msg)
                             \/ exists res, x = SelectProfiles res) l -> False).
  { intros l Hl Hall. rewrite Forall_forall in Hall.
    destruct (Hall e Hl) as [-> | [[msg ->] | [res ->]]].
    - now apply Hp.
    - now apply (Hc msg).
    - now apply (Hs res). }
  destruct (has_window w); cbn [negb] in Hin;
    [| exfalso; apply (Hskip _ Hin); bookkeeping_only].
  destruct (supabase_ready w); cbn [negb] in Hin;
    [| exfalso; apply (Hskip _ Hin); bookkeeping_only].
  destruct (profiles_select w);
    try (exfalso; apply (Hskip _ Hin); bookkeeping_only).
  destruct (profilesWithEmail w) as [| p0 ps];
    [exfalso; apply (Hskip _ Hin); bookkeeping_only |].
  repeat split; try reflexivity.
  destruct Hin as [<- | [<- | Hin]]; [now elim Hp | now elim (Hs Succeeds) |].
  apply in_app_or in Hin. destruct Hin as [Hin | Hin]; [assumption |].
  destruct (loopCompletion w (p0 :: ps)); [destruct Hin |].
  destruct Hin as [<- | []]. now elim (Hc ErrInPass).
Qed.

(** Every call made on behalf of a reminder during a pass is made for a
    row of the table that passes the filter, owned by a fetched profile
    with a channel switched on, and is one of the calls of the inner
    loop for that row. *)
Lemma passTrace_on_behalf w m st q r c :
  In (OnBehalf q r c) (passTrace w m st) ->
  In q (profilesWithEmail w) /\ enabled q = true
  /\ reminders_select w (Profile.id q) = Succeeds
  /\ In r st /\ Reminder.user_id r = Profile.id q
  /\ dueFilter (now w) r = true
  /\ In (OnBehalf q r c) (reminderEvents w m q r).
Proof.
  intros H. apply passTrace_loop in H; try discriminate.
  destruct H as [_ [_ [_ H]]]. now apply loopEvents_on_behalf in H.
Qed.

Lemma passTrace_select w m st q res :
  In (SelectReminders q res) (passTrace w m st) ->
  In q (profilesWithEmail w) /\ enabled q = true
  /\ res = reminders_select w (Profile.id q).
Proof.
  intros H. apply passTrace_loop in H; try discriminate.
  destruct H as [_ [_ [_ H]]]. now apply loopEvents_select in H.
Qed.

(* ------------------------------------------------------------------ *)
(** ** Which reminders a pass gets to                                   *)
(* ------------------------------------------------------------------ *)

Lemma NoDup_map_eq {A B : Type} (f : A -> B) (l : list A) (a b : A) :
  NoDup (map f l) -> In a l -> In b l -> f a = f b -> a = b.
Proof.
  induction l as [| x l IH]; cbn; intros Hnd Ha Hb Heq; [contradiction |].
  inversion Hnd as [| y ys Hnot Hnd']; subst.
  destruct Ha as [-> | Ha], Hb as [-> | Hb].
  - reflexivity.
  - exfalso. apply Hnot. rewrite Heq. now apply in_map.
  - exfalso. apply Hnot. rewrite <- Heq. now apply in_map.
  - now apply IH.
Qed.

Lemma updatedIds_In id tr :
  In id (updatedIds tr) <->
  exists q r, In (OnBehalf q r (UpdateNotificationSent id Succeeds)) tr.
Proof.
  unfold updatedIds. rewrite in_flat_map. split.
  - intros [e [He Hid]].
    destruct e as [| | | | q r [| | id' [| |] |]]; cbn in Hid; try contradiction.
    destruct Hid as [-> | []]. now exists q, r.
  - intros [q [r H]]. eexists. split; [exact H | now left].
Qed.

Lemma reminderEvents_update w m p r q r' id res :
  In (OnBehalf q r' (UpdateNotificationSent id res)) (reminderEvents w m p r) ->
  id = Reminder.id r /\ res = reminders_update w (Reminder.id r)
  /\ (emailNotificationsEnabled p = true ->
      sendReminderNotification w r = true).
Proof.
  unfold reminderEvents, notifyReminder, deliver, updateAndLog.
  destruct (browserNotificationsEnabled p), (emailNotificationsEnabled p),
    (sendReminderNotification w r),
    (reminders_update w (Reminder.id r)) eqn:Hup;
    cbn; intros H;
    repeat (destruct H as [H | H];
            [first [discriminate H
                   | inversion H; subst; repeat split; congruence] |]);
    contradiction.
Qed.

Lemma flat_map_occurs {A : Type} (f : A -> list event) (l : list A) (a : A) :
  In a l -> Occurs (f a) (flat_map f l).
Proof.
  intros Hin. apply in_split in Hin. destruct Hin as [l1 [l2 ->]].
  exists (flat_map f l1), (flat_map f l2).
  now rewrite flat_map_app.
Qed.

Lemma Occurs_app_l l t1 t2 : Occurs l t1 -> Occurs l (t1 ++ t2).
Proof.
  intros [pre [post ->]]. exists pre, (post ++ t2).
  now rewrite <- !app_assoc.
Qed.

Lemma Occurs_app_r l t1 t2 : Occurs l t2 -> Occurs l (t1 ++ t2).
Proof.
  intros [pre [post ->]]. exists (t1 ++ pre), post.
  now rewrite <- !app_assoc.
Qed.

Lemma Occurs_cons l e t : Occurs l t -> Occurs l (e :: t).
Proof. intros H. now apply (Occurs_app_r l [e] t). Qed.

Lemma Occurs_In l t e : Occurs l t -> In e l -> In e t.
Proof.
  intros [pre [post ->]] H. apply in_or_app. right. apply in_or_app. now left.
Qed.

Lemma profileCompletion_Normal w p :
  reminders_select w (Profile.id p) <> Throws -> profileCompletion w p = Normal.
Proof.
  unfold profileCompletion. intros H.
  destruct (enabled p); [| reflexivity].
  now destruct (reminders_select w (Profile.id p)).
Qed.

Lemma profileEvents_reaches w m st p r :
  enabled p = true -> reminders_select w (Profile.id p) = Succeeds ->
  In r st -> Reminder.user_id r = Profile.id p ->
  dueFilter (now w) r = true ->
  Occurs (reminderEvents w m p r) (profileEvents w m st p).
Proof.
  intros En Sel Hin Hown Hdue. unfold profileEvents. rewrite En, Sel.
  apply Occurs_cons. apply flat_map_occurs.
  apply filter_In. split; [| assumption].
  apply remindersOf_In. now split.
Qed.

Lemma loopEvents_reaches w m p r ps : forall st,
  (forall q, In q ps -> reminders_select w (Profile.id q) <> Throws) ->
  NoDup (map Profile.id ps) ->
  In p ps -> enabled p = true ->
  reminders_select w (Profile.id p) = Succeeds ->
  In r st -> Reminder.user_id r = Profile.id p ->
  dueFilter (now w) r = true ->
  (forall r', In r' st -> Reminder.id r' = Reminder.id r ->
              Reminder.user_id r' = Reminder.user_id r) ->
  Occurs (reminderEvents w m p r) (loopEvents w m st ps).
Proof.
  induction ps as [| q rest IH]; intros st Hsel Hnd Hp En Sel Hin Hown Hdue Hkey;
    [destruct Hp |].
  cbn [loopEvents].
  rewrite profileCompletion_Normal by (apply Hsel; now left).
  inversion Hnd as [| x xs Hfresh Hnd']; subst.
  destruct Hp as [-> | Hp].
  - apply Occurs_app_l. now apply profileEvents_reaches.
  - apply Occurs_app_r.
    assert (Hne : Profile.id q <> Profile.id p).
    { intros Heq. apply Hfresh. rewrite Heq. now apply in_map. }
    apply IH; try assumption.
    + intros q' Hq'. apply Hsel. now right.
    + apply markAll_keeps; [assumption |].
      intros Hid. apply updatedIds_In in Hid. destruct Hid as [q' [r' Hev]].
      apply profileEvents_on_behalf in Hev.
      destruct Hev as [-> [_ [_ [Hr' [Hown' [_ Hev]]]]]].
      apply reminderEvents_update in Hev. destruct Hev as [Hid _].
      apply Hne. rewrite <- Hown', <- Hown. apply Hkey; [assumption |].
      now symmetry.
    + intros r' Hr' Hid. apply In_markAll in Hr'.
      destruct Hr' as [r0 [Hr0 [-> | ->]]].
      * now apply Hkey.
      * rewrite setSent_user. apply Hkey; [assumption |].
        now rewrite setSent_id in Hid.
Qed.

(** A pass gets to every reminder that satisfies [Reached], whatever the
    other collaborator calls of the pass return. *)
Lemma pass_reaches w m st p r :
  Reached w st p r -> Occurs (reminderEvents w m p r) (passTrace w m st).
Proof.
  intros [Hw Hc Hps Hrej Hpk Hrk Hp En Sel Hin Hown Hdue].
  rewrite passTrace_unfold, Hw, Hc, Hps. cbn [negb].
  destruct (profilesWithEmail w) as [| p0 ps] eqn:Hlist; [destruct Hp |].
  apply Occurs_cons, Occurs_cons, Occurs_app_l.
  apply loopEvents_reaches; try assumption.
  intros r' Hr' Hid.
  now rewrite (NoDup_map_eq Reminder.id st r' r Hrk Hr' Hin Hid).
Qed.

(* ------------------------------------------------------------------ *)
(** ** The claims                                                       *)
(* ------------------------------------------------------------------ *)

(** The filter of the pass on a valid [now]: the row is pending, not yet
    notified, and its due instant is within the window. *)
Lemma dueFilter_spec (t : Z) (r : Reminder.t) :
  Z.abs t <= JS.MAX_TIME - 2 * WINDOW_MS ->
  dueFilter (JS.new_Date (JS.Num t)) r = true <->
  Reminder.is_completed r = false
  /\ Reminder.notification_sent r = false
  /\ Reminder.due_date r - 120000 <= t <= Reminder.due_date r + 120000.
Proof.
  intros Ht. unfold dueFilter.
  pose proof (isDue_spec t (Reminder.due_date r) Ht) as Hdue.
  destruct (Reminder.is_completed r), (Reminder.notification_sent r);
    cbn [orb]; split;
    try (intros H; discriminate H);
    try (intros [H1 [H2 _]]; discriminate).
  - intros H. apply Hdue in H. auto.
  - intros [_ [_ H]]. now apply Hdue.
Qed.

Lemma Reached_of_Fetched w st p r :
  Fetched w st p r -> dueFilter (now w) r = true -> Reached w st p r.
Proof. intros [] Hdue. now constructor. Qed.

(** The inner loop calls a channel for the reminder it is run on. *)
Lemma reminderEvents_delivery w m p r :
  enabled p = true ->
  exists c, isDelivery c = true
            /\ In (OnBehalf p r c) (reminderEvents w m p r).
Proof.
  intros En. unfold enabled in En.
  unfold reminderEvents, notifyReminder, deliver, updateAndLog.
  destruct (browserNotificationsEnabled p), (emailNotificationsEnabled p);
    try discriminate En;
    destruct (sendReminderNotification w r),
      (reminders_update w (Reminder.id r));
    cbn; eexists; (split; [| left; reflexivity]); reflexivity.
Qed.

(** C1.  The due test of an evaluation pass is the symmetric inclusive
    window.  Read at a time [now] (any valid date more than four minutes
    away from the ends of the range of [Date]), a due instant [dueAt]
    passes the test if and only if [dueAt - 120s <= now <= dueAt + 120s],
    both ends included, and a row passes the filter of the pass if and
    only if it is neither completed nor notified and its due instant is
    in that window.  The pass acts on exactly these rows: it makes no
    call on behalf of a reminder whose due instant is outside the
    window, so nothing overdue is caught up, and it calls a channel for
    every pending reminder inside the window among the rows it
    fetches. *)
Theorem C1_due_window_inclusive (w : World) :
  Z.abs (clock w) <= JS.MAX_TIME - 2 * WINDOW_MS ->
  (forall dueAt : Z,
      isDue (now w) dueAt = true <->
      dueAt - 120000 <= clock w <= dueAt + 120000)
  /\ (forall r : Reminder.t,
         dueFilter (now w) r = true <->
         Reminder.is_completed r = false
         /\ Reminder.notification_sent r = false
         /\ Reminder.due_date r - 120000 <= clock w
            <= Reminder.due_date r + 120000)
  /\ (forall m st p r c,
         In (OnBehalf p r c) (passTrace w m st) ->
         Reminder.due_date r - 120000 <= clock w
         <= Reminder.due_date r + 120000)
  /\ (forall m st p r,
         Fetched w st p r ->
         Reminder.is_completed r = false ->
         Reminder.notification_sent r = false ->
         Reminder.due_date r - 120000 <= clock w
         <= Reminder.due_date r + 120000 ->
         exists c, isDelivery c = true
                   /\ In (OnBehalf p r c) (passTrace w m st)).
Proof.
  intros Hclock. split; [| split; [| split]].
  - intros dueAt. unfold now. now apply isDue_spec.
  - intros r. unfold now. now apply dueFilter_spec.
  - intros m st p r c Hev.
    apply passTrace_on_behalf in Hev.
    destruct Hev as [_ [_ [_ [_ [_ [Hdue _]]]]]].
    unfold now in Hdue. apply dueFilter_spec in Hdue; [| exact Hclock].
    tauto.
  - intros m st p r Hf Hc Hs Hwin.
    assert (Hdue : dueFilter (now w) r = true)
      by (unfold now; apply dueFilter_spec; auto).
    pose proof (Reached_of_Fetched w st p r Hf Hdue) as Hreach.
    destruct (reminderEvents_delivery w m p r (fetched_enabled _ _ _ _ Hf))
      as [c [Hc' Hin]].
    exists c. split; [exact Hc' |].
    eapply Occurs_In; [apply pass_reaches; exact Hreach | exact Hin].
Qed.

Lemma Sample_world_fetches (r : Reminder.t) (p : Profile.t) (t : Z)
    (st : Store) :
  NoDup (map Reminder.id st) ->
  In p [Sample.alice; Sample.bob] -> In r st ->
  Reminder.user_id r = Profile.id p ->
  Fetched (Sample.withClock t Sample.world) st p r.
Proof.
  intros Hnd Hp Hr Hown. constructor; try reflexivity; try assumption.
  - intros q _. discriminate.
  - cbn. repeat constructor; cbn; intuition discriminate.
  - cbn. destruct Hp as [<- | [<- | []]]; auto.
  - destruct Hp as [<- | [<- | []]]; reflexivity.
Qed.

Lemma Sample_table_keys : NoDup (map Reminder.id Sample.table).
Proof. cbn. repeat constructor; cbn; intuition discriminate. Qed.

Lemma C1_due_window_inclusive_witness :
  isDue (now Sample.world) (Sample.T - 60000) = true
  /\ isDue (now Sample.world) (Sample.T - 60001) = false
  /\ dueFilter (now (Sample.withClock (Sample.T + 120000) Sample.world))
       Sample.ra = true
  /\ exists c,
       isDelivery c = true
       /\ In (OnBehalf Sample.alice Sample.ra c)
             (passTrace (Sample.withClock (Sample.T + 120000) Sample.world)
                Sample.registered Sample.table).
Proof.
  assert (Hclock : Z.abs (clock Sample.world) <= JS.MAX_TIME - 2 * WINDOW_MS)
    by (vm_compute; discriminate).
  assert (Hclock2 : Z.abs (clock (Sample.withClock (Sample.T + 120000)
                                    Sample.world))
                    <= JS.MAX_TIME - 2 * WINDOW_MS)
    by (vm_compute; discriminate).
  destruct (C1_due_window_inclusive Sample.world Hclock) as [Hiff _].
  destruct (C1_due_window_inclusive _ Hclock2) as [_ [Hfilter [_ Hfires]]].
  assert (Hwin : Reminder.due_date Sample.ra - 120000
                 <= clock (Sample.withClock (Sample.T + 120000) Sample.world)
                 <= Reminder.due_date Sample.ra + 120000)
    by (vm_compute; split; discriminate).
  split; [| split; [| split]].
  - apply Hiff. vm_compute. split; discriminate.
  - destruct (isDue (now Sample.world) (Sample.T - 60001)) eqn:E;
      [| reflexivity].
    apply Hiff in E. vm_compute in E. destruct E as [_ E]. now elim E.
  - apply Hfilter. split; [reflexivity | split; [reflexivity | exact Hwin]].
  - apply (Hfires Sample.registered Sample.table Sample.alice Sample.ra);
      [| reflexivity | reflexivity | exact Hwin].
    apply Sample_world_fetches;
      [exact Sample_table_keys | now left | now left | reflexivity].
Defined.

(** C5.  A reminder with [completed = true] or with
    [notification-sent = true] never passes the filter of an evaluation
    pass, whatever its due instant, and the pass makes no call on its
    behalf: no channel is invoked for it and no update is issued.  When
    it is a row of the table and ids are the primary key, no update of
    the pass carries its id either and the row is the same after the
    pass. *)
Theorem C5_completed_or_sent_never_notified (w : World) (m : ServiceModule)
    (st : Store) (r : Reminder.t) :
  Reminder.is_completed r = true \/ Reminder.notification_sent r = true ->
  dueFilter (now w) r = false
  /\ (forall p c, ~ In (OnBehalf p r c) (passTrace w m st))
  /\ (In r st -> NoDup (map Reminder.id st) ->
      (forall q r' res,
          ~ In (OnBehalf q r' (UpdateNotificationSent (Reminder.id r) res))
               (passTrace w m st))
      /\ In r (passStore w m st)).
Proof.
  intros Hflag.
  assert (Hno : dueFilter (now w) r = false).
  { unfold dueFilter. destruct Hflag as [-> | ->]; [reflexivity |].
    now rewrite orb_true_r. }
  split; [exact Hno |]. split.
  - intros p c Hev. apply passTrace_on_behalf in Hev.
    destruct Hev as [_ [_ [_ [_ [_ [Hdue _]]]]]]. congruence.
  - intros Hin Hkeys.
    assert (Hnone : forall q r' res,
               ~ In (OnBehalf q r' (UpdateNotificationSent (Reminder.id r) res))
                    (passTrace w m st)).
    { intros q r' res Hev. apply passTrace_on_behalf in Hev.
      destruct Hev as [_ [_ [_ [Hr' [_ [Hdue Hev]]]]]].
      apply reminderEvents_update in Hev. destruct Hev as [Hid _].
      assert (r' = r) by (apply (NoDup_map_eq Reminder.id st); auto).
      congruence. }
    split; [exact Hnone |].
    rewrite passStore_spec. apply markAll_keeps; [exact Hin |].
    intros Hid. apply updatedIds_In in Hid. destruct Hid as [q [r' Hev]].
    now apply Hnone in Hev.
Qed.

Lemma C5_completed_or_sent_never_notified_witness :
  dueFilter (now Sample.world) Sample.rdone = false
  /\ (forall p c,
        ~ In (OnBehalf p Sample.rdone c)
             (passTrace Sample.world Sample.registered Sample.table))
  /\ In Sample.rdone (passStore Sample.world Sample.registered Sample.table).
Proof.
  destruct (C5_completed_or_sent_never_notified
              Sample.world Sample.registered Sample.table Sample.rdone
              (or_introl eq_refl)) as [Hdue [Hcalls Hrow]].
  split; [exact Hdue |]. split; [exact Hcalls |].
  apply Hrow.
  - right. right. right. now left.
  - cbn. repeat constructor; cbn; intuition discriminate.
Defined.

(** C7.  A profile whose two preference flags are both false is skipped
    by an evaluation pass: its iteration does nothing, no reminder
    select is issued for it and no call is made on its behalf.  When it
    is one of the fetched profiles and ids are the primary key, no
    reminder select of the pass carries its id. *)
Theorem C7_disabled_profile_skipped (w : World) (m : ServiceModule)
    (st : Store) (p : Profile.t) :
  emailNotificationsEnabled p = false ->
  browserNotificationsEnabled p = false ->
  processProfile w m st p = (st, [], Normal)
  /\ (forall res, ~ In (SelectReminders p res) (passTrace w m st))
  /\ (forall r c, ~ In (OnBehalf p r c) (passTrace w m st))
  /\ (In p (profilesWithEmail w) ->
      NoDup (map Profile.id (profilesWithEmail w)) ->
      forall q res, In (SelectReminders q res) (passTrace w m st) ->
                    Profile.id q <> Profile.id p).
Proof.
  intros He Hb.
  assert (Hoff : enabled p = false) by (unfold enabled; now rewrite He, Hb).
  split; [| split; [| split]].
  - unfold processProfile. now rewrite He, Hb.
  - intros res Hev. apply passTrace_select in Hev.
    destruct Hev as [_ [En _]]. congruence.
  - intros r c Hev. apply passTrace_on_behalf in Hev.
    destruct Hev as [_ [En _]]. congruence.
  - intros Hp Hkeys q res Hev Hid. apply passTrace_select in Hev.
    destruct Hev as [Hq [En _]].
    assert (q = p)
      by (apply (NoDup_map_eq Profile.id (profilesWithEmail w)); auto).
    congruence.
Qed.

Lemma C7_disabled_profile_skipped_witness :
  processProfile Sample.world Sample.registered Sample.table Sample.carol
  = (Sample.table, [], Normal)
  /\ (forall res,
        ~ In (SelectReminders Sample.carol res)
             (passTrace Sample.world Sample.registered Sample.table))
  /\ (forall r c,
        ~ In (OnBehalf Sample.carol r c)
             (passTrace Sample.world Sample.registered Sample.table)).
Proof.
  destruct (C7_disabled_profile_skipped
              Sample.world Sample.registered Sample.table Sample.carol
              eq_refl eq_refl) as [Hskip [Hsel [Hcalls _]]].
  split; [exact Hskip |]. split; [exact Hsel | exact Hcalls].
Defined.

Lemma lookup_absent (k : string) (fields : list (string * JS.value)) :
  hasKey k fields = false -> JS.lookup k fields = JS.Undefined.
Proof.
  induction fields as [| [k' v] rest IH]; cbn; [reflexivity |].
  destruct (String.eqb k k'); cbn; [discriminate | exact IH].
Qed.

Lemma NoNotificationKeys_off (p : Profile.t) :
  NoNotificationKeys (Profile.preferences p) ->
  emailNotificationsEnabled p = false /\ browserNotificationsEnabled p = false.
Proof.
  unfold emailNotificationsEnabled, browserNotificationsEnabled,
    preferenceEnabled.
  intros H. inversion H as [Hp | Hp | fields He Hb Hp]; cbn.
  - split; reflexivity.
  - split; reflexivity.
  - now rewrite (lookup_absent _ _ He), (lookup_absent _ _ Hb).
Qed.

(** C9.  A profile whose preferences are null, absent, or an object
    without the [email_notifications] and [browser_notifications] keys
    has both flags read as false, and the pass treats it exactly as the
    same profile with both keys set to false: the iteration does nothing,
    no reminder select is issued and no call is made on its behalf. *)
Theorem C9_missing_preferences_skipped (w : World) (m : ServiceModule)
    (st : Store) (p : Profile.t) :
  NoNotificationKeys (Profile.preferences p) ->
  emailNotificationsEnabled p = false
  /\ browserNotificationsEnabled p = false
  /\ processProfile w m st p = (st, [], Normal)
  /\ processProfile w m st p = processProfile w m st (withPreferences p allOff)
  /\ (forall res, ~ In (SelectReminders p res) (passTrace w m st))
  /\ (forall r c, ~ In (OnBehalf p r c) (passTrace w m st)).
Proof.
  intros Hkeys. destruct (NoNotificationKeys_off p Hkeys) as [He Hb].
  assert (Hoff : enabled p = false) by (unfold enabled; now rewrite He, Hb).
  assert (Hskip : processProfile w m st p = (st, [], Normal))
    by (unfold processProfile; now rewrite He, Hb).
  split; [exact He |]. split; [exact Hb |]. split; [exact Hskip |].
  split; [| split].
  - rewrite Hskip. unfold processProfile.
    reflexivity.
  - intros res Hev. apply passTrace_select in Hev.
    destruct Hev as [_ [En _]]. congruence.
  - intros r c Hev. apply passTrace_on_behalf in Hev.
    destruct Hev as [_ [En _]]. congruence.
Qed.

Lemma C9_missing_preferences_skipped_witness :
  emailNotificationsEnabled Sample.dave = false
  /\ browserNotificationsEnabled Sample.dave = false
  /\ processProfile Sample.world Sample.registered Sample.table Sample.dave
     = (Sample.table, [], Normal)
  /\ processProfile Sample.world Sample.registered Sample.table Sample.dave
     = processProfile Sample.world Sample.registered Sample.table
         (withPreferences Sample.dave allOff)
  /\ (forall res,
        ~ In (SelectReminders Sample.dave res)
             (passTrace Sample.world Sample.registered Sample.table))
  /\ (forall r c,
        ~ In (OnBehalf Sample.dave r c)
             (passTrace Sample.world Sample.registered Sample.table)).
Proof.
  apply (C9_missing_preferences_skipped
           Sample.world Sample.registered Sample.table Sample.dave).
  simpl. apply nk_null.
Defined.

(** C10.  The browser channel forwards title and body to the in-app feed
    only when it creates the system notification.  When notifications
    are unsupported, permission is not granted, the document has focus
    (or there is no window), the registered trigger is not called: the
    call shows nothing, neither a popup nor a feed entry, and does
    nothing but write a console line in the unsupported case.  A feed
    entry among its effects implies that the popup was created first;
    and when nothing suppresses the popup the effects are the popup
    followed by what the registered trigger does with the same title
    and body. *)
Theorem C10_browser_channel_no_fallback (w : World) (m : ServiceModule)
    (title body : string) :
  (suppressed w ->
   (showBrowserNotification w m title body = []
    \/ showBrowserNotification w m title body
       = [ConsoleLog LogNoDesktopNotification])
   /\ forall e, In e (showBrowserNotification w m title body) ->
                isSystemNotification e = false /\ isFeedEntry e = false)
  /\ (forall e, In e (showBrowserNotification w m title body) ->
                isFeedEntry e = true ->
                ~ suppressed w
                /\ exists forwarded,
                    showBrowserNotification w m title body
                    = SystemNotification title body "/favicon.ico" :: forwarded)
  /\ (~ suppressed w ->
      showBrowserNotification w m title body
      = SystemNotification title body "/favicon.ico"
          :: match triggerNotification m with
             | Some trigger => trigger title body
             | None => []
             end).
Proof.
  unfold suppressed, showBrowserNotification. split; [| split].
  - intros Hs.
    destruct (has_window w); cbn [negb];
      [| split; [now left | intros e []]].
    destruct (supports_Notification w); cbn [negb];
      [| split; [now right | intros e [<- | []]; now split]].
    destruct (Notification_permission w);
      try (split; [now left | intros e []]).
    destruct (document_hasFocus w); [split; [now left | intros e []] |].
    exfalso. destruct Hs as [H | [H | [H | H]]]; congruence.
  - intros e Hin Hfeed.
    destruct (has_window w); cbn [negb] in *; [| destruct Hin].
    destruct (supports_Notification w); cbn [negb] in *;
      [| destruct Hin as [<- | []]; discriminate Hfeed].
    destruct (Notification_permission w); try (now destruct Hin).
    destruct (document_hasFocus w); [now destruct Hin |].
    split.
    + intros [H | [H | [H | H]]]; congruence.
    + eexists. reflexivity.
  - intros Hs.
    destruct (has_window w); cbn [negb]; [| exfalso; apply Hs; now left].
    destruct (supports_Notification w); cbn [negb];
      [| exfalso; apply Hs; right; now left].
    destruct (Notification_permission w);
      try (exfalso; apply Hs; right; right; left; discriminate).
    destruct (document_hasFocus w); [| reflexivity].
    exfalso. apply Hs. right. right. now right.
Qed.

Lemma C10_browser_channel_no_fallback_witness :
  showBrowserNotification (Sample.withFocus true Sample.world)
    Sample.registered "Reminder: Task rb" "You have a reminder due now" = []
  \/ showBrowserNotification (Sample.withFocus true Sample.world)
       Sample.registered "Reminder: Task rb" "You have a reminder due now"
     = [ConsoleLog LogNoDesktopNotification].
Proof.
  destruct (C10_browser_channel_no_fallback
              (Sample.withFocus true Sample.world) Sample.registered
              "Reminder: Task rb" "You have a reminder due now")
    as [Hquiet _].
  apply Hquiet. right. right. right. reflexivity.
Defined.

(* ------------------------------------------------------------------ *)
(** ** Starting the service                                             *)
(* ------------------------------------------------------------------ *)

Lemma reminderEvents_no_entry w m p r :
  ~ In PassInvoked (reminderEvents w m p r).
Proof.
  unfold reminderEvents, notifyReminder, deliver, updateAndLog.
  destruct (browserNotificationsEnabled p), (emailNotificationsEnabled p),
    (sendReminderNotification w r), (reminders_update w (Reminder.id r));
    cbn; intros H;
    repeat (destruct H as [H | H]; [discriminate H |]);
    contradiction.
Qed.

Lemma profileEvents_no_entry w m st p :
  ~ In PassInvoked (profileEvents w m st p).
Proof.
  unfold profileEvents.
  destruct (enabled p); [| intros []].
  destruct (reminders_select w (Profile.id p)); cbn [In].
  - intros [H | H]; [discriminate H |].
    apply in_flat_map in H. destruct H as [r [_ H]].
    now apply reminderEvents_no_entry in H.
  - intros [H | [H | []]]; discriminate H.
  - intros [H | []]; discriminate H.
Qed.

Lemma loopEvents_no_entry w m ps : forall st,
  ~ In PassInvoked (loopEvents w m st ps).
Proof.
  induction ps as [| p rest IH]; intros st; cbn [loopEvents]; [intros [] |].
  intros H.
  destruct (profileCompletion w p).
  - apply in_app_or in H. destruct H as [H | H].
    + now apply profileEvents_no_entry in H.
    + now apply IH in H.
  - now apply profileEvents_no_entry in H.
Qed.

Lemma passesInvoked_app t1 t2 :
  passesInvoked (t1 ++ t2) = (passesInvoked t1 + passesInvoked t2)%nat.
Proof. unfold passesInvoked. now rewrite filter_app, length_app. Qed.

Lemma passesInvoked_none tr : ~ In PassInvoked tr -> passesInvoked tr = 0%nat.
Proof.
  unfold passesInvoked. induction tr as [| e tr IH]; intros H; [reflexivity |].
  cbn [filter]. destruct e;
    try (apply IH; intros Hin; apply H; now right).
  exfalso. apply H. now left.
Qed.

(** A call of the pass is one pass. *)
Lemma passesInvoked_pass w m st : passesInvoked (passTrace w m st) = 1%nat.
Proof.
  rewrite passTrace_unfold.
  destruct (has_window w); cbn [negb]; [| reflexivity].
  destruct (supabase_ready w); cbn [negb]; [| reflexivity].
  destruct (profiles_select w); try reflexivity.
  destruct (profilesWithEmail w) as [| p0 ps]; [reflexivity |].
  change (PassInvoked :: SelectProfiles Succeeds
            :: loopEvents w m st (p0 :: ps)
            ++ match loopCompletion w (p0 :: ps) with
               | Normal => []
               | Abrupt => [Console ErrInPass]
               end)
    with ([PassInvoked; SelectProfiles Succeeds]
            ++ loopEvents w m st (p0 :: ps)
            ++ match loopCompletion w (p0 :: ps) with
               | Normal => []
               | Abrupt => [Console ErrInPass]
               end).
  rewrite !passesInvoked_app.
  rewrite (passesInvoked_none (loopEvents w m st (p0 :: ps)))
    by apply loopEvents_no_entry.
  now destruct (loopCompletion w (p0 :: ps)).
Qed.

Lemma runPass_spec w p :
  runPass w p =
  {| module_state := module_state p; timers := timers p;
     store := passStore w (module_state p) (store p);
     history := history p ++ passTrace w (module_state p) (store p) |}.
Proof.
  unfold runPass, passStore, passTrace.
  now destruct (checkAndSendReminderNotifications w (module_state p) (store p))
    as [[st' tr] c].
Qed.

(** The first call of the start routine in a browser. *)
Lemma start_first w p :
  has_window w = true -> isServiceRunning (module_state p) = false ->
  let m := {| isServiceRunning := true;
              triggerNotification := triggerNotification (module_state p) |} in
  startReminderNotificationService w p =
  {| module_state := m;
     timers := timers p ++ [everyThirtySeconds];
     store := passStore w m (store p);
     history := history p ++ passTrace w m (store p) |}.
Proof.
  intros Hw Hrun. unfold startReminderNotificationService, passStore, passTrace.
  rewrite Hw, Hrun. cbn [negb].
  now destruct (checkAndSendReminderNotifications w _ (store p))
    as [[st' tr] c].
Qed.

Lemma startInvariant_step p a : startInvariant p -> startInvariant (step p a).
Proof.
  intros Hinv. destruct a as [w | trigger | w]; cbn [step].
  - destruct (has_window w) eqn:Hw.
    + destruct Hinv as [[Hrun Ht] | [Hrun Ht]].
      * rewrite (start_first w p Hw Hrun). right. cbn. now rewrite Ht.
      * unfold startReminderNotificationService. rewrite Hw, Hrun. cbn [negb].
        right. now split.
    + unfold startReminderNotificationService. rewrite Hw. cbn [negb].
      exact Hinv.
  - exact Hinv.
  - assert (Hfold : forall (l : list Timer) q,
              module_state (fold_left (fun q _ => runPass w q) l q)
              = module_state q
              /\ timers (fold_left (fun q _ => runPass w q) l q) = timers q).
    { induction l as [| t l IH]; intros q; cbn [fold_left]; [now split |].
      destruct (IH (runPass w q)) as [Hm Ht]. rewrite Hm, Ht.
      rewrite runPass_spec. now split. }
    destruct (Hfold (timers p) p) as [Hm Ht].
    unfold startInvariant. rewrite Hm, Ht. exact Hinv.
Qed.

Lemma startInvariant_run acts : forall p,
  startInvariant p -> startInvariant (run acts p).
Proof.
  unfold run. induction acts as [| a acts IH]; intros p Hinv; cbn [fold_left].
  - exact Hinv.
  - apply IH. now apply startInvariant_step.
Qed.

Lemma start_again w p :
  has_window w = true -> isServiceRunning (module_state p) = true ->
  startReminderNotificationService w p = p.
Proof.
  intros Hw Hrun. unfold startReminderNotificationService.
  now rewrite Hw, Hrun.
Qed.

Lemma starts_after_first ws : forall p,
  Forall (fun w => has_window w = true) ws ->
  isServiceRunning (module_state p) = true ->
  run (map Start ws) p = p.
Proof.
  unfold run. induction ws as [| w ws IH]; intros p Hall Hrun; cbn; [reflexivity |].
  inversion Hall as [| x xs Hw Hall']; subst.
  rewrite (start_again w p Hw Hrun). now apply IH.
Qed.

(** C6.  Starting the scheduler is idempotent.  In a browser, the call
    that finds the service stopped performs one evaluation pass at once
    and arms one interval of 30 seconds running the pass; a call that
    finds it running changes nothing.  So however often the start
    routine is called, and whatever else happens in between, at most one
    interval is ever armed, and each time it fires one pass runs. *)
Theorem C6_start_idempotent (st : Store) :
  (forall acts, (List.length (timers (run acts (initialProcess st))) <= 1)%nat)
  /\ (forall w p,
         has_window w = true -> isServiceRunning (module_state p) = false ->
         let p' := startReminderNotificationService w p in
         isServiceRunning (module_state p') = true
         /\ timers p' = timers p ++ [everyThirtySeconds]
         /\ passesInvoked (history p') = S (passesInvoked (history p)))
  /\ (forall w p,
         has_window w = true -> isServiceRunning (module_state p) = true ->
         startReminderNotificationService w p = p)
  /\ (forall w ws,
         has_window w = true -> Forall (fun w' => has_window w' = true) ws ->
         let p' := run (map Start (w :: ws)) (initialProcess st) in
         p' = startReminderNotificationService w (initialProcess st)
         /\ timers p' = [everyThirtySeconds]
         /\ passesInvoked (history p') = 1%nat)
  /\ (forall w p,
         timers p = [everyThirtySeconds] ->
         passesInvoked (history (step p (Tick w)))
         = S (passesInvoked (history p))).
Proof.
  split; [| split; [| split; [| split]]].
  - intros acts.
    assert (Hinv : startInvariant (run acts (initialProcess st))).
    { apply startInvariant_run. left. now split. }
    destruct Hinv as [[_ ->] | [_ ->]]; cbn; lia.
  - intros w p Hw Hrun p'. subst p'. rewrite (start_first w p Hw Hrun).
    cbn [module_state timers history isServiceRunning]. repeat split.
    rewrite passesInvoked_app, passesInvoked_pass. lia.
  - exact start_again.
  - intros w ws Hw Hall p'. subst p'. cbn [map run fold_left step].
    assert (Hfirst := start_first w (initialProcess st) Hw eq_refl).
    cbn zeta in Hfirst.
    fold (run (map Start ws)
              (startReminderNotificationService w (initialProcess st))).
    rewrite starts_after_first; [| assumption | now rewrite Hfirst].
    rewrite Hfirst.
    cbn [module_state timers history isServiceRunning initialProcess app].
    repeat split. apply passesInvoked_pass.
  - intros w p Ht. cbn [step]. rewrite Ht. cbn [fold_left].
    rewrite runPass_spec. cbn [history].
    rewrite passesInvoked_app, passesInvoked_pass. lia.
Qed.

Lemma C6_start_idempotent_witness :
  let p' := run (map Start [Sample.world; Sample.world; Sample.world])
                (initialProcess Sample.table) in
  p' = startReminderNotificationService Sample.world
         (initialProcess Sample.table)
  /\ timers p' = [everyThirtySeconds]
  /\ passesInvoked (history p') = 1%nat.
Proof.
  destruct (C6_start_idempotent Sample.table) as [_ [_ [_ [H _]]]].
  apply (H Sample.world [Sample.world; Sample.world]).
  - reflexivity.
  - repeat constructor.
Defined.

(* ------------------------------------------------------------------ *)
(** ** The dedup flag and the two channels                              *)
(* ------------------------------------------------------------------ *)

Lemma Occurs_trans l1 l2 l3 : Occurs l1 l2 -> Occurs l2 l3 -> Occurs l1 l3.
Proof.
  intros [a [b ->]] [c [d ->]]. exists (c ++ a), (b ++ d).
  now rewrite <- !app_assoc.
Qed.

Lemma Occurs_prefix l rest : Occurs l (l ++ rest).
Proof. exists [], rest. reflexivity. Qed.

(** Under [Reached], an update with the id of [r] is the update the
    inner loop issues for [r] itself. *)
Lemma pass_update_owner w m st p r q r' res :
  Reached w st p r ->
  In (OnBehalf q r' (UpdateNotificationSent (Reminder.id r) res))
     (passTrace w m st) ->
  q = p /\ r' = r.
Proof.
  intros [Hw Hc Hps Hrej Hpk Hrk Hp En Sel Hin Hown Hdue] Hev.
  apply passTrace_on_behalf in Hev.
  destruct Hev as [Hq [_ [_ [Hr' [Hown' [_ Hev]]]]]].
  apply reminderEvents_update in Hev. destruct Hev as [Hid _].
  assert (r' = r) as ->
    by (apply (NoDup_map_eq Reminder.id st); auto).
  split; [| reflexivity].
  apply (NoDup_map_eq Profile.id (profilesWithEmail w)); auto.
  congruence.
Qed.

Lemma Reached_unsent w st p r :
  Reached w st p r -> Reminder.notification_sent r = false.
Proof.
  intros H. pose proof (reached_due _ _ _ _ H) as Hdue.
  unfold dueFilter in Hdue.
  destruct (Reminder.notification_sent r); [| reflexivity].
  now rewrite orb_true_r in Hdue.
Qed.


(** With ids the primary key, the row of a marked id is the marked
    copy of the row it was. *)
Lemma markAll_row ids st r r' :
  NoDup (map Reminder.id st) -> In r st -> In (Reminder.id r) ids ->
  In r' (markAll ids st) -> Reminder.id r' = Reminder.id r ->
  r' = setSent r.
Proof.
  intros Hkeys Hin Hid Hin' Heq. unfold markAll in Hin'.
  apply in_map_iff in Hin'. destruct Hin' as [r0 [Hr' Hr0]].
  assert (r0 = r) as ->.
  { apply (NoDup_map_eq Reminder.id st); auto.
    rewrite <- Heq, <- Hr'.
    now destruct (mem (Reminder.id r0) ids). }
  apply mem_In in Hid. rewrite Hid in Hr'. now symmetry.
Qed.

(** C4.  With the email preference false and the browser preference
    true, the pass calls the browser channel for every due reminder it
    gets to and then, whatever that call displayed, issues the update
    that sets [notification_sent]; no email call is made.  The flag of
    the reminder was false; when the update succeeds the row with its id
    has [notification_sent = true] in the table after the pass and is
    otherwise as it was, and when the update does not succeed the row is
    left as it was. *)
Theorem C4_browser_only_marks_unconditionally (w : World) (m : ServiceModule)
    (st : Store) (p : Profile.t) (r : Reminder.t) :
  Reached w st p r ->
  emailNotificationsEnabled p = false ->
  browserNotificationsEnabled p = true ->
  let t := String.append "Reminder: " (Reminder.title r) in
  let b := orElse (Reminder.description r) "You have a reminder due now" in
  Occurs [OnBehalf p r (ShowBrowserNotification t b
                          (showBrowserNotification w m t b));
          OnBehalf p r (UpdateNotificationSent (Reminder.id r)
                          (reminders_update w (Reminder.id r)))]
         (passTrace w m st)
  /\ (forall c, In (OnBehalf p r c) (passTrace w m st) ->
                match c with
                | SendReminderNotification _ _ _ _ _ _ => False
                | _ => True
                end)
  /\ (reminders_update w (Reminder.id r) = Succeeds ->
      In (setSent r) (passStore w m st))
  /\ Reminder.notification_sent r = false
  /\ (reminders_update w (Reminder.id r) = Succeeds ->
      (exists r', In r' (passStore w m st)
                  /\ Reminder.id r' = Reminder.id r
                  /\ Reminder.notification_sent r' = true)
      /\ (forall r', In r' (passStore w m st) ->
                     Reminder.id r' = Reminder.id r ->
                     Reminder.notification_sent r' = true
                     /\ Reminder.is_completed r' = Reminder.is_completed r
                     /\ Reminder.due_date r' = Reminder.due_date r
                     /\ Reminder.user_id r' = Reminder.user_id r
                     /\ Reminder.title r' = Reminder.title r
                     /\ Reminder.description r' = Reminder.description r
                     /\ Reminder.reminder_type r' = Reminder.reminder_type r))
  /\ (reminders_update w (Reminder.id r) <> Succeeds ->
      In r (passStore w m st)
      /\ forall r', In r' (passStore w m st) ->
                    Reminder.id r' = Reminder.id r -> r' = r).
Proof.
  intros Hreach He Hb t b.
  pose proof (pass_reaches w m st p r Hreach) as Hocc.
  assert (Hshape : exists rest,
    reminderEvents w m p r =
    [OnBehalf p r (ShowBrowserNotification t b
                     (showBrowserNotification w m t b));
     OnBehalf p r (UpdateNotificationSent (Reminder.id r)
                     (reminders_update w (Reminder.id r)))] ++ rest).
  { unfold reminderEvents, notifyReminder, deliver, updateAndLog.
    rewrite He, Hb.
    destruct (reminders_update w (Reminder.id r)); cbn; eexists; reflexivity. }
  destruct Hshape as [rest Hshape].
  pose proof (reached_row _ _ _ _ Hreach) as Hrow.
  pose proof (reached_reminder_keys _ _ _ _ Hreach) as Hkeys.
  assert (Hmarked : reminders_update w (Reminder.id r) = Succeeds ->
                    In (Reminder.id r) (updatedIds (passTrace w m st))).
  { intros Hup. apply updatedIds_In. exists p, r.
    eapply Occurs_In; [exact Hocc |].
    rewrite Hshape, Hup. right. now left. }
  assert (Hunmarked : reminders_update w (Reminder.id r) <> Succeeds ->
                      ~ In (Reminder.id r) (updatedIds (passTrace w m st))).
  { intros Hup Hid. apply updatedIds_In in Hid.
    destruct Hid as [q [r' Hev]].
    apply passTrace_on_behalf in Hev.
    destruct Hev as [_ [_ [_ [_ [_ [_ Hev]]]]]].
    apply reminderEvents_update in Hev. destruct Hev as [Hid [Hres _]].
    apply Hup. now rewrite Hid, <- Hres. }
  split; [| split; [| split; [| split; [| split]]]].
  - eapply Occurs_trans; [| exact Hocc]. rewrite Hshape. apply Occurs_prefix.
  - intros c Hev. apply passTrace_on_behalf in Hev.
    destruct Hev as [_ [_ [_ [_ [_ [_ Hev]]]]]].
    revert Hev. unfold reminderEvents, notifyReminder, deliver, updateAndLog.
    rewrite He, Hb.
    destruct (reminders_update w (Reminder.id r)); cbn; intros Hev;
      repeat (destruct Hev as [Hev | Hev];
              [first [discriminate Hev | now inversion Hev] |]);
      contradiction.
  - intros Hup. rewrite passStore_spec.
    apply markAll_marks; [exact Hrow | exact (Hmarked Hup)].
  - exact (Reached_unsent _ _ _ _ Hreach).
  - intros Hup. split.
    + exists (setSent r). split; [| split; reflexivity].
      rewrite passStore_spec.
      apply markAll_marks; [exact Hrow | exact (Hmarked Hup)].
    + intros r' Hin Hid. rewrite passStore_spec in Hin.
      rewrite (markAll_row _ st r r' Hkeys Hrow (Hmarked Hup) Hin Hid).
      repeat split.
  - intros Hup. split.
    + rewrite passStore_spec.
      apply markAll_keeps; [exact Hrow | exact (Hunmarked Hup)].
    + intros r' Hin Hid. rewrite passStore_spec in Hin.
      unfold markAll in Hin. apply in_map_iff in Hin.
      destruct Hin as [r0 [Hr' Hr0]].
      assert (r0 = r) as ->.
      { apply (NoDup_map_eq Reminder.id st); auto.
        rewrite <- Hid, <- Hr'.
        now destruct (mem (Reminder.id r0) (updatedIds (passTrace w m st))). }
      destruct (mem (Reminder.id r) (updatedIds (passTrace w m st))) eqn:E.
      * apply mem_In in E. now elim (Hunmarked Hup).
      * now symmetry.
Qed.

Lemma Sample_world_reaches (r : Reminder.t) (p : Profile.t) (t : Z)
    (route : Reminder.t -> http_outcome) (st : Store) :
  NoDup (map Reminder.id st) ->
  In p [Sample.alice; Sample.bob] -> In r st ->
  Reminder.user_id r = Profile.id p ->
  dueFilter (JS.new_Date (JS.Num t)) r = true ->
  Reached (Sample.withClock t (Sample.withMail route Sample.world)) st p r.
Proof.
  intros Hnd Hp Hr Hown Hdue. constructor; try reflexivity; try assumption.
  - intros q _. discriminate.
  - cbn. repeat constructor; cbn; intuition discriminate.
  - cbn. destruct Hp as [<- | [<- | []]]; auto.
  - destruct Hp as [<- | [<- | []]]; reflexivity.
Qed.

Lemma C4_browser_only_marks_unconditionally_witness :
  Reminder.notification_sent Sample.rb = false
  /\ In (setSent Sample.rb)
        (passStore (Sample.withClock (Sample.T + 60000)
                      (Sample.withMail (fun _ => Responds 200 true)
                         Sample.world))
                   Sample.registered Sample.table)
  /\ exists r',
       In r' (passStore (Sample.withClock (Sample.T + 60000)
                           (Sample.withMail (fun _ => Responds 200 true)
                              Sample.world))
                        Sample.registered Sample.table)
       /\ Reminder.id r' = Reminder.id Sample.rb
       /\ Reminder.notification_sent r' = true.
Proof.
  assert (Hreach : Reached (Sample.withClock (Sample.T + 60000)
                              (Sample.withMail (fun _ => Responds 200 true)
                                 Sample.world))
                           Sample.table Sample.bob Sample.rb).
  { apply Sample_world_reaches;
      [exact Sample_table_keys | right; now left | right; now left
      | reflexivity | reflexivity]. }
  destruct (C4_browser_only_marks_unconditionally _ Sample.registered _ _ _
              Hreach eq_refl eq_refl) as [_ [_ [Hmark [Hwas [Hflag _]]]]].
  split; [exact Hwas |]. split; [exact (Hmark eq_refl) |].
  exact (proj1 (Hflag eq_refl)).
Defined.

Lemma reminderEvents_email w m p r :
  emailNotificationsEnabled p = true ->
  In (OnBehalf p r
        (SendReminderNotification (Profile.email p)
           (firstNameOf (Profile.full_name p)) (Reminder.title r)
           (orElse (Reminder.description r) EmptyString) (Reminder.due_date r)
           (sendReminderNotification w r)))
     (reminderEvents w m p r)
  /\ (sendReminderNotification w r = true ->
      In (OnBehalf p r (UpdateNotificationSent (Reminder.id r)
                          (reminders_update w (Reminder.id r))))
         (reminderEvents w m p r)).
Proof.
  intros He. unfold reminderEvents, notifyReminder, deliver, updateAndLog.
  rewrite He.
  destruct (browserNotificationsEnabled p), (sendReminderNotification w r),
    (reminders_update w (Reminder.id r));
    cbn; (split; [tauto | first [discriminate | tauto]]).
Qed.

Lemma Reached_after w m st w2 p r :
  Reached w2 st p r -> In r (passStore w m st) ->
  Reached w2 (passStore w m st) p r.
Proof.
  intros [Hw Hc Hps Hrej Hpk Hrk Hp En Sel Hin Hown Hdue] Hrow.
  constructor; try assumption.
  now rewrite passStore_spec, markAll_ids.
Qed.



(* ------------------------------------------------------------------ *)
(** ** Failures                                                         *)
(* ------------------------------------------------------------------ *)












(** A reminder select that rejects: the pass ends there, and the due
    reminder of the next profile is not processed in that pass. *)
Example sample_rejected_select :
  passTrace Sample.aliceSelectRejects Sample.registered Sample.table
  = [PassInvoked; SelectProfiles Succeeds;
     SelectReminders Sample.alice Throws; Console ErrInPass]
  /\ passStore Sample.aliceSelectRejects Sample.registered Sample.table
     = Sample.table.
Proof. split; reflexivity. Qed.

(* ------------------------------------------------------------------ *)
(** ** Who writes the dedup flag                                        *)
(* ------------------------------------------------------------------ *)

Lemma OnlyMarks_refl st : OnlyMarks st st.
Proof. induction st; constructor; auto. Qed.

Lemma OnlyMarks_trans st1 st2 st3 :
  OnlyMarks st1 st2 -> OnlyMarks st2 st3 -> OnlyMarks st1 st3.
Proof.
  unfold OnlyMarks. intros H12. revert st3.
  induction H12 as [| a b l1 l2 Hab _ IH]; intros st3 H23;
    inversion H23 as [| b' c l2' l3 Hbc H23']; subst; constructor.
  - destruct Hab as [-> | ->], Hbc as [-> | ->]; auto.
  - now apply IH.
Qed.

Lemma markSent_OnlyMarks id st : OnlyMarks st (markSent id st).
Proof. rewrite markSent_markAll. apply markAll_OnlyMarks. Qed.

Lemma checkEach_OnlyMarks w rs : forall st,
  OnlyMarks st (fst (fst (checkEach w st rs))).
Proof.
  induction rs as [| r rest IH]; intros st; cbn [checkEach].
  - apply OnlyMarks_refl.
  - destruct (dueWithinTenMinutes (now w) (Reminder.due_date r)); [| apply IH].
    destruct (reminders_update w (Reminder.id r)).
    + pose proof (IH (markSent (Reminder.id r) st)) as H.
      destruct (checkEach w (markSent (Reminder.id r) st) rest) as [[st' tr] c].
      cbn [fst] in *. eapply OnlyMarks_trans; [apply markSent_OnlyMarks | exact H].
    + pose proof (IH st) as H.
      destruct (checkEach w st rest) as [[st' tr] c]. exact H.
    + apply OnlyMarks_refl.
Qed.

Lemma checkEach_on_behalf w rs : forall st r c,
  In (CtxOnBehalf r c) (snd (fst (checkEach w st rs))) ->
  In r rs /\ dueWithinTenMinutes (now w) (Reminder.due_date r) = true.
Proof.
  induction rs as [| r0 rest IH]; intros st r c; cbn [checkEach].
  - intros [].
  - destruct (dueWithinTenMinutes (now w) (Reminder.due_date r0)) eqn:Hdue.
    + destruct (reminders_update w (Reminder.id r0)).
      * pose proof (IH (markSent (Reminder.id r0) st) r c) as H.
        destruct (checkEach w (markSent (Reminder.id r0) st) rest)
          as [[st' tr] c'].
        cbn [fst snd In] in *.
        intros [Hev | [Hev | Hev]];
          [inversion Hev; subst; split; [now left | assumption]
          | inversion Hev; subst; split; [now left | assumption] |].
        destruct (H Hev). split; [now right | assumption].
      * pose proof (IH st r c) as H.
        destruct (checkEach w st rest) as [[st' tr] c'].
        cbn [fst snd In] in *.
        intros [Hev | [Hev | Hev]];
          [inversion Hev; subst; split; [now left | assumption]
          | inversion Hev; subst; split; [now left | assumption] |].
        destruct (H Hev). split; [now right | assumption].
      * cbn [fst snd In].
        intros [Hev | [Hev | []]]; inversion Hev; subst;
          (split; [now left | assumption]).
    + intros Hev. destruct (IH st r c Hev). split; [now right | assumption].
Qed.

Lemma pendingOf_In uid st r :
  In r (pendingOf uid st) ->
  In r st /\ Reminder.user_id r = uid
  /\ Reminder.is_completed r = false /\ Reminder.notification_sent r = false.
Proof.
  unfold pendingOf. rewrite filter_In, !andb_true_iff, String.eqb_eq.
  intros [Hin [[Hu Hc] Hs]].
  destruct (Reminder.is_completed r), (Reminder.notification_sent r);
    try discriminate. auto.
Qed.

Lemma reminderEvents_one_update w m p r :
  (List.length (filter isUpdate (reminderEvents w m p r)) <= 1)%nat.
Proof.
  unfold reminderEvents, notifyReminder, deliver, updateAndLog.
  destruct (browserNotificationsEnabled p), (emailNotificationsEnabled p),
    (sendReminderNotification w r), (reminders_update w (Reminder.id r));
    cbn; lia.
Qed.

Lemma updatesFor_app id t1 t2 :
  updatesFor id (t1 ++ t2) = (updatesFor id t1 + updatesFor id t2)%nat.
Proof. unfold updatesFor. now rewrite filter_app, length_app. Qed.

Lemma reminderEvents_updatesFor w m p r id :
  (updatesFor id (reminderEvents w m p r) <= 1)%nat
  /\ (Reminder.id r <> id -> updatesFor id (reminderEvents w m p r) = 0%nat).
Proof.
  unfold reminderEvents, notifyReminder, deliver, updateAndLog, updatesFor.
  destruct (browserNotificationsEnabled p), (emailNotificationsEnabled p),
    (sendReminderNotification w r), (reminders_update w (Reminder.id r));
    cbn; destruct (String.eqb_spec (Reminder.id r) id);
    cbn; (split; [lia | intros Hne; first [reflexivity | contradiction]]).
Qed.

Lemma NoDup_map_filter {A B : Type} (f : A -> B) (g : A -> bool) (l : list A) :
  NoDup (map f l) -> NoDup (map f (filter g l)).
Proof.
  induction l as [| a l IH]; cbn; intros Hnd; [constructor |].
  inversion Hnd as [| x xs Hfresh Hnd']; subst.
  destruct (g a); cbn; [| now apply IH].
  constructor; [| now apply IH].
  intros Hin. apply Hfresh. apply in_map_iff in Hin.
  destruct Hin as [b [Hb Hin]]. apply filter_In in Hin.
  rewrite <- Hb. apply in_map. tauto.
Qed.

Lemma flat_map_updatesFor w m p id due :
  NoDup (map Reminder.id due) ->
  (updatesFor id (flat_map (reminderEvents w m p) due) <= 1)%nat
  /\ ((forall r, In r due -> Reminder.id r <> id) ->
      updatesFor id (flat_map (reminderEvents w m p) due) = 0%nat).
Proof.
  induction due as [| r rest IH]; cbn [flat_map map]; intros Hnd.
  - split; [cbn; lia | reflexivity].
  - inversion Hnd as [| x xs Hfresh Hnd']; subst.
    destruct (IH Hnd') as [IH1 IH0].
    destruct (reminderEvents_updatesFor w m p r id) as [H1 H0].
    rewrite updatesFor_app. split.
    + destruct (String.eqb_spec (Reminder.id r) id) as [Heq | Hne].
      * rewrite IH0; [lia |].
        intros r' Hr' Hid. apply Hfresh. rewrite Heq, <- Hid.
        now apply in_map.
      * rewrite (H0 Hne). lia.
    + intros Hall. rewrite H0 by (apply Hall; now left).
      rewrite IH0; [reflexivity |]. intros r' Hr'. apply Hall. now right.
Qed.

Lemma ownsId_false uid id st r :
  ownsId uid id st = false -> In r st -> Reminder.user_id r = uid ->
  Reminder.id r <> id.
Proof.
  unfold ownsId. intros Hno Hin Hu Hid.
  assert (Hyes : existsb (fun r => String.eqb (Reminder.user_id r) uid
                                   && String.eqb (Reminder.id r) id) st = true).
  { apply existsb_exists. exists r. split; [exact Hin |].
    rewrite Hu, Hid, !String.eqb_refl. reflexivity. }
  congruence.
Qed.

Lemma ownsId_true uid id st :
  ownsId uid id st = true ->
  exists r, In r st /\ Reminder.user_id r = uid /\ Reminder.id r = id.
Proof.
  unfold ownsId. rewrite existsb_exists. intros [r [Hin Hr]].
  apply andb_true_iff in Hr. rewrite !String.eqb_eq in Hr.
  exists r. tauto.
Qed.

Lemma ownsId_markAll uid id ids st :
  ownsId uid id (markAll ids st) = ownsId uid id st.
Proof.
  unfold ownsId, markAll. induction st as [| r st IH]; cbn; [reflexivity |].
  rewrite IH. now destruct (mem (Reminder.id r) ids).
Qed.

Lemma profileEvents_updatesFor w m st p id :
  NoDup (map Reminder.id st) ->
  (updatesFor id (profileEvents w m st p) <= 1)%nat
  /\ (ownsId (Profile.id p) id st = false ->
      updatesFor id (profileEvents w m st p) = 0%nat).
Proof.
  intros Hnd. unfold profileEvents.
  destruct (enabled p); [| split; [cbn; lia | reflexivity]].
  destruct (reminders_select w (Profile.id p));
    try (split; [cbn; lia | reflexivity]).
  assert (Hdue : NoDup (map Reminder.id
                          (filter (dueFilter (now w))
                                  (remindersOf (Profile.id p) st)))).
  { apply NoDup_map_filter. unfold remindersOf. now apply NoDup_map_filter. }
  destruct (flat_map_updatesFor w m p id _ Hdue) as [H1 H0].
  change (SelectReminders p Succeeds
            :: flat_map (reminderEvents w m p)
                 (filter (dueFilter (now w)) (remindersOf (Profile.id p) st)))
    with ([SelectReminders p Succeeds]
            ++ flat_map (reminderEvents w m p)
                 (filter (dueFilter (now w)) (remindersOf (Profile.id p) st))).
  rewrite updatesFor_app. cbn [updatesFor filter isUpdateOf List.length plus].
  split; [exact H1 |].
  intros Hno. apply H0. intros r Hr.
  apply filter_In in Hr. destruct Hr as [Hr _].
  apply remindersOf_In in Hr. destruct Hr as [Hin Hu].
  eapply ownsId_false; eassumption.
Qed.

Lemma loopEvents_updatesFor_none w m id ps : forall st,
  NoDup (map Reminder.id st) ->
  (forall q, In q ps -> ownsId (Profile.id q) id st = false) ->
  updatesFor id (loopEvents w m st ps) = 0%nat.
Proof.
  induction ps as [| p rest IH]; intros st Hnd Hnone; cbn [loopEvents];
    [reflexivity |].
  destruct (profileEvents_updatesFor w m st p id Hnd) as [_ H0].
  specialize (H0 (Hnone p (or_introl eq_refl))).
  destruct (profileCompletion w p); [| exact H0].
  rewrite updatesFor_app, H0. cbn [plus].
  apply IH.
  - now rewrite markAll_ids.
  - intros q Hq. rewrite ownsId_markAll. apply Hnone. now right.
Qed.

Lemma loopEvents_updatesFor w m id ps : forall st,
  NoDup (map Reminder.id st) -> NoDup (map Profile.id ps) ->
  (updatesFor id (loopEvents w m st ps) <= 1)%nat.
Proof.
  induction ps as [| p rest IH]; intros st Hnd Hps; cbn [loopEvents];
    [cbn; lia |].
  inversion Hps as [| x xs Hfresh Hps']; subst.
  destruct (profileEvents_updatesFor w m st p id Hnd) as [H1 H0].
  destruct (profileCompletion w p); [| exact H1].
  rewrite updatesFor_app.
  destruct (ownsId (Profile.id p) id st) eqn:Hown.
  - rewrite loopEvents_updatesFor_none; [lia | now rewrite markAll_ids |].
    intros q Hq. rewrite ownsId_markAll.
    destruct (ownsId (Profile.id q) id st) eqn:Hq'; [| reflexivity].
    exfalso. apply ownsId_true in Hown. apply ownsId_true in Hq'.
    destruct Hown as [r [Hr [Hu Hid]]]. destruct Hq' as [r' [Hr' [Hu' Hid']]].
    assert (r' = r)
      by (apply (NoDup_map_eq Reminder.id st); auto; congruence).
    subst r'. apply Hfresh. rewrite <- Hu, Hu'. now apply in_map.
  - rewrite (H0 eq_refl). cbn [plus]. apply IH; [| exact Hps'].
    now rewrite markAll_ids.
Qed.

(** Under primary keys, a pass issues at most one update per reminder. *)
Lemma passTrace_updatesFor w m st id :
  NoDup (map Reminder.id st) ->
  NoDup (map Profile.id (profilesWithEmail w)) ->
  (updatesFor id (passTrace w m st) <= 1)%nat.
Proof.
  intros Hnd Hps. rewrite passTrace_unfold.
  destruct (has_window w); cbn [negb]; [| cbn; lia].
  destruct (supabase_ready w); cbn [negb]; [| cbn; lia].
  destruct (profiles_select w); try (cbn; lia).
  destruct (profilesWithEmail w) as [| p0 ps]; [cbn; lia |].
  change (PassInvoked :: SelectProfiles Succeeds
            :: loopEvents w m st (p0 :: ps)
            ++ match loopCompletion w (p0 :: ps) with
               | Normal => []
               | Abrupt => [Console ErrInPass]
               end)
    with ([PassInvoked; SelectProfiles Succeeds]
            ++ loopEvents w m st (p0 :: ps)
            ++ match loopCompletion w (p0 :: ps) with
               | Normal => []
               | Abrupt => [Console ErrInPass]
               end).
  rewrite !updatesFor_app.
  pose proof (loopEvents_updatesFor w m id (p0 :: ps) st Hnd Hps) as H.
  destruct (loopCompletion w (p0 :: ps)); cbn in *; lia.
Qed.

(** C2, as the code has it.  Two components write [notification_sent]:
    the scheduler's evaluation pass and the [checkReminders] poller of
    the notification provider, which also shows an in-app reminder
    notification.  Either only ever sets the flag: a table changes by
    rows getting marked and in no other way, so the flag of a row is
    mutated at most once.  The pass issues an update only for a row that
    passed its filter (not completed, flag false, inside the two-minute
    window), at most one per iteration of its inner loop and, ids being
    primary keys, at most one per reminder in a pass; the poller acts
    only on rows of its user that are not completed, have the flag
    false and fall due within the next ten minutes. *)
Theorem C2_flag_writers (w : World) (m : ServiceModule) (st : Store) :
  OnlyMarks st (passStore w m st)
  /\ (forall p r id res,
         In (OnBehalf p r (UpdateNotificationSent id res)) (passTrace w m st) ->
         id = Reminder.id r /\ In r st /\ dueFilter (now w) r = true)
  /\ (forall p r,
         (List.length (filter isUpdate (reminderEvents w m p r)) <= 1)%nat)
  /\ (NoDup (map Reminder.id st) ->
      NoDup (map Profile.id (profilesWithEmail w)) ->
      forall id, (updatesFor id (passTrace w m st) <= 1)%nat)
  /\ (forall user, OnlyMarks st (providerStore w user st))
  /\ (forall user r c,
         In (CtxOnBehalf r c) (providerTrace w user st) ->
         In r st /\ Reminder.user_id r = user
         /\ Reminder.is_completed r = false
         /\ Reminder.notification_sent r = false
         /\ dueWithinTenMinutes (now w) (Reminder.due_date r) = true).
Proof.
  split; [| split; [| split; [| split; [| split]]]].
  - rewrite passStore_spec. apply markAll_OnlyMarks.
  - intros p r id res Hev. apply passTrace_on_behalf in Hev.
    destruct Hev as [_ [_ [_ [Hin [_ [Hdue Hev]]]]]].
    apply reminderEvents_update in Hev. destruct Hev as [-> _]. auto.
  - intros p r. apply reminderEvents_one_update.
  - intros Hnd Hps id. now apply passTrace_updatesFor.
  - intros user. unfold providerStore, checkReminders.
    destruct (reminders_select w user); try apply OnlyMarks_refl.
    pose proof (checkEach_OnlyMarks w (pendingOf user st) st) as H.
    destruct (checkEach w st (pendingOf user st)) as [[st' tr] c].
    now destruct c.
  - intros user r c. unfold providerTrace, checkReminders.
    destruct (reminders_select w user);
      try (cbn; intros [H | [H | []]]; discriminate H).
    pose proof (checkEach_on_behalf w (pendingOf user st) st r c) as H.
    destruct (checkEach w st (pendingOf user st)) as [[st' tr] c'].
    cbn [fst snd] in H.
    intros Hev.
    assert (Hin : In (CtxOnBehalf r c) tr).
    { destruct c'; cbn [fst snd] in Hev.
      - destruct Hev as [Hev | Hev]; [discriminate Hev | exact Hev].
      - destruct Hev as [Hev | Hev]; [discriminate Hev |].
        apply in_app_or in Hev. destruct Hev as [Hev | [Hev | []]];
          [exact Hev | discriminate Hev]. }
    destruct (H Hin) as [Hpending Hdue].
    apply pendingOf_In in Hpending. tauto.
Qed.

Lemma C2_flag_writers_witness :
  In Sample.rsoon [Sample.rsoon]
  /\ Reminder.user_id Sample.rsoon = "alice"
  /\ Reminder.is_completed Sample.rsoon = false
  /\ Reminder.notification_sent Sample.rsoon = false
  /\ dueWithinTenMinutes (now Sample.world) (Reminder.due_date Sample.rsoon)
     = true.
Proof.
  destruct (C2_flag_writers Sample.world Sample.registered [Sample.rsoon])
    as [_ [_ [_ [_ [_ Hpoller]]]]].
  apply (Hpoller "alice" Sample.rsoon
           (UpdateNotificationSent "rsoon" Succeeds)).
  cbn. right. right. now left.
Defined.

(** C2, as stated, fails: the provider's poller, not the scheduler,
    shows a reminder notification and sets [notification_sent] for a
    reminder that falls due in five minutes, which the scheduler's pass
    at the same instant does not treat as due. *)
Lemma C2_counterexample_provider_also_writes :
  checkReminders Sample.world "alice" [Sample.rsoon]
  = ([setSent Sample.rsoon],
     [CtxSelect "alice" Succeeds;
      CtxOnBehalf Sample.rsoon
        (AddNotification "Reminder (personal)" "Task rsoon" "reminder"
           [FeedEntry "Reminder (personal)" "Task rsoon" "reminder";
            SystemNotification "Reminder (personal)" "Task rsoon"
              "/favicon.ico"]);
      CtxOnBehalf Sample.rsoon (UpdateNotificationSent "rsoon" Succeeds)],
     Normal)
  /\ dueFilter (now Sample.world) Sample.rsoon = false
  /\ passStore Sample.world Sample.registered [Sample.rsoon] = [Sample.rsoon]
  /\ ~ (forall w user st r id res,
          ~ In (CtxOnBehalf r (UpdateNotificationSent id res))
               (providerTrace w user st)).
Proof.
  split; [reflexivity |]. split; [reflexivity |]. split; [reflexivity |].
  intros H.
  apply (H Sample.world "alice" [Sample.rsoon] Sample.rsoon "rsoon" Succeeds).
  cbn. right. right. now left.
Qed.

(* ================================================================== *)
(** * Further properties of the surrounding code                        *)
(* ================================================================== *)

(* ------------------------------------------------------------------ *)
(** ** The notification feed                                            *)
(* ------------------------------------------------------------------ *)

Lemma Feed_unread_setRead (ns : list Feed.Notification) :
  Feed.unread (map Feed.setRead ns) = [].
Proof. unfold Feed.unread. induction ns as [| n ns IH]; cbn; auto. Qed.

(** X1.  After [markAllAsRead] the unread count is zero and the toast
    shows nothing; the notifications stay, in the same order, with their
    ids. *)
Theorem X1_markAllAsRead_clears_unread (ns : list Feed.Notification) :
  Feed.unreadCount (Feed.markAllAsRead ns) = 0%nat
  /\ Feed.visibleNotifications (Feed.markAllAsRead ns) = []
  /\ map Feed.id (Feed.markAllAsRead ns) = map Feed.id ns.
Proof.
  unfold Feed.unreadCount, Feed.visibleNotifications, Feed.markAllAsRead.
  rewrite Feed_unread_setRead. repeat split.
  rewrite map_map. apply map_ext. reflexivity.
Qed.

Lemma Feed_markAsRead_absent i ns :
  ~ In i (map Feed.id ns) -> Feed.markAsRead i ns = ns.
Proof.
  unfold Feed.markAsRead. induction ns as [| n ns IH]; cbn; intros H.
  - reflexivity.
  - destruct (String.eqb_spec (Feed.id n) i) as [Heq | Hne].
    + exfalso. apply H. now left.
    + f_equal. apply IH. intros Hin. apply H. now right.
Qed.

(** X2.  [markAsRead] lowers the unread count by the number of unread
    notifications that carry the id, keeps every notification in place
    with its id, is idempotent, and changes nothing when no notification
    carries the id. *)
Theorem X2_markAsRead_accounting (i : string) (ns : list Feed.Notification) :
  (Feed.unreadCount (Feed.markAsRead i ns) + Feed.unreadWithId i ns
   = Feed.unreadCount ns)%nat
  /\ map Feed.id (Feed.markAsRead i ns) = map Feed.id ns
  /\ Feed.markAsRead i (Feed.markAsRead i ns) = Feed.markAsRead i ns
  /\ (~ In i (map Feed.id ns) -> Feed.markAsRead i ns = ns).
Proof.
  split; [| split; [| split]].
  - unfold Feed.unreadCount, Feed.unreadWithId, Feed.unread, Feed.markAsRead.
    induction ns as [| n ns IH]; [reflexivity |].
    cbn [map filter].
    destruct (String.eqb (Feed.id n) i) eqn:Hid;
      destruct (Feed.read n) eqn:Hr; cbn [Feed.setRead Feed.read negb andb];
      rewrite ?Hr; cbn [negb andb List.length]; lia.
  - unfold Feed.markAsRead. rewrite map_map. apply map_ext. intros n.
    now destruct (String.eqb (Feed.id n) i).
  - unfold Feed.markAsRead. rewrite map_map. apply map_ext. intros n.
    destruct (String.eqb (Feed.id n) i) eqn:Hid; cbn; now rewrite Hid.
  - apply Feed_markAsRead_absent.
Qed.

Lemma X2_markAsRead_accounting_witness :
  Feed.markAsRead "zz"
    [Feed.mk "n1" "Reminder: Task" "due" "reminder" None 0 false]
  = [Feed.mk "n1" "Reminder: Task" "due" "reminder" None 0 false].
Proof.
  apply (X2_markAsRead_accounting "zz"
           [Feed.mk "n1" "Reminder: Task" "due" "reminder" None 0 false]).
  cbn. intros [H | []]. discriminate H.
Defined.

(** X3.  A notification added under an id no other notification carries
    raises the unread count by one and is what the toast shows; marking
    it read marks it alone, and the toast shows again what it showed
    before. *)
Theorem X3_add_then_read (newId title message type : string)
    (teamId : option string) (now : Z) (ns : list Feed.Notification) :
  ~ In newId (map Feed.id ns) ->
  let added := Feed.addNotification newId now title message type teamId ns in
  let n := Feed.mk newId title message type teamId now false in
  Feed.unreadCount added = S (Feed.unreadCount ns)
  /\ Feed.visibleNotifications added = [n]
  /\ Feed.markAsRead newId added = Feed.setRead n :: ns
  /\ Feed.visibleNotifications (Feed.markAsRead newId added)
     = Feed.visibleNotifications ns.
Proof.
  intros Hfresh added n. subst added n.
  assert (Hread : Feed.markAsRead newId
                    (Feed.addNotification newId now title message type
                       teamId ns)
                  = Feed.setRead
                      (Feed.mk newId title message type teamId now false)
                    :: ns).
  { unfold Feed.addNotification. cbn [Feed.markAsRead map Feed.id].
    rewrite String.eqb_refl. f_equal.
    now apply Feed_markAsRead_absent. }
  split; [reflexivity |]. split; [reflexivity |]. split; [exact Hread |].
  rewrite Hread. reflexivity.
Qed.

Lemma X3_add_then_read_witness :
  Feed.visibleNotifications
    (Feed.markAsRead "n2"
       (Feed.addNotification "n2" 5 "New message" "hello" "chat" (Some "t1")
          [Feed.mk "n1" "Reminder: Task" "due" "reminder" None 0 false]))
  = Feed.visibleNotifications
      [Feed.mk "n1" "Reminder: Task" "due" "reminder" None 0 false].
Proof.
  apply (X3_add_then_read "n2" "New message" "hello" "chat" (Some "t1") 5
           [Feed.mk "n1" "Reminder: Task" "due" "reminder" None 0 false]).
  cbn. intros [H | []]. discriminate H.
Defined.

(* ------------------------------------------------------------------ *)
(** ** Team messages                                                    *)
(* ------------------------------------------------------------------ *)

Lemma findTeam_none_match team_id teams :
  Forall (fun t => matchesTeam team_id t = Some false) teams ->
  findTeam team_id teams = Some JS.Undefined.
Proof.
  induction 1 as [| t rest Ht _ IH]; cbn; [reflexivity |].
  now rewrite Ht.
Qed.

Lemma findTeam_after team_id pre t post :
  Forall (fun t => matchesTeam team_id t = Some false) pre ->
  findTeam team_id (pre ++ t :: post) =
  match matchesTeam team_id t with
  | None => None
  | Some true => Some t
  | Some false => findTeam team_id post
  end.
Proof.
  induction 1 as [| x rest Hx _ IH]; cbn; [reflexivity |].
  now rewrite Hx.
Qed.

(** X4.  A team message of the user's own never notifies; any other
    yields one chat notification that carries the message text and the
    team id.  The team name is the [name] of the first stored team whose
    [id] is the message's team id; it is "your team" when the storage
    cannot be read, holds no or an empty item, holds text that does not
    parse or does not parse to an array, when no stored team has the id,
    and when a [null] entry precedes the team in the array. *)
Theorem X4_team_message_notification (user_id msg_team_id msg_text : string) :
  (forall storage,
      onTeamMessage user_id storage user_id msg_team_id msg_text = None)
  /\ (forall storage sender,
         sender <> user_id ->
         onTeamMessage user_id storage sender msg_team_id msg_text
         = Some {| chat_team_name := teamNameFor storage msg_team_id;
                   chat_message := msg_text;
                   chat_type := "chat";
                   chat_teamId := msg_team_id |})
  /\ teamNameFor GetItemThrows msg_team_id = yourTeam
  /\ teamNameFor NoItem msg_team_id = yourTeam
  /\ (forall parsed, teamNameFor (Item EmptyString parsed) msg_team_id
                     = yourTeam)
  /\ (forall raw, teamNameFor (Item raw None) msg_team_id = yourTeam)
  /\ (forall raw v,
         (forall teams, v <> JS.VArr teams) ->
         teamNameFor (Item raw (Some v)) msg_team_id = yourTeam)
  /\ (forall raw teams,
         Forall (fun t => matchesTeam msg_team_id t = Some false) teams ->
         teamNameFor (Item raw (Some (JS.VArr teams))) msg_team_id = yourTeam)
  /\ (forall raw pre post,
         Forall (fun t => matchesTeam msg_team_id t = Some false) pre ->
         teamNameFor (Item raw (Some (JS.VArr (pre ++ JS.Null :: post))))
                     msg_team_id
         = yourTeam)
  /\ (forall raw pre fields post,
         raw <> EmptyString ->
         Forall (fun t => matchesTeam msg_team_id t = Some false) pre ->
         JS.lookup "id" fields = JS.VStr msg_team_id ->
         teamNameFor
           (Item raw (Some (JS.VArr (pre ++ JS.VObj fields :: post))))
           msg_team_id
         = JS.lookup "name" fields).
Proof.
  split.
  { intros storage. unfold onTeamMessage. now rewrite String.eqb_refl. }
  split.
  { intros storage sender Hne. unfold onTeamMessage.
    destruct (String.eqb_spec sender user_id); [contradiction | reflexivity]. }
  split; [reflexivity |]. split; [reflexivity |].
  split; [intros parsed; reflexivity |].
  split.
  { intros raw. cbn. now destruct (String.eqb raw EmptyString). }
  split.
  { intros raw v Hv. cbn.
    destruct (String.eqb raw EmptyString); [reflexivity |].
    destruct v; try reflexivity. now elim (Hv items). }
  split.
  { intros raw teams Hall. cbn.
    destruct (String.eqb raw EmptyString); [reflexivity |].
    now rewrite findTeam_none_match. }
  split.
  { intros raw pre post Hall. cbn.
    destruct (String.eqb raw EmptyString); [reflexivity |].
    now rewrite findTeam_after. }
  intros raw pre fields post Hraw Hall Hid. cbn.
  destruct (String.eqb_spec raw EmptyString); [contradiction |].
  rewrite findTeam_after by assumption.
  cbn. rewrite Hid, String.eqb_refl. reflexivity.
Qed.

Lemma X4_team_message_notification_witness :
  teamNameFor
    (Item "[...]"
       (Some (JS.VArr [JS.VObj [("id", JS.VStr "t0"); ("name", JS.VStr "Ops")];
                       JS.VObj [("id", JS.VStr "t1"); ("name", JS.VStr "Dev")]])))
    "t1"
  = JS.VStr "Dev".
Proof.
  destruct (X4_team_message_notification "u" "t1" "hello")
    as [_ [_ [_ [_ [_ [_ [_ [_ [_ Hfound]]]]]]]]].
  apply (Hfound "[...]"
           [JS.VObj [("id", JS.VStr "t0"); ("name", JS.VStr "Ops")]]
           [("id", JS.VStr "t1"); ("name", JS.VStr "Dev")] []).
  - discriminate.
  - repeat constructor.
  - reflexivity.
Defined.

(* ------------------------------------------------------------------ *)
(** ** The provider's poller                                            *)
(* ------------------------------------------------------------------ *)

Lemma dueWithinTenMinutes_spec (t due : Z) :
  Z.abs t <= JS.MAX_TIME - 600000 ->
  dueWithinTenMinutes (JS.new_Date (JS.Num t)) due = true <->
  0 < due - t <= 600000.
Proof.
  intros Ht. unfold dueWithinTenMinutes, JS.new_Date, JS.getTime.
  assert (HM : JS.MAX_TIME = 8640000000000000) by reflexivity.
  rewrite (TimeClip_in_range t) by lia.
  destruct (Z_le_gt_dec (Z.abs due) JS.MAX_TIME) as [Hd | Hd].
  - rewrite (TimeClip_in_range due Hd). cbn [JS.sub JS.le JS.gt].
    rewrite andb_true_iff, Z.leb_le, Z.ltb_lt. lia.
  - rewrite TimeClip_out_of_range by lia. cbn.
    split; [discriminate | lia].
Qed.

(** The trace of the poller's loop does not depend on the table, and the
    table changes as the trace says. *)
Lemma checkEach_spec w rs : forall st,
  checkEach w st rs =
  (markAll (ctxUpdatedIds (snd (fst (checkEach w [] rs)))) st,
   snd (fst (checkEach w [] rs)), snd (checkEach w [] rs)).
Proof.
  induction rs as [| r rest IH]; intros st; cbn [checkEach].
  - cbn. now rewrite markAll_nil.
  - destruct (dueWithinTenMinutes (now w) (Reminder.due_date r)); [| apply IH].
    destruct (reminders_update w (Reminder.id r)) eqn:Hup.
    + rewrite (IH (markSent (Reminder.id r) st)).
      rewrite (IH (markSent (Reminder.id r) [])).
      cbn [fst snd]. unfold ctxUpdatedIds at 2. cbn [flat_map ctxUpdatedId app].
      fold (ctxUpdatedIds (snd (fst (checkEach w [] rest)))).
      now rewrite markSent_markAll, markAll_app.
    + rewrite (IH st). rewrite (IH []). cbn [fst snd].
      unfold ctxUpdatedIds at 2. cbn [flat_map ctxUpdatedId app].
      reflexivity.
    + cbn. now rewrite markAll_nil.
Qed.

Lemma providerStore_spec w user st :
  providerStore w user st = markAll (ctxUpdatedIds (providerTrace w user st)) st.
Proof.
  unfold providerStore, providerTrace, checkReminders.
  destruct (reminders_select w user); try (cbn; now rewrite markAll_nil).
  rewrite checkEach_spec.
  destruct (snd (checkEach w [] (pendingOf user st))); cbn [fst snd].
  - reflexivity.
  - unfold ctxUpdatedIds. cbn [flat_map ctxUpdatedId app].
    rewrite flat_map_app. cbn. now rewrite app_nil_r.
Qed.

Lemma providerTrace_on_behalf w user st r c :
  In (CtxOnBehalf r c) (providerTrace w user st) ->
  reminders_select w user = Succeeds
  /\ In r (pendingOf user st)
  /\ dueWithinTenMinutes (now w) (Reminder.due_date r) = true.
Proof.
  unfold providerTrace, checkReminders.
  destruct (reminders_select w user);
    try (cbn; intros [H | [H | []]]; discriminate H).
  pose proof (checkEach_on_behalf w (pendingOf user st) st r c) as H.
  destruct (checkEach w st (pendingOf user st)) as [[st' tr] c'].
  cbn [fst snd] in H. intros Hev.
  assert (Hin : In (CtxOnBehalf r c) tr).
  { destruct c'; cbn [fst snd] in Hev.
    - destruct Hev as [Hev | Hev]; [discriminate Hev | exact Hev].
    - destruct Hev as [Hev | Hev]; [discriminate Hev |].
      apply in_app_or in Hev. destruct Hev as [Hev | [Hev | []]];
        [exact Hev | discriminate Hev]. }
  destruct (H Hin). auto.
Qed.

(** X5.  The provider's poller notifies a reminder only strictly before
    its due instant and at most ten minutes ahead: read at a valid time,
    its test holds if and only if [0 < dueAt - now <= 600000], and every
    call of a poll is made for a reminder inside that interval.  At the
    due instant and after it the poller stays silent. *)
Theorem X5_poller_window (w : World) :
  Z.abs (clock w) <= JS.MAX_TIME - 600000 ->
  (forall dueAt,
      dueWithinTenMinutes (now w) dueAt = true <->
      0 < dueAt - clock w <= 600000)
  /\ (forall user st r c,
         In (CtxOnBehalf r c) (providerTrace w user st) ->
         clock w < Reminder.due_date r <= clock w + 600000).
Proof.
  intros Hclock. split.
  - intros dueAt. unfold now. now apply dueWithinTenMinutes_spec.
  - intros user st r c Hev. apply providerTrace_on_behalf in Hev.
    destruct Hev as [_ [_ Hdue]]. unfold now in Hdue.
    apply dueWithinTenMinutes_spec in Hdue; [lia | assumption].
Qed.

Lemma X5_poller_window_witness :
  dueWithinTenMinutes (now Sample.world) (Sample.T + 60000) = false
  /\ dueWithinTenMinutes (now Sample.world) (Sample.T + 660000) = true.
Proof.
  assert (Hclock : Z.abs (clock Sample.world) <= JS.MAX_TIME - 600000)
    by (vm_compute; discriminate).
  destruct (X5_poller_window Sample.world Hclock) as [Hiff _].
  split.
  - destruct (dueWithinTenMinutes (now Sample.world) (Sample.T + 60000)) eqn:E;
      [| reflexivity].
    apply Hiff in E. vm_compute in E. destruct E as [E _]. discriminate E.
  - apply Hiff. vm_compute. split; [reflexivity | discriminate].
Defined.

(* ------------------------------------------------------------------ *)
(** ** Once the flag is set                                             *)
(* ------------------------------------------------------------------ *)

Lemma Forall2_In_r {A B : Type} (R : A -> B -> Prop) l l' b :
  Forall2 R l l' -> In b l' -> exists a, In a l /\ R a b.
Proof.
  induction 1 as [| x y l l' Hxy _ IH]; cbn; intros Hin; [contradiction |].
  destruct Hin as [<- | Hin].
  - exists x. auto.
  - destruct (IH Hin) as [a [Ha HR]]. exists a. auto.
Qed.

(** A row of a table reached from [markAll ids st] by marks only, whose
    flag is false, does not carry an id of [ids]. *)
Lemma marked_rows_stay_marked ids st st2 r2 :
  OnlyMarks (markAll ids st) st2 -> In r2 st2 ->
  Reminder.notification_sent r2 = false ->
  ~ In (Reminder.id r2) ids.
Proof.
  intros Hmarks Hin Hflag Hid.
  destruct (Forall2_In_r _ _ _ _ Hmarks Hin) as [r1 [Hr1 Hrel]].
  assert (r2 = r1) as ->.
  { destruct Hrel as [-> | ->]; [reflexivity | discriminate Hflag]. }
  unfold markAll in Hr1. apply in_map_iff in Hr1.
  destruct Hr1 as [r0 [Heq Hr0]].
  destruct (mem (Reminder.id r0) ids) eqn:Hmem.
  - subst r1. discriminate Hflag.
  - subst r1. apply mem_In in Hid. congruence.
Qed.

Lemma dueFilter_unsent t r :
  dueFilter t r = true -> Reminder.notification_sent r = false.
Proof.
  unfold dueFilter. destruct (Reminder.notification_sent r); [| reflexivity].
  now rewrite orb_true_r.
Qed.

(** No writer acts on a row that carries a marked id: neither a pass of
    the scheduler nor a poll of the provider. *)
Lemma marked_rows_left_alone ids st st2 id :
  In id ids -> OnlyMarks (markAll ids st) st2 ->
  (forall w2 m2 q r2 c,
      In (OnBehalf q r2 c) (passTrace w2 m2 st2) -> Reminder.id r2 <> id)
  /\ (forall w2 user r2 c,
         In (CtxOnBehalf r2 c) (providerTrace w2 user st2) ->
         Reminder.id r2 <> id).
Proof.
  intros Hid Hmarks. split.
  - intros w2 m2 q r2 c Hev Heq. apply passTrace_on_behalf in Hev.
    destruct Hev as [_ [_ [_ [Hin [_ [Hdue _]]]]]].
    apply (marked_rows_stay_marked ids st st2 r2 Hmarks Hin).
    + now apply dueFilter_unsent in Hdue.
    + now rewrite Heq.
  - intros w2 user r2 c Hev Heq. apply providerTrace_on_behalf in Hev.
    destruct Hev as [_ [Hpending _]]. apply pendingOf_In in Hpending.
    destruct Hpending as [Hin [_ [_ Hflag]]].
    apply (marked_rows_stay_marked ids st st2 r2 Hmarks Hin Hflag).
    now rewrite Heq.
Qed.

(** X6.  Once a poll of the provider has set the flag of a reminder,
    that reminder is never notified again, whatever passes and polls
    mark in between: a later scheduler pass makes no call for a row with
    its id (so its email is never sent) and a later poll shows no
    notification for it. *)
Theorem X6_poller_mark_silences_scheduler (w : World) (user : string)
    (st st2 : Store) (r : Reminder.t) (id : string) :
  In (CtxOnBehalf r (UpdateNotificationSent id Succeeds))
     (providerTrace w user st) ->
  OnlyMarks (providerStore w user st) st2 ->
  (forall w2 m2 q r2 c,
      In (OnBehalf q r2 c) (passTrace w2 m2 st2) -> Reminder.id r2 <> id)
  /\ (forall w2 user2 r2 c,
         In (CtxOnBehalf r2 c) (providerTrace w2 user2 st2) ->
         Reminder.id r2 <> id).
Proof.
  intros Hev Hmarks. rewrite providerStore_spec in Hmarks.
  apply (marked_rows_left_alone (ctxUpdatedIds (providerTrace w user st))
           st st2 id); [| exact Hmarks].
  unfold ctxUpdatedIds. apply in_flat_map.
  eexists. split; [exact Hev | now left].
Qed.

(** X7.  Once an update of a scheduler pass has succeeded for a
    reminder, no later pass makes a call for a row with its id and no
    later poll of the provider shows it, whatever is marked in
    between. *)
Theorem X7_scheduler_mark_is_final (w : World) (m : ServiceModule)
    (st st2 : Store) (p : Profile.t) (r : Reminder.t) (id : string) :
  In (OnBehalf p r (UpdateNotificationSent id Succeeds)) (passTrace w m st) ->
  OnlyMarks (passStore w m st) st2 ->
  (forall w2 m2 q r2 c,
      In (OnBehalf q r2 c) (passTrace w2 m2 st2) -> Reminder.id r2 <> id)
  /\ (forall w2 user r2 c,
         In (CtxOnBehalf r2 c) (providerTrace w2 user st2) ->
         Reminder.id r2 <> id).
Proof.
  intros Hev Hmarks. rewrite passStore_spec in Hmarks.
  apply (marked_rows_left_alone (updatedIds (passTrace w m st))
           st st2 id); [| exact Hmarks].
  apply updatedIds_In. now exists p, r.
Qed.

Lemma X6_poller_mark_silences_scheduler_witness :
  (forall w2 m2 q r2 c,
      In (OnBehalf q r2 c)
         (passTrace w2 m2 (providerStore Sample.world "alice" [Sample.rsoon])) ->
      Reminder.id r2 <> "rsoon")
  /\ (forall w2 user2 r2 c,
         In (CtxOnBehalf r2 c)
            (providerTrace w2 user2
               (providerStore Sample.world "alice" [Sample.rsoon])) ->
         Reminder.id r2 <> "rsoon").
Proof.
  refine (X6_poller_mark_silences_scheduler Sample.world "alice"
            [Sample.rsoon] _ Sample.rsoon "rsoon" _ _).
  - cbn. right. right. now left.
  - apply OnlyMarks_refl.
Defined.

Lemma X7_scheduler_mark_is_final_witness :
  (forall w2 m2 q r2 c,
      In (OnBehalf q r2 c)
         (passTrace w2 m2
            (passStore Sample.world Sample.registered Sample.table)) ->
      Reminder.id r2 <> "ra")
  /\ (forall w2 user r2 c,
         In (CtxOnBehalf r2 c)
            (providerTrace w2 user
               (passStore Sample.world Sample.registered Sample.table)) ->
         Reminder.id r2 <> "ra").
Proof.
  refine (X7_scheduler_mark_is_final Sample.world Sample.registered
            Sample.table _ Sample.alice Sample.ra "ra" _ _).
  - cbn. right. right. right. right. now left.
  - apply OnlyMarks_refl.
Defined.

Lemma checkEach_shows w rs :
  (forall id, reminders_update w id <> Throws) ->
  forall st r,
    In r rs -> dueWithinTenMinutes (now w) (Reminder.due_date r) = true ->
    In (shownByPoller w r) (snd (fst (checkEach w st rs))).
Proof.
  intros Hno. induction rs as [| r0 rest IH]; intros st r Hin Hdue;
    [destruct Hin |].
  cbn [checkEach].
  destruct Hin as [-> | Hin].
  - rewrite Hdue.
    destruct (reminders_update w (Reminder.id r)) eqn:Hup;
      [destruct (checkEach w (markSent (Reminder.id r) st) rest)
         as [[st' tr] c]
      | destruct (checkEach w st rest) as [[st' tr] c]
      | now elim (Hno (Reminder.id r))];
      cbn [fst snd]; now left.
  - destruct (dueWithinTenMinutes (now w) (Reminder.due_date r0));
      [| now apply IH].
    destruct (reminders_update w (Reminder.id r0)) eqn:Hup.
    + pose proof (IH (markSent (Reminder.id r0) st) r Hin Hdue) as H.
      destruct (checkEach w (markSent (Reminder.id r0) st) rest)
        as [[st' tr] c].
      cbn [fst snd] in *. right. now right.
    + pose proof (IH st r Hin Hdue) as H.
      destruct (checkEach w st rest) as [[st' tr] c].
      cbn [fst snd] in *. right. now right.
    + now elim (Hno (Reminder.id r0)).
Qed.

Lemma providerTrace_shows w user st r :
  PollRuns w user -> In r (pendingOf user st) ->
  dueWithinTenMinutes (now w) (Reminder.due_date r) = true ->
  In (shownByPoller w r) (providerTrace w user st).
Proof.
  intros [Hsel Hno] Hin Hdue. unfold providerTrace, checkReminders.
  rewrite Hsel.
  pose proof (checkEach_shows w (pendingOf user st) Hno st r Hin Hdue) as H.
  destruct (checkEach w st (pendingOf user st)) as [[st' tr] c].
  cbn [fst snd] in H.
  destruct c; cbn [fst snd]; right; [exact H |].
  apply in_or_app. now left.
Qed.

Lemma checkEach_update w rs : forall st r id res,
  In (CtxOnBehalf r (UpdateNotificationSent id res))
     (snd (fst (checkEach w st rs))) ->
  id = Reminder.id r /\ res = reminders_update w (Reminder.id r).
Proof.
  induction rs as [| r0 rest IH]; intros st r id res; cbn [checkEach].
  - intros [].
  - destruct (dueWithinTenMinutes (now w) (Reminder.due_date r0));
      [| apply IH].
    destruct (reminders_update w (Reminder.id r0)) eqn:Hup.
    + pose proof (IH (markSent (Reminder.id r0) st) r id res) as H.
      destruct (checkEach w (markSent (Reminder.id r0) st) rest)
        as [[st' tr] c].
      cbn [fst snd In] in *.
      intros [Hev | [Hev | Hev]];
        [discriminate Hev | inversion Hev; subst; auto | now apply H].
    + pose proof (IH st r id res) as H.
      destruct (checkEach w st rest) as [[st' tr] c].
      cbn [fst snd In] in *.
      intros [Hev | [Hev | Hev]];
        [discriminate Hev | inversion Hev; subst; auto | now apply H].
    + cbn [fst snd In].
      intros [Hev | [Hev | []]];
        [discriminate Hev | inversion Hev; subst; auto].
Qed.

Lemma providerTrace_update w user st r id res :
  In (CtxOnBehalf r (UpdateNotificationSent id res)) (providerTrace w user st) ->
  id = Reminder.id r /\ res = reminders_update w (Reminder.id r).
Proof.
  unfold providerTrace, checkReminders.
  destruct (reminders_select w user);
    try (cbn; intros [H | [H | []]]; discriminate H).
  pose proof (checkEach_update w (pendingOf user st) st r id res) as H.
  destruct (checkEach w st (pendingOf user st)) as [[st' tr] c'].
  cbn [fst snd] in H. intros Hev. apply H.
  destruct c'; cbn [fst snd] in Hev.
  - destruct Hev as [Hev | Hev]; [discriminate Hev | exact Hev].
  - destruct Hev as [Hev | Hev]; [discriminate Hev |].
    apply in_app_or in Hev. destruct Hev as [Hev | [Hev | []]];
      [exact Hev | discriminate Hev].
Qed.

Lemma pendingOf_intro uid st r :
  In r st -> Reminder.user_id r = uid ->
  Reminder.is_completed r = false -> Reminder.notification_sent r = false ->
  In r (pendingOf uid st).
Proof.
  intros Hin Hu Hc Hs. unfold pendingOf. apply filter_In.
  split; [exact Hin |]. rewrite Hu, Hc, Hs, String.eqb_refl. reflexivity.
Qed.

(** X8.  The provider's poller does not look at the result of its
    update.  When the update for a reminder returns an error the
    notification has been shown, the row keeps its flag false, and the
    next poll that still finds the reminder inside the ten-minute window
    shows the notification again. *)
Theorem X8_poller_repeats_when_update_fails (w : World) (user : string)
    (st : Store) (r : Reminder.t) :
  PollRuns w user ->
  NoDup (map Reminder.id st) ->
  In r (pendingOf user st) ->
  dueWithinTenMinutes (now w) (Reminder.due_date r) = true ->
  reminders_update w (Reminder.id r) = ReturnsError ->
  In (shownByPoller w r) (providerTrace w user st)
  /\ In r (providerStore w user st)
  /\ forall w2,
       PollRuns w2 user ->
       dueWithinTenMinutes (now w2) (Reminder.due_date r) = true ->
       In (shownByPoller w2 r)
          (providerTrace w2 user (providerStore w user st)).
Proof.
  intros Hruns Hkeys Hpending Hdue Hup.
  pose proof (pendingOf_In _ _ _ Hpending) as [Hin [Hu [Hc Hs]]].
  assert (Hkeep : In r (providerStore w user st)).
  { rewrite providerStore_spec. apply markAll_keeps; [exact Hin |].
    intros Hid. unfold ctxUpdatedIds in Hid. apply in_flat_map in Hid.
    destruct Hid as [e [He Hid]].
    destruct e as [| | r' [| | id' [| |] |]]; cbn in Hid; try contradiction.
    destruct Hid as [Hid | []]. subst id'.
    pose proof (providerTrace_update _ _ _ _ _ _ He) as [Hid' Hres].
    pose proof (providerTrace_on_behalf _ _ _ _ _ He) as [_ [Hp' _]].
    apply pendingOf_In in Hp'. destruct Hp' as [Hin' _].
    assert (r' = r) by (apply (NoDup_map_eq Reminder.id st); auto).
    subst r'. congruence. }
  split; [now apply providerTrace_shows |]. split; [exact Hkeep |].
  intros w2 Hruns2 Hdue2. apply providerTrace_shows; try assumption.
  now apply pendingOf_intro.
Qed.

Lemma X8_poller_repeats_when_update_fails_witness :
  In (shownByPoller Sample2.updateFails Sample.rsoon)
     (providerTrace Sample2.updateFails "alice" [Sample.rsoon])
  /\ In Sample.rsoon (providerStore Sample2.updateFails "alice" [Sample.rsoon])
  /\ forall w2,
       PollRuns w2 "alice" ->
       dueWithinTenMinutes (now w2) (Reminder.due_date Sample.rsoon) = true ->
       In (shownByPoller w2 Sample.rsoon)
          (providerTrace w2 "alice"
             (providerStore Sample2.updateFails "alice" [Sample.rsoon])).
Proof.
  refine (X8_poller_repeats_when_update_fails Sample2.updateFails "alice"
            [Sample.rsoon] Sample.rsoon _ _ _ _ _).
  - split; [reflexivity | intros id; discriminate].
  - cbn. repeat constructor. intros [].
  - cbn. now left.
  - reflexivity.
  - reflexivity.
Defined.

(* ------------------------------------------------------------------ *)
(** ** More on the evaluation pass                                      *)
(* ------------------------------------------------------------------ *)

(** X9.  When the email for a due reminder is sent but the update that
    should set the flag does not succeed, the row keeps its flag false,
    and a later pass that gets to the reminder inside the window sends
    the email again. *)
Theorem X9_email_repeats_when_update_fails (w : World) (m : ServiceModule)
    (st : Store) (p : Profile.t) (r : Reminder.t) :
  Reached w st p r ->
  emailNotificationsEnabled p = true ->
  sendReminderNotification w r = true ->
  reminders_update w (Reminder.id r) <> Succeeds ->
  In (emailCall w p r) (passTrace w m st)
  /\ In r (passStore w m st)
  /\ forall w2 m2,
       Reached w2 st p r ->
       In (emailCall w2 p r) (passTrace w2 m2 (passStore w m st)).
Proof.
  intros Hreach He Hsent Hup.
  assert (Hcall : forall w' m' st',
             Reached w' st' p r -> In (emailCall w' p r) (passTrace w' m' st')).
  { intros w' m' st' Hreach'.
    eapply Occurs_In; [exact (pass_reaches w' m' st' p r Hreach') |].
    apply (reminderEvents_email w' m' p r He). }
  assert (Hkeep : In r (passStore w m st)).
  { rewrite passStore_spec.
    apply markAll_keeps; [exact (reached_row _ _ _ _ Hreach) |].
    intros Hid. apply updatedIds_In in Hid. destruct Hid as [q [r' Hev]].
    destruct (pass_update_owner w m st p r q r' Succeeds Hreach Hev)
      as [-> ->].
    apply passTrace_on_behalf in Hev.
    destruct Hev as [_ [_ [_ [_ [_ [_ Hev]]]]]].
    apply reminderEvents_update in Hev. destruct Hev as [_ [Hres _]].
    now apply Hup. }
  split; [now apply Hcall |]. split; [exact Hkeep |].
  intros w2 m2 Hreach2. apply Hcall. now apply Reached_after.
Qed.

Lemma X9_email_repeats_when_update_fails_witness :
  In Sample.ra
     (passStore (Sample2.withUpdate (fun _ => ReturnsError)
                   (Sample.withClock (Sample.T + 60000)
                      (Sample.withMail (fun _ => Responds 200 true)
                         Sample.world)))
                Sample.registered Sample.table).
Proof.
  assert (Hreach : Reached (Sample2.withUpdate (fun _ => ReturnsError)
                              (Sample.withClock (Sample.T + 60000)
                                 (Sample.withMail (fun _ => Responds 200 true)
                                    Sample.world)))
                           Sample.table Sample.alice Sample.ra).
  { constructor; try reflexivity.
    - intros q _. discriminate.
    - cbn. repeat constructor; cbn; intuition discriminate.
    - exact Sample_table_keys.
    - cbn. now left.
    - cbn. now left. }
  destruct (X9_email_repeats_when_update_fails _ Sample.registered _ _ _
              Hreach eq_refl eq_refl) as [_ [Hkeep _]].
  - discriminate.
  - exact Hkeep.
Defined.

(** X10.  When a pass cannot get at the profiles (no window, no client,
    a profile select that returns an error or throws, or no profile with
    an email) it says so on the console and does nothing else: no
    reminder select, no call on behalf of any reminder, and the table is
    as it was. *)
Theorem X10_pass_without_profiles (w : World) (m : ServiceModule)
    (st : Store) :
  has_window w = false \/ supabase_ready w = false
  \/ profiles_select w <> Succeeds \/ profilesWithEmail w = [] ->
  passStore w m st = st
  /\ (exists msg, In (Console msg) (passTrace w m st))
  /\ (forall q res, ~ In (SelectReminders q res) (passTrace w m st))
  /\ (forall q r c, ~ In (OnBehalf q r c) (passTrace w m st)).
Proof.
  intros Hwhy.
  assert (Hnone : forall e,
             In e (passTrace w m st) ->
             (forall msg, e <> Console msg) -> e <> PassInvoked ->
             (forall res, e <> SelectProfiles res) -> False).
  { intros e Hin Hc Hp Hs.
    destruct (passTrace_loop w m st e Hin Hc Hp Hs) as [Hw [Hr [Hsel Hloop]]].
    destruct Hwhy as [H | [H | [H | H]]]; try congruence.
    rewrite H in Hloop. destruct Hloop. }
  split; [| split; [| split]].
  - rewrite passStore_spec.
    assert (Hids : updatedIds (passTrace w m st) = []).
    { destruct (updatedIds (passTrace w m st)) as [| id ids] eqn:E;
        [reflexivity |].
      exfalso.
      assert (Hin : In id (updatedIds (passTrace w m st)))
        by (rewrite E; now left).
      apply updatedIds_In in Hin. destruct Hin as [q [r Hev]].
      apply (Hnone _ Hev); discriminate. }
    rewrite Hids. apply markAll_nil.
  - rewrite passTrace_unfold.
    destruct (has_window w); cbn [negb]; [| eexists; cbn; eauto].
    destruct (supabase_ready w); cbn [negb]; [| eexists; cbn; eauto].
    destruct (profiles_select w); try (eexists; cbn; now eauto).
    destruct (profilesWithEmail w) as [| p0 ps];
      [eexists; cbn; now eauto |].
    exfalso. destruct Hwhy as [H | [H | [H | H]]];
      first [discriminate H | now apply H].
  - intros q res Hev. apply (Hnone _ Hev); discriminate.
  - intros q r c Hev. apply (Hnone _ Hev); discriminate.
Qed.

Lemma X10_pass_without_profiles_witness :
  passStore Sample2.profilesFail Sample.registered Sample.table = Sample.table
  /\ (exists msg,
         In (Console msg)
            (passTrace Sample2.profilesFail Sample.registered Sample.table))
  /\ (forall q res,
         ~ In (SelectReminders q res)
              (passTrace Sample2.profilesFail Sample.registered Sample.table))
  /\ (forall q r c,
         ~ In (OnBehalf q r c)
              (passTrace Sample2.profilesFail Sample.registered Sample.table)).
Proof.
  refine (X10_pass_without_profiles Sample2.profilesFail Sample.registered
            Sample.table _).
  right. right. left. discriminate.
Defined.

(** X11.  With the provider's trigger registered, a browser notification
    that is not suppressed creates the system notification twice: once
    by the channel itself and once more by the feed's [addNotification],
    which also adds the feed entry. *)
Theorem X11_popup_shown_twice (w : World) (m : ServiceModule)
    (title body : string) :
  ~ suppressed w ->
  showBrowserNotification w (setNotificationTrigger (contextTrigger w) m)
    title body
  = [SystemNotification title body "/favicon.ico";
     FeedEntry title body "reminder";
     SystemNotification title body "/favicon.ico"].
Proof.
  unfold suppressed, showBrowserNotification, contextTrigger, addNotification.
  intros Hs. cbn [setNotificationTrigger triggerNotification].
  destruct (has_window w); cbn [negb andb]; [| exfalso; apply Hs; now left].
  destruct (supports_Notification w); cbn [negb];
    [| exfalso; apply Hs; right; now left].
  destruct (Notification_permission w);
    try (exfalso; apply Hs; right; right; left; discriminate).
  destruct (document_hasFocus w); [| reflexivity].
  exfalso. apply Hs. right. right. now right.
Qed.

Lemma X11_popup_shown_twice_witness :
  showBrowserNotification Sample.world
    (setNotificationTrigger (contextTrigger Sample.world) initialModule)
    "Reminder: Task rb" "You have a reminder due now"
  = [SystemNotification "Reminder: Task rb" "You have a reminder due now"
       "/favicon.ico";
     FeedEntry "Reminder: Task rb" "You have a reminder due now" "reminder";
     SystemNotification "Reminder: Task rb" "You have a reminder due now"
       "/favicon.ico"].
Proof.
  refine (X11_popup_shown_twice Sample.world initialModule _ _ _).
  intros [H | [H | [H | H]]]; try discriminate H. now apply H.
Defined.

Lemma tick_armed w p :
  timers p = [everyThirtySeconds] ->
  timers (step p (Tick w)) = [everyThirtySeconds]
  /\ module_state (step p (Tick w)) = module_state p
  /\ passesInvoked (history (step p (Tick w)))
     = S (passesInvoked (history p)).
Proof.
  intros Ht. cbn [step]. rewrite Ht. cbn [fold_left].
  rewrite runPass_spec. cbn [timers module_state history].
  rewrite passesInvoked_app, passesInvoked_pass. repeat split; [exact Ht | lia].
Qed.

Lemma ticks_armed ws : forall p,
  timers p = [everyThirtySeconds] ->
  timers (run (map Tick ws) p) = [everyThirtySeconds]
  /\ passesInvoked (history (run (map Tick ws) p))
     = (passesInvoked (history p) + List.length ws)%nat.
Proof.
  unfold run. induction ws as [| w ws IH]; intros p Ht; cbn [map fold_left].
  - split; [exact Ht | cbn; lia].
  - destruct (tick_armed w p Ht) as [Ht' [_ Hn]].
    destruct (IH _ Ht') as [Ht'' Hn']. split; [exact Ht'' |].
    rewrite Hn', Hn. cbn [List.length]. lia.
Qed.

Lemma ticks_unarmed ws : forall p,
  timers p = [] -> run (map Tick ws) p = p.
Proof.
  unfold run. induction ws as [| w ws IH]; intros p Ht; cbn [map fold_left].
  - reflexivity.
  - cbn [step]. rewrite Ht. cbn [fold_left]. now apply IH.
Qed.

(** X12.  After the service was started in a browser, every tick of the
    interval runs exactly one pass: the start followed by [n] ticks has
    run [n + 1] passes and the one interval is still armed.  Without a
    start no pass ever runs. *)
Theorem X12_one_pass_per_tick (st : Store) (w : World) (ws : list World) :
  has_window w = true ->
  passesInvoked (history (run (Start w :: map Tick ws) (initialProcess st)))
  = S (List.length ws)
  /\ timers (run (Start w :: map Tick ws) (initialProcess st))
     = [everyThirtySeconds]
  /\ run (map Tick ws) (initialProcess st) = initialProcess st.
Proof.
  intros Hw.
  assert (Hfirst := start_first w (initialProcess st) Hw eq_refl).
  cbn zeta in Hfirst.
  assert (Ht : timers (startReminderNotificationService w (initialProcess st))
               = [everyThirtySeconds]) by (now rewrite Hfirst).
  assert (Hn : passesInvoked
                 (history (startReminderNotificationService w
                             (initialProcess st))) = 1%nat).
  { rewrite Hfirst. cbn [history initialProcess app]. apply passesInvoked_pass. }
  change (run (Start w :: map Tick ws) (initialProcess st))
    with (run (map Tick ws)
              (startReminderNotificationService w (initialProcess st))).
  destruct (ticks_armed ws _ Ht) as [Ht' Hn'].
  split; [| split].
  - rewrite Hn', Hn. reflexivity.
  - exact Ht'.
  - now apply ticks_unarmed.
Qed.

Lemma X12_one_pass_per_tick_witness :
  passesInvoked
    (history (run (Start Sample.world
                     :: map Tick [Sample.world; Sample.world])
                  (initialProcess Sample.table)))
  = 3%nat.
Proof.
  destruct (X12_one_pass_per_tick Sample.table Sample.world
              [Sample.world; Sample.world] eq_refl) as [H _].
  exact H.
Defined.

Lemma firstToken_split (s : string) :
  hasSpace (firstToken s) = false
  /\ exists rest,
       s = String.append (firstToken s) rest
       /\ (rest = EmptyString \/ exists rest', rest = String " "%char rest').
Proof.
  induction s as [| c s [IHs [rest [IHeq IHrest]]]]; cbn [firstToken].
  - split; [reflexivity |]. exists EmptyString. split; [reflexivity | now left].
  - destruct (Ascii.eqb_spec c " "%char) as [-> | Hne].
    + split; [reflexivity |]. exists (String " "%char s).
      split; [reflexivity | right; now exists s].
    + split.
      * cbn [hasSpace]. rewrite IHs.
        destruct (Ascii.eqb_spec c " "%char); [contradiction | reflexivity].
      * exists rest. split; [| exact IHrest].
        cbn [String.append]. now rewrite <- IHeq.
Qed.

(** X13.  The first name used in the email is "User" when the profile
    has no full name or an empty one; otherwise it is the part of the
    full name before its first space: it holds no space, and the full
    name is that part followed by nothing or by a space and the rest.
    So it is empty when the full name starts with a space. *)
Theorem X13_firstName_is_leading_token :
  firstNameOf None = "User"
  /\ firstNameOf (Some EmptyString) = "User"
  /\ forall n,
       n <> EmptyString ->
       hasSpace (firstNameOf (Some n)) = false
       /\ exists rest,
            n = String.append (firstNameOf (Some n)) rest
            /\ (rest = EmptyString
                \/ exists rest', rest = String " "%char rest').
Proof.
  split; [reflexivity |]. split; [reflexivity |].
  intros n Hne. unfold firstNameOf.
  destruct (String.eqb_spec n EmptyString); [contradiction |].
  apply firstToken_split.
Qed.

Lemma X13_firstName_is_leading_token_witness :
  hasSpace (firstNameOf (Some "Alice Doe")) = false
  /\ exists rest,
       "Alice Doe" = String.append (firstNameOf (Some "Alice Doe")) rest
       /\ (rest = EmptyString \/ exists rest', rest = String " "%char rest').
Proof.
  destruct X13_firstName_is_leading_token as [_ [_ H]].
  apply (H "Alice Doe"). discriminate.
Defined.

(* ------------------------------------------------------------------ *)
(** ** Sessions                                                         *)
(* ------------------------------------------------------------------ *)

Lemma onAuthSessions_running w sessions : forall p,
  has_window w = true -> isServiceRunning (module_state p) = true ->
  onAuthSessions w sessions p = p.
Proof.
  unfold onAuthSessions.
  induction sessions as [| s rest IH]; intros p Hw Hrun; cbn [fold_left];
    [reflexivity |].
  assert (Hstep : onAuthSession w s p = p).
  { unfold onAuthSession. destruct s; [| reflexivity].
    rewrite Hw. now apply start_again. }
  rewrite Hstep. now apply IH.
Qed.

Lemma onAuthSessions_signed_out w sessions : forall p,
  existsb signedIn sessions = false -> onAuthSessions w sessions p = p.
Proof.
  unfold onAuthSessions.
  induction sessions as [| s rest IH]; intros p Hnone; cbn [fold_left];
    [reflexivity |].
  cbn [existsb] in Hnone. apply orb_false_iff in Hnone.
  destruct Hnone as [Hs Hrest]. destruct s; [discriminate Hs |].
  cbn [onAuthSession]. now apply IH.
Qed.

(** X14.  The session callbacks start the service at the first session
    that has a user and never stop it.  In a browser, a sequence of
    session events with a signed-in one leaves the process as the first
    start left it (one pass run, the one interval armed), whatever
    sign-outs and sign-ins follow; a sequence without one leaves the
    process untouched; and once the service runs, no session event, a
    sign-out included, changes the process, so the interval goes on
    firing. *)
Theorem X14_sessions_start_once_never_stop (w : World)
    (sessions : list (option string)) (st : Store) :
  has_window w = true ->
  (existsb signedIn sessions = true ->
   onAuthSessions w sessions (initialProcess st)
   = startReminderNotificationService w (initialProcess st)
   /\ timers (onAuthSessions w sessions (initialProcess st))
      = [everyThirtySeconds])
  /\ (existsb signedIn sessions = false ->
      onAuthSessions w sessions (initialProcess st) = initialProcess st)
  /\ (forall p, isServiceRunning (module_state p) = true ->
                onAuthSessions w sessions p = p).
Proof.
  intros Hw. split; [| split].
  - assert (Hfirst := start_first w (initialProcess st) Hw eq_refl).
    cbn zeta in Hfirst.
    induction sessions as [| s rest IH]; intros Hsome; [discriminate Hsome |].
    unfold onAuthSessions. cbn [fold_left].
    destruct s as [u |].
    + cbn [onAuthSession]. rewrite Hw.
      fold (onAuthSessions w rest
              (startReminderNotificationService w (initialProcess st))).
      rewrite onAuthSessions_running;
        [| exact Hw | now rewrite Hfirst].
      split; [reflexivity | now rewrite Hfirst].
    + cbn [onAuthSession]. apply IH. exact Hsome.
  - apply onAuthSessions_signed_out.
  - intros p Hrun. now apply onAuthSessions_running.
Qed.

Lemma X14_sessions_start_once_never_stop_witness :
  onAuthSessions Sample.world [None; Some "alice"; None; Some "alice"]
    (initialProcess Sample.table)
  = startReminderNotificationService Sample.world
      (initialProcess Sample.table)
  /\ timers (onAuthSessions Sample.world
               [None; Some "alice"; None; Some "alice"]
               (initialProcess Sample.table))
     = [everyThirtySeconds].
Proof.
  destruct (X14_sessions_start_once_never_stop Sample.world
              [None; Some "alice"; None; Some "alice"] Sample.table eq_refl)
    as [H _].
  exact (H eq_refl).
Defined.

(* ------------------------------------------------------------------ *)
(** ** The reminders view                                               *)
(* ------------------------------------------------------------------ *)

Lemma dateOf_valid (r : Reminder.t) :
  Z.abs (Reminder.due_date r) <= JS.MAX_TIME ->
  RemindersView.dateOf r = JS.Num (Reminder.due_date r).
Proof. intros H. unfold RemindersView.dateOf, JS.new_Date. now apply TimeClip_in_range. Qed.

Lemma dateOf_invalid (r : Reminder.t) :
  JS.MAX_TIME < Z.abs (Reminder.due_date r) ->
  RemindersView.dateOf r = JS.NaN.
Proof.
  intros H. unfold RemindersView.dateOf, JS.new_Date.
  now apply TimeClip_out_of_range.
Qed.

(** X15.  The three sections of the reminders view split the filtered
    list: when every due date is a valid date, each filtered reminder is
    in exactly one of upcoming, overdue and completed, so the three
    lengths add up to that of the filtered list.  With completed
    reminders hidden the completed section is empty.  A pending reminder
    whose due date is not a valid date is in no section. *)
Theorem X15_sections_split_the_list (t : Z) (filterType : string)
    (showCompleted : bool) (reminders : list Reminder.t) :
  let filtered :=
    RemindersView.filteredReminders filterType showCompleted reminders in
  (Forall (fun r => Z.abs (Reminder.due_date r) <= JS.MAX_TIME) reminders ->
   (List.length (RemindersView.upcomingReminders (JS.Num t) filtered)
    + List.length (RemindersView.overdueReminders (JS.Num t) filtered)
    + List.length (RemindersView.completedReminders filtered)
    = List.length filtered)%nat)
  /\ (showCompleted = false -> RemindersView.completedReminders filtered = [])
  /\ (forall r,
         Reminder.is_completed r = false ->
         JS.MAX_TIME < Z.abs (Reminder.due_date r) ->
         ~ In r (RemindersView.upcomingReminders (JS.Num t) filtered)
         /\ ~ In r (RemindersView.overdueReminders (JS.Num t) filtered)
         /\ ~ In r (RemindersView.completedReminders filtered)).
Proof.
  intros filtered. split; [| split].
  - intros Hall.
    assert (Hf : Forall (fun r => Z.abs (Reminder.due_date r) <= JS.MAX_TIME)
                        filtered).
    { apply Forall_forall. intros r Hr. rewrite Forall_forall in Hall.
      apply Hall. unfold filtered, RemindersView.filteredReminders in Hr.
      apply filter_In in Hr. tauto. }
    clearbody filtered. clear Hall.
    unfold RemindersView.upcomingReminders, RemindersView.overdueReminders,
      RemindersView.completedReminders, JSMath.lt.
    induction Hf as [| r rest Hr _ IH]; [reflexivity |].
    cbn [filter]. rewrite (dateOf_valid r Hr).
    cbn [JS.ge JS.le JS.gt] in IH |- *.
    destruct (Reminder.is_completed r); cbn [negb andb List.length].
    + lia.
    + destruct (Z.leb_spec t (Reminder.due_date r));
        destruct (Z.ltb_spec (Reminder.due_date r) t);
        cbn [List.length]; lia.
  - intros ->. unfold filtered, RemindersView.completedReminders,
      RemindersView.filteredReminders.
    induction reminders as [| r rest IH]; [reflexivity |].
    cbn [filter orb].
    destruct (String.eqb filterType "all"
              || String.eqb (Reminder.reminder_type r) filterType);
      cbn [andb]; [| exact IH].
    destruct (Reminder.is_completed r) eqn:Hc; cbn [negb]; [exact IH |].
    cbn [filter]. rewrite Hc. exact IH.
  - intros r Hc Hbad.
    unfold RemindersView.upcomingReminders, RemindersView.overdueReminders,
      RemindersView.completedReminders.
    rewrite !filter_In, (dateOf_invalid r Hbad), Hc.
    unfold JSMath.lt. cbn.
    repeat split; intros [_ H]; discriminate H.
Qed.

Lemma X15_sections_split_the_list_witness :
  (List.length (RemindersView.upcomingReminders (JS.Num (Sample.T + 60000))
                  (RemindersView.filteredReminders "all" true
                     [Sample.ra; Sample.rsoon; Sample.rdone]))
   + List.length (RemindersView.overdueReminders (JS.Num (Sample.T + 60000))
                    (RemindersView.filteredReminders "all" true
                       [Sample.ra; Sample.rsoon; Sample.rdone]))
   + List.length (RemindersView.completedReminders
                    (RemindersView.filteredReminders "all" true
                       [Sample.ra; Sample.rsoon; Sample.rdone]))
   = List.length (RemindersView.filteredReminders "all" true
                    [Sample.ra; Sample.rsoon; Sample.rdone]))%nat.
Proof.
  destruct (X15_sections_split_the_list (Sample.T + 60000) "all" true
              [Sample.ra; Sample.rsoon; Sample.rdone]) as [H _].
  apply H. repeat constructor; vm_compute; discriminate.
Defined.

Lemma floorDiv_days (d : Z) :
  JSMath.floorDiv (JS.Num d) RemindersView.MS_PER_DAY = JS.Num (d / 86400000).
Proof. reflexivity. Qed.

(** X16.  [formatDate] labels a due date by whole periods of 24 hours
    between it and the current time, not by calendar days.  For valid
    dates less than 8.64e15 ms apart, with [d] the milliseconds from now
    to the due time: "Today" for [0 <= d < 24h], "Tomorrow" for the next
    24 hours, "Yesterday" for any instant of the last 24 hours (one
    millisecond ago included), "N days ago" with [N >= 2] before that,
    "In N days" with [2 <= N <= 7] up to eight days ahead, and the
    locale date from eight days on. *)
Theorem X16_formatDate_by_periods_of_24h (t due : Z) :
  Z.abs t <= JS.MAX_TIME -> Z.abs due <= JS.MAX_TIME ->
  Z.abs (due - t) <= JS.MAX_TIME ->
  let d := due - t in
  let label := RemindersView.formatDate (JS.new_Date (JS.Num t)) due in
  (0 <= d < 86400000 -> label = RemindersView.Today)
  /\ (86400000 <= d < 172800000 -> label = RemindersView.Tomorrow)
  /\ (-86400000 <= d < 0 -> label = RemindersView.Yesterday)
  /\ (d < -86400000 ->
      label = RemindersView.DaysAgo (JS.Num (- (d / 86400000)))
      /\ 2 <= - (d / 86400000))
  /\ (172800000 <= d < 691200000 ->
      label = RemindersView.InDays (JS.Num (d / 86400000))
      /\ 2 <= d / 86400000 <= 7)
  /\ (691200000 <= d -> label = RemindersView.LocaleDate (JS.Num due)).
Proof.
  intros Ht Hdue Hd d label. subst label.
  unfold RemindersView.formatDate, JS.new_Date, JS.getTime.
  rewrite (TimeClip_in_range t Ht), (TimeClip_in_range due Hdue).
  cbn [JS.sub]. fold d. rewrite floorDiv_days.
  unfold JSMath.eqb, JSMath.lt, JSMath.abs. cbn [JS.gt JS.le].
  assert (Hdiv := Z.div_mod d 86400000 ltac:(lia)).
  assert (Hmod := Z.mod_pos_bound d 86400000 ltac:(lia)).
  set (q := d / 86400000) in *.
  split; [| split; [| split; [| split; [| split]]]]; intros Hrange.
  - assert (q = 0) as -> by lia. reflexivity.
  - assert (q = 1) as -> by lia. reflexivity.
  - assert (q = -1) as -> by lia. reflexivity.
  - destruct (Z.eqb_spec q 0); [lia |]. destruct (Z.eqb_spec q 1); [lia |].
    destruct (Z.eqb_spec q (-1)); [lia |].
    destruct (Z.ltb_spec q (-1)); [| lia].
    split; [| lia]. f_equal. f_equal. lia.
  - destruct (Z.eqb_spec q 0); [lia |]. destruct (Z.eqb_spec q 1); [lia |].
    destruct (Z.eqb_spec q (-1)); [lia |].
    destruct (Z.ltb_spec q (-1)); [lia |].
    destruct (Z.ltb_spec 1 q); [| lia].
    destruct (Z.leb_spec q 7); [| lia]. split; [reflexivity | lia].
  - destruct (Z.eqb_spec q 0); [lia |]. destruct (Z.eqb_spec q 1); [lia |].
    destruct (Z.eqb_spec q (-1)); [lia |].
    destruct (Z.ltb_spec q (-1)); [lia |].
    destruct (Z.ltb_spec 1 q); [| lia].
    destruct (Z.leb_spec q 7); [lia |]. reflexivity.
Qed.

Lemma X16_formatDate_by_periods_of_24h_witness :
  RemindersView.formatDate (JS.new_Date (JS.Num (Sample.T + 1))) Sample.T
  = RemindersView.Yesterday.
Proof.
  assert (H1 : Z.abs (Sample.T + 1) <= JS.MAX_TIME) by (vm_compute; discriminate).
  assert (H2 : Z.abs Sample.T <= JS.MAX_TIME) by (vm_compute; discriminate).
  assert (H3 : Z.abs (Sample.T - (Sample.T + 1)) <= JS.MAX_TIME)
    by (vm_compute; discriminate).
  destruct (X16_formatDate_by_periods_of_24h (Sample.T + 1) Sample.T H1 H2 H3)
    as [_ [_ [H _]]].
  apply H. vm_compute. split; [discriminate | reflexivity].
Defined.

Lemma countdown_components (d : Z) :
  0 < d ->
  let T := d / 1000 in
  let s := Z.rem (d / 1000) 60 in
  let mi := Z.rem (d / (1000 * 60)) 60 in
  let h := Z.rem (d / (1000 * 60 * 60)) 24 in
  let c := d / (1000 * 60 * 60 * 24) in
  0 <= s < 60 /\ 0 <= mi < 60 /\ 0 <= h < 24 /\ 0 <= c
  /\ T = 86400 * c + 3600 * h + 60 * mi + s.
Proof.
  intros Hd T s mi h c. subst s mi h c.
  change (1000 * 60 * 60 * 24) with (1000 * 86400).
  change (1000 * 60 * 60) with (1000 * 3600).
  rewrite <- !Z.div_div by lia. fold T.
  assert (HT : 0 <= T) by (apply Z.div_pos; lia).
  assert (H60 : 0 <= T / 60) by (apply Z.div_pos; lia).
  assert (H3600 : 0 <= T / 3600) by (apply Z.div_pos; lia).
  rewrite !Z.rem_mod_nonneg by lia.
  assert (E1 := Z.div_mod T 60 ltac:(lia)).
  assert (B1 := Z.mod_pos_bound T 60 ltac:(lia)).
  assert (E2 := Z.div_mod (T / 60) 60 ltac:(lia)).
  assert (B2 := Z.mod_pos_bound (T / 60) 60 ltac:(lia)).
  assert (E3 := Z.div_mod (T / 3600) 24 ltac:(lia)).
  assert (B3 := Z.mod_pos_bound (T / 3600) 24 ltac:(lia)).
  assert (D1 : T / 60 / 60 = T / 3600) by (rewrite Z.div_div by lia; reflexivity).
  assert (D2 : T / 3600 / 24 = T / 86400) by (rewrite Z.div_div by lia; reflexivity).
  assert (H86400 : 0 <= T / 86400) by (apply Z.div_pos; lia).
  rewrite D1 in E2. rewrite D2 in E3.
  lia.
Qed.

(** X17.  The countdown badge reads "Invalid date" for a due date that
    is not a valid date and "Due now" from the due instant on.  Before
    it, it shows one or two parts (days and hours, hours and minutes, or
    minutes and seconds): never none, never more than two.  What they
    add up to is never more than the whole seconds left and falls short
    by less than an hour; under one hour left it is exact. *)
Theorem X17_countdown_parts (t due : Z) :
  Z.abs t <= JS.MAX_TIME ->
  let badge := RemindersView.dueCountdown (JS.new_Date (JS.Num t)) due in
  (JS.MAX_TIME < Z.abs due -> badge = RemindersView.InvalidDate)
  /\ (Z.abs due <= JS.MAX_TIME -> due <= t -> badge = RemindersView.DueNow)
  /\ (Z.abs due <= JS.MAX_TIME -> 0 < due - t <= JS.MAX_TIME ->
      exists parts,
        badge = RemindersView.InParts parts
        /\ (1 <= List.length parts <= 2)%nat
        /\ RemindersView.partsSeconds parts <= (due - t) / 1000
        /\ (due - t) / 1000 < RemindersView.partsSeconds parts + 3600
        /\ ((due - t) / 1000 < 3600 ->
            RemindersView.partsSeconds parts = (due - t) / 1000)).
Proof.
  intros Ht badge. subst badge.
  unfold RemindersView.dueCountdown, JS.new_Date, JS.getTime.
  rewrite (TimeClip_in_range t Ht).
  split; [| split].
  - intros Hbad. now rewrite TimeClip_out_of_range.
  - intros Hdue Hpast. rewrite (TimeClip_in_range due Hdue).
    cbn [JSMath.isNaN JS.sub JS.le].
    destruct (Z.leb_spec (due - t) 0); [reflexivity | lia].
  - intros Hdue [Hpos _]. rewrite (TimeClip_in_range due Hdue).
    cbn [JSMath.isNaN JS.sub JS.le].
    destruct (Z.leb_spec (due - t) 0); [lia |].
    cbn [JSMath.floorDiv JSMath.rem JS.gt JSMath.eqb].
    pose proof (countdown_components (due - t) Hpos) as Hc. cbn zeta in Hc.
    destruct Hc as [Hs [Hmi [Hh [Hdays Hsum]]]].
    set (s := Z.rem ((due - t) / 1000) 60) in *.
    set (mi := Z.rem ((due - t) / (1000 * 60)) 60) in *.
    set (h := Z.rem ((due - t) / (1000 * 60 * 60)) 24) in *.
    set (c := (due - t) / (1000 * 60 * 60 * 24)) in *.
    eexists. split; [reflexivity |].
    unfold RemindersView.pushIf.
    destruct (Z.ltb_spec 0 c); destruct (Z.ltb_spec 0 h);
      destruct (Z.ltb_spec 0 mi); destruct (Z.eqb_spec c 0);
      destruct (Z.eqb_spec h 0);
      cbn [andb app List.length RemindersView.partsSeconds
             RemindersView.unitSeconds];
      try lia.
Qed.

Lemma X17_countdown_parts_witness :
  exists parts,
    RemindersView.dueCountdown (JS.new_Date (JS.Num Sample.T))
      (Sample.T + 3725000)
    = RemindersView.InParts parts
    /\ (1 <= List.length parts <= 2)%nat
    /\ RemindersView.partsSeconds parts <= (Sample.T + 3725000 - Sample.T) / 1000
    /\ (Sample.T + 3725000 - Sample.T) / 1000
       < RemindersView.partsSeconds parts + 3600
    /\ ((Sample.T + 3725000 - Sample.T) / 1000 < 3600 ->
        RemindersView.partsSeconds parts
        = (Sample.T + 3725000 - Sample.T) / 1000).
Proof.
  assert (H1 : Z.abs Sample.T <= JS.MAX_TIME) by (vm_compute; discriminate).
  destruct (X17_countdown_parts Sample.T (Sample.T + 3725000) H1)
    as [_ [_ H]].
  apply H.
  - vm_compute. discriminate.
  - vm_compute. split; [reflexivity | discriminate].
Defined.

Example sample_countdown :
  RemindersView.dueCountdown (JS.new_Date (JS.Num Sample.T))
    (Sample.T + 3725000)
  = RemindersView.InParts
      [(JS.Num 1, RemindersView.Hours); (JS.Num 2, RemindersView.Minutes)]
  /\ RemindersView.dueCountdown (JS.new_Date (JS.Num Sample.T)) (Sample.T + 500)
     = RemindersView.InParts [(JS.Num 0, RemindersView.Seconds)].
Proof. split; reflexivity. Qed.

Lemma applyToggle_In payload id tb row :
  In row (RemindersView.applyToggle payload id tb) ->
  exists row0,
    In row0 tb
    /\ ((Reminder.id (RemindersView.columns row0) = id
         /\ row = {| RemindersView.columns :=
                       RemindersView.setCompleted
                         (RemindersView.payload_is_completed payload)
                         (RemindersView.columns row0);
                     RemindersView.completed_at :=
                       RemindersView.payload_completed_at payload |})
        \/ (Reminder.id (RemindersView.columns row0) <> id /\ row = row0)).
Proof.
  unfold RemindersView.applyToggle. rewrite in_map_iff.
  intros [row0 [Heq Hin]]. exists row0. split; [exact Hin |].
  destruct (String.eqb_spec (Reminder.id (RemindersView.columns row0)) id);
    subst; auto.
Qed.

Lemma storeOf_applyToggle_In payload id tb r' :
  In r' (RemindersView.storeOf (RemindersView.applyToggle payload id tb)) ->
  exists r0,
    In r0 (RemindersView.storeOf tb)
    /\ ((Reminder.id r0 = id
         /\ r' = RemindersView.setCompleted
                   (RemindersView.payload_is_completed payload) r0)
        \/ (Reminder.id r0 <> id /\ r' = r0)).
Proof.
  unfold RemindersView.storeOf. rewrite in_map_iff.
  intros [row [<- Hin]]. apply applyToggle_In in Hin.
  destruct Hin as [row0 [Hin0 [[Hid ->] | [Hne ->]]]];
    exists (RemindersView.columns row0);
    (split; [now apply in_map |]); cbn; auto.
Qed.

(** X18.  [toggleComplete] writes the negation of the completion state
    the view shows and the matching [completed_at], and nothing about
    the notification flag.  A failed update leaves the table as it was;
    a successful one keeps every row's id, owner, due date and
    [notification_sent], leaves the rows with another id alone, and
    gives the rows with the id the negated state and a [completed_at]
    that is the clock reading when the reminder is being completed and
    [null] when it is being re-opened.  Toggling a row of the table and
    toggling the refreshed row again gives back every column the
    scheduler reads, but not [completed_at]: that column ends as [null]
    for a reminder that was pending and as the time of the second toggle
    for one that was completed.  After a pending reminder was completed
    no scheduler pass makes a call for a row with its id; and re-opening
    a reminder that was notified does not make it due again. *)
Theorem X18_toggleComplete_keeps_the_flag (clock : Z) (r : Reminder.t)
    (tb : RemindersView.Table) :
  RemindersView.toggleComplete ReturnsError clock r tb = tb
  /\ RemindersView.toggleComplete Throws clock r tb = tb
  /\ map (fun x => (Reminder.id x, Reminder.user_id x, Reminder.due_date x,
                    Reminder.notification_sent x))
         (RemindersView.storeOf
            (RemindersView.toggleComplete Succeeds clock r tb))
     = map (fun x => (Reminder.id x, Reminder.user_id x, Reminder.due_date x,
                      Reminder.notification_sent x))
           (RemindersView.storeOf tb)
  /\ (forall row,
        In row tb ->
        Reminder.id (RemindersView.columns row) <> Reminder.id r ->
        In row (RemindersView.toggleComplete Succeeds clock r tb))
  /\ (forall row,
        In row (RemindersView.toggleComplete Succeeds clock r tb) ->
        Reminder.id (RemindersView.columns row) = Reminder.id r ->
        Reminder.is_completed (RemindersView.columns row)
        = negb (Reminder.is_completed r)
        /\ RemindersView.completed_at row
           = if Reminder.is_completed r then None else Some clock)
  /\ (In r (RemindersView.storeOf tb) ->
      NoDup (map Reminder.id (RemindersView.storeOf tb)) ->
      forall clock2,
        let again :=
          RemindersView.toggleComplete Succeeds clock2
            (RemindersView.setCompleted (negb (Reminder.is_completed r)) r)
            (RemindersView.toggleComplete Succeeds clock r tb) in
        RemindersView.storeOf again = RemindersView.storeOf tb
        /\ (forall row,
              In row again ->
              Reminder.id (RemindersView.columns row) = Reminder.id r ->
              RemindersView.completed_at row
              = if Reminder.is_completed r then Some clock2 else None))
  /\ (Reminder.is_completed r = false ->
      forall w m q r2 c,
        In (OnBehalf q r2 c)
           (passTrace w m
              (RemindersView.storeOf
                 (RemindersView.toggleComplete Succeeds clock r tb))) ->
        Reminder.id r2 <> Reminder.id r)
  /\ (Reminder.notification_sent r = true ->
      In r (RemindersView.storeOf tb) ->
      NoDup (map Reminder.id (RemindersView.storeOf tb)) ->
      forall w m q r2 c,
        In (OnBehalf q r2 c)
           (passTrace w m
              (RemindersView.storeOf
                 (RemindersView.toggleComplete Succeeds clock r tb))) ->
        Reminder.id r2 <> Reminder.id r).
Proof.
  split; [reflexivity |]. split; [reflexivity |].
  split; [| split; [| split; [| split; [| split]]]].
  - cbn [RemindersView.toggleComplete].
    unfold RemindersView.storeOf, RemindersView.applyToggle.
    rewrite !map_map. apply map_ext. intros x.
    now destruct (String.eqb (Reminder.id (RemindersView.columns x))
                             (Reminder.id r)).
  - intros row Hin Hne. cbn [RemindersView.toggleComplete].
    unfold RemindersView.applyToggle. apply in_map_iff. exists row.
    split; [| exact Hin].
    destruct (String.eqb_spec (Reminder.id (RemindersView.columns row))
                              (Reminder.id r)); [contradiction | reflexivity].
  - intros row Hin Hid. cbn [RemindersView.toggleComplete] in Hin.
    apply applyToggle_In in Hin.
    destruct Hin as [row0 [_ [[_ ->] | [Hne ->]]]]; [| contradiction].
    cbn. split; [reflexivity |].
    now destruct (Reminder.is_completed r).
  - intros Hin Hkeys clock2 again. subst again.
    cbn [RemindersView.toggleComplete RemindersView.togglePayload
           RemindersView.setCompleted Reminder.id Reminder.is_completed].
    split.
    + unfold RemindersView.storeOf, RemindersView.applyToggle.
      rewrite !map_map. apply map_ext_in. intros x Hx.
      destruct (String.eqb_spec (Reminder.id (RemindersView.columns x))
                                (Reminder.id r)) as [Heq | Hne].
      * assert (RemindersView.columns x = r) as Hx'.
        { apply (NoDup_map_eq Reminder.id (RemindersView.storeOf tb)); auto.
          unfold RemindersView.storeOf. now apply in_map. }
        cbn [RemindersView.columns RemindersView.setCompleted Reminder.id
               RemindersView.payload_is_completed].
        rewrite Hx', String.eqb_refl.
        cbn [RemindersView.columns RemindersView.setCompleted].
        destruct r as [i u ti de ty du [|] ns]; reflexivity.
      * destruct (String.eqb_spec (Reminder.id (RemindersView.columns x))
                                  (Reminder.id r));
          [contradiction | reflexivity].
    + intros row Hrow Hid. apply applyToggle_In in Hrow.
      destruct Hrow as [row0 [_ [[_ ->] | [Hne ->]]]]; [| contradiction].
      cbn. now destruct (Reminder.is_completed r).
  - intros Hpending w m q r2 c Hev Heq. apply passTrace_on_behalf in Hev.
    destruct Hev as [_ [_ [_ [Hin2 [_ [Hdue _]]]]]].
    cbn [RemindersView.toggleComplete] in Hin2.
    apply storeOf_applyToggle_In in Hin2.
    destruct Hin2 as [r0 [_ [[_ ->] | [Hne ->]]]]; [| congruence].
    cbn [RemindersView.togglePayload RemindersView.payload_is_completed] in Hdue.
    rewrite Hpending in Hdue. unfold dueFilter in Hdue. cbn in Hdue.
    discriminate Hdue.
  - intros Hsent Hin Hkeys w m q r2 c Hev Heq. apply passTrace_on_behalf in Hev.
    destruct Hev as [_ [_ [_ [Hin2 [_ [Hdue _]]]]]].
    apply dueFilter_unsent in Hdue.
    cbn [RemindersView.toggleComplete] in Hin2.
    apply storeOf_applyToggle_In in Hin2.
    destruct Hin2 as [r0 [Hr0 [[Hid ->] | [Hne ->]]]]; [| congruence].
    assert (r0 = r)
      by (apply (NoDup_map_eq Reminder.id (RemindersView.storeOf tb)); auto).
    subst r0. cbn in Hdue. congruence.
Qed.

Lemma Sample2_rows_store : RemindersView.storeOf Sample2.rows = Sample.table.
Proof. reflexivity. Qed.

Lemma X18_toggleComplete_keeps_the_flag_witness :
  RemindersView.storeOf
    (RemindersView.toggleComplete Succeeds (Sample.T + 5)
       (RemindersView.setCompleted (negb (Reminder.is_completed Sample.rdone))
          Sample.rdone)
       (RemindersView.toggleComplete Succeeds Sample.T Sample.rdone
          Sample2.rows))
  = RemindersView.storeOf Sample2.rows
  /\ In {| RemindersView.columns := Sample.rdone;
           RemindersView.completed_at := Some (Sample.T - 3600000) |}
        Sample2.rows
  /\ In {| RemindersView.columns := Sample.rdone;
           RemindersView.completed_at := Some (Sample.T + 5) |}
        (RemindersView.toggleComplete Succeeds (Sample.T + 5)
           (RemindersView.setCompleted
              (negb (Reminder.is_completed Sample.rdone)) Sample.rdone)
           (RemindersView.toggleComplete Succeeds Sample.T Sample.rdone
              Sample2.rows))
  /\ RemindersView.toggleComplete Succeeds (Sample.T + 5)
       (RemindersView.setCompleted (negb (Reminder.is_completed Sample.rdone))
          Sample.rdone)
       (RemindersView.toggleComplete Succeeds Sample.T Sample.rdone
          Sample2.rows)
     <> Sample2.rows.
Proof.
  destruct (X18_toggleComplete_keeps_the_flag Sample.T Sample.rdone
              Sample2.rows) as [_ [_ [_ [_ [_ [H _]]]]]].
  assert (Hin : In Sample.rdone (RemindersView.storeOf Sample2.rows))
    by (rewrite Sample2_rows_store; cbn; tauto).
  assert (Hkeys : NoDup (map Reminder.id (RemindersView.storeOf Sample2.rows)))
    by (rewrite Sample2_rows_store; exact Sample_table_keys).
  destruct (H Hin Hkeys (Sample.T + 5)) as [Hstore _].
  split; [exact Hstore |].
  split; [cbn; tauto |].
  split; [cbn; tauto |].
  intros Heq. vm_compute in Heq. discriminate Heq.
Defined.

(* ------------------------------------------------------------------ *)
(** ** The shared timer                                                 *)
(* ------------------------------------------------------------------ *)

Lemma SharedTimer_add_In cb l x :
  In x (SharedTimer.add cb l) <-> x = cb \/ In x l.
Proof.
  unfold SharedTimer.add.
  destruct (existsb (Nat.eqb cb) l) eqn:E.
  - apply existsb_exists in E. destruct E as [y [Hy Heq]].
    apply Nat.eqb_eq in Heq. subst y.
    split; [auto |]. intros [Hx | H]; [now rewrite Hx | exact H].
  - rewrite in_app_iff. cbn. intuition.
Qed.

Lemma SharedTimer_add_NoDup cb l : NoDup l -> NoDup (SharedTimer.add cb l).
Proof.
  intros Hnd. unfold SharedTimer.add.
  destruct (existsb (Nat.eqb cb) l) eqn:E; [exact Hnd |].
  apply NoDup_app; [exact Hnd | repeat constructor; intros [] |].
  intros x Hx [Heq | []]. subst x.
  assert (existsb (Nat.eqb cb) l = true); [| congruence].
  apply existsb_exists. exists cb. split; [exact Hx | apply Nat.eqb_refl].
Qed.

Lemma SharedTimer_delete_In cb l x :
  In x (SharedTimer.delete cb l) <-> In x l /\ x <> cb.
Proof.
  unfold SharedTimer.delete. rewrite filter_In, negb_true_iff, Nat.eqb_neq.
  reflexivity.
Qed.

Lemma SharedTimer_delete_NoDup cb l :
  NoDup l -> NoDup (SharedTimer.delete cb l).
Proof. intros H. unfold SharedTimer.delete. now apply NoDup_filter. Qed.

Lemma SharedTimer_add_nonempty cb l : SharedTimer.add cb l <> [].
Proof.
  intros H. assert (Hin : In cb (SharedTimer.add cb l))
    by (apply SharedTimer_add_In; now left).
  rewrite H in Hin. destruct Hin.
Qed.

Lemma SharedTimer_Invariant_apply s o :
  SharedTimer.Invariant s -> SharedTimer.Invariant (SharedTimer.apply s o).
Proof.
  intros [Hnd [Hnext Hcases]]. destruct o as [cb | cb]; cbn [SharedTimer.apply].
  - unfold SharedTimer.subscribe, SharedTimer.noInterval.
    destruct Hcases as [[Hs [Hi Ha]] | [Hs [n [Hn [Hi Ha]]]]]; rewrite Hi.
    + split; [| split]; cbn.
      * now apply SharedTimer_add_NoDup.
      * lia.
      * right. split; [apply SharedTimer_add_nonempty |].
        exists (SharedTimer.next s). rewrite Ha. repeat split; lia.
    + destruct (Nat.eqb_spec n 0); [lia |].
      split; [| split]; cbn.
      * now apply SharedTimer_add_NoDup.
      * exact Hnext.
      * right. split; [apply SharedTimer_add_nonempty |].
        exists n. auto.
  - unfold SharedTimer.cleanup.
    destruct Hcases as [[Hs [Hi Ha]] | [Hs [n [Hn [Hi Ha]]]]]; rewrite Hi.
    + rewrite Hs. cbn. split; [constructor | split; [exact Hnext |]].
      left. auto.
    + destruct (SharedTimer.delete cb (SharedTimer.subscribers s))
        as [| x rest] eqn:Hdel.
      * destruct (Nat.eqb_spec n 0); [lia |].
        split; [constructor | split; [exact Hnext |]]. cbn.
        left. repeat split. rewrite Ha. cbn. now rewrite Nat.eqb_refl.
      * split; [| split]; cbn.
        -- rewrite <- Hdel. now apply SharedTimer_delete_NoDup.
        -- exact Hnext.
        -- right. split; [discriminate |]. exists n. auto.
Qed.

Lemma SharedTimer_Invariant_applyAll ops : forall s,
  SharedTimer.Invariant s -> SharedTimer.Invariant (SharedTimer.applyAll ops s).
Proof.
  unfold SharedTimer.applyAll.
  induction ops as [| o ops IH]; intros s Hinv; cbn [fold_left]; [exact Hinv |].
  apply IH. now apply SharedTimer_Invariant_apply.
Qed.

Lemma SharedTimer_Invariant_initial : SharedTimer.Invariant SharedTimer.initial.
Proof.
  split; [constructor | split; [cbn; lia |]]. left. cbn. auto.
Qed.

(** X19.  However views subscribe to and clean up from the shared timer,
    it never has more than one interval armed, the interval is armed
    exactly while the set of subscribers is not empty (nothing leaks
    once the last one has left), and each tick calls every subscriber
    once, in the order of subscription. *)
Theorem X19_shared_timer_one_interval (ops : list SharedTimer.op) (now : Z) :
  let s := SharedTimer.applyAll ops SharedTimer.initial in
  (List.length (SharedTimer.active s) <= 1)%nat
  /\ (SharedTimer.active s = [] <-> SharedTimer.subscribers s = [])
  /\ (SharedTimer.intervalId s = None <-> SharedTimer.subscribers s = [])
  /\ NoDup (SharedTimer.subscribers s)
  /\ SharedTimer.tick now s
     = map (fun cb => (cb, now)) (SharedTimer.subscribers s).
Proof.
  intros s.
  assert (Hinv : SharedTimer.Invariant s)
    by (apply SharedTimer_Invariant_applyAll, SharedTimer_Invariant_initial).
  destruct Hinv as [Hnd [_ [[Hs [Hi Ha]] | [Hs [n [_ [Hi Ha]]]]]]].
  - unfold SharedTimer.tick. rewrite Hs, Hi, Ha. cbn.
    repeat split; auto; constructor.
  - unfold SharedTimer.tick. rewrite Hi, Ha. cbn. rewrite app_nil_r.
    repeat split; auto; try discriminate; intros H; contradiction.
Qed.

(** X20.  The subscribers are a set: subscribing a callback that is
    already subscribed changes nothing, and one cleanup removes the
    callback however often it was subscribed, so a view that subscribed
    the same callback twice stops being called after its first cleanup.
    A cleanup touches no other subscriber. *)
Theorem X20_shared_timer_set_semantics (ops : list SharedTimer.op)
    (cb : nat) :
  let s := SharedTimer.applyAll ops SharedTimer.initial in
  (In cb (SharedTimer.subscribers s) ->
   SharedTimer.subscribe cb s = s)
  /\ ~ In cb (SharedTimer.subscribers (SharedTimer.cleanup cb s))
  /\ ~ In cb (SharedTimer.subscribers
                (SharedTimer.cleanup cb
                   (SharedTimer.subscribe cb (SharedTimer.subscribe cb s))))
  /\ (forall other,
         other <> cb ->
         (In other (SharedTimer.subscribers (SharedTimer.cleanup cb s))
          <-> In other (SharedTimer.subscribers s))).
Proof.
  intros s.
  assert (Hinv : SharedTimer.Invariant s)
    by (apply SharedTimer_Invariant_applyAll, SharedTimer_Invariant_initial).
  assert (Hsubs : forall x, SharedTimer.subscribers (SharedTimer.cleanup cb x)
                            = SharedTimer.delete cb (SharedTimer.subscribers x)).
  { intros x. unfold SharedTimer.cleanup.
    destruct (SharedTimer.delete cb (SharedTimer.subscribers x));
      destruct (SharedTimer.intervalId x) as [k |];
      try reflexivity.
    now destruct (Nat.eqb k 0). }
  split; [| split; [| split]].
  - intros Hin.
    destruct Hinv as [_ [_ [[Hs _] | [_ [n [Hn [Hi Ha]]]]]]].
    + rewrite Hs in Hin. destruct Hin.
    + unfold SharedTimer.subscribe, SharedTimer.noInterval, SharedTimer.add.
      rewrite Hi.
      destruct (Nat.eqb_spec n 0); [lia |].
      assert (E : existsb (Nat.eqb cb) (SharedTimer.subscribers s) = true).
      { apply existsb_exists. exists cb. split; [exact Hin | apply Nat.eqb_refl]. }
      rewrite E. rewrite <- Hi. clear. now destruct s.
  - rewrite Hsubs, SharedTimer_delete_In. tauto.
  - rewrite Hsubs, SharedTimer_delete_In. tauto.
  - intros other Hne. rewrite Hsubs, SharedTimer_delete_In. tauto.
Qed.

Lemma X20_shared_timer_set_semantics_witness :
  SharedTimer.subscribe 7
    (SharedTimer.applyAll [SharedTimer.Subscribe 7] SharedTimer.initial)
  = SharedTimer.applyAll [SharedTimer.Subscribe 7] SharedTimer.initial.
Proof.
  destruct (X20_shared_timer_set_semantics [SharedTimer.Subscribe 7] 7)
    as [H _].
  apply H. cbn. now left.
Defined.

(* ------------------------------------------------------------------ *)
(** ** The mail route's answer                                          *)
(* ------------------------------------------------------------------ *)

(** X21.  [sendEmail] never throws and reports success exactly when the
    route answers 200 with a JSON body other than [null]; its [success]
    field is what the scheduler's model of the mail channel computes.  A
    success carries no error; a failure always carries one, and an error
    taken from the response is never an empty value: it is the body's
    [error], else its [message], else the text "Failed to send email". *)
Theorem X21_sendEmail_result (r : http_response) :
  er_success (sendEmailResult r) = sendEmail (routeOutcome r)
  /\ (er_success (sendEmailResult r) = true <->
      exists result, r = HttpResponds 200 (Body result)
                     /\ nullish result = false)
  /\ (er_success (sendEmailResult r) = true ->
      er_error (sendEmailResult r) = None)
  /\ (er_success (sendEmailResult r) = false ->
      exists e, er_error (sendEmailResult r) = Some e
                /\ match e with
                   | FromResult v => JS.truthy v = true
                   | FromException => True
                   end).
Proof.
  destruct r as [status [| result] |]; cbn [sendEmailResult routeOutcome sendEmail].
  - split; [reflexivity |]. split; [| split].
    + split; [discriminate |]. intros [res [H _]]. discriminate H.
    + discriminate.
    + intros _. exists FromException. now split.
  - destruct (nullish result) eqn:Hn; cbn [negb].
    + split; [reflexivity |]. split; [| split].
      * split; [discriminate |]. intros [res [H Hres]].
        inversion H; subst. congruence.
      * discriminate.
      * intros _. exists FromException. now split.
    + destruct (Z.eqb_spec status 200) as [-> | Hne]; cbn [negb er_success er_error].
      * split; [reflexivity |]. split; [| split].
        -- split; [intros _; now exists result | reflexivity].
        -- reflexivity.
        -- discriminate.
      * split; [reflexivity |]. split; [| split].
        -- split; [discriminate |]. intros [res [H _]].
           inversion H; subst. contradiction.
        -- discriminate.
        -- intros _. eexists. split; [reflexivity |].
           unfold or_.
           destruct (JS.truthy (JS.get result "error")) eqn:E1.
           ++ now rewrite E1.
           ++ destruct (JS.truthy (JS.get result "message")) eqn:E2;
                [now rewrite E2 | reflexivity].
  - split; [reflexivity |]. split; [| split].
    + split; [discriminate |]. intros [res [H _]]. discriminate H.
    + discriminate.
    + intros _. exists FromException. now split.
Qed.

Lemma X21_sendEmail_result_witness :
  exists e,
    er_error (sendEmailResult
                (HttpResponds 500
                   (Body (JS.VObj [("message", JS.VStr "quota exceeded")]))))
    = Some e
    /\ match e with
       | FromResult v => JS.truthy v = true
       | FromException => True
       end.
Proof.
  destruct (X21_sendEmail_result
              (HttpResponds 500
                 (Body (JS.VObj [("message", JS.VStr "quota exceeded")]))))
    as [_ [_ [_ H]]].
  exact (H eq_refl).
Defined.

(* ------------------------------------------------------------------ *)
(** ** Who is served                                                    *)
(* ------------------------------------------------------------------ *)

Lemma profilesWithEmail_In w p :
  In p (profilesWithEmail w) <->
  In p (profiles w) /\ exists e, Profile.email p = Some e.
Proof.
  unfold profilesWithEmail. rewrite filter_In.
  destruct (Profile.email p) as [e |].
  - split; [intros [H _]; split; [exact H | now exists e] | tauto].
  - split; [intros [_ H]; discriminate H |].
    intros [_ [e H]]. discriminate H.
Qed.

(** X22.  The pass serves only profiles that have an email address,
    whatever their preferences: for a profile whose email is null no
    reminder select is issued and no channel is called, the browser
    channel included. *)
Theorem X22_profiles_without_email_unserved (w : World) (m : ServiceModule)
    (st : Store) (p : Profile.t) :
  Profile.email p = None ->
  (forall res, ~ In (SelectReminders p res) (passTrace w m st))
  /\ (forall r c, ~ In (OnBehalf p r c) (passTrace w m st)).
Proof.
  intros Hnone. split.
  - intros res Hev. apply passTrace_select in Hev. destruct Hev as [Hp _].
    apply profilesWithEmail_In in Hp. destruct Hp as [_ [e He]]. congruence.
  - intros r c Hev. apply passTrace_on_behalf in Hev. destruct Hev as [Hp _].
    apply profilesWithEmail_In in Hp. destruct Hp as [_ [e He]]. congruence.
Qed.

Lemma X22_profiles_without_email_unserved_witness :
  (forall res,
      ~ In (SelectReminders
              (Profile.mk "erin" None (Some "Erin") (Sample.prefs false true))
              res)
           (passTrace Sample.world Sample.registered Sample.table))
  /\ (forall r c,
         ~ In (OnBehalf
                 (Profile.mk "erin" None (Some "Erin")
                    (Sample.prefs false true)) r c)
              (passTrace Sample.world Sample.registered Sample.table)).
Proof.
  refine (X22_profiles_without_email_unserved Sample.world Sample.registered
            Sample.table
            (Profile.mk "erin" None (Some "Erin") (Sample.prefs false true))
            _).
  reflexivity.
Defined.

Lemma reminderEvents_browser_first w m p r :
  browserNotificationsEnabled p = true ->
  exists rest, reminderEvents w m p r = browserCall w m p r :: rest.
Proof.
  intros Hb. unfold reminderEvents, notifyReminder, deliver, updateAndLog,
    browserCall.
  rewrite Hb.
  destruct (emailNotificationsEnabled p), (sendReminderNotification w r),
    (reminders_update w (Reminder.id r)); cbn; eexists; reflexivity.
Qed.

(** X23.  With both channels on, the pass shows the browser notification
    for a due reminder before it sends the email, whatever the email's
    outcome.  So when the email fails the browser notification has been
    shown all the same, the flag stays false, and every later pass that
    gets to the reminder inside the window shows the browser
    notification again. *)
Theorem X23_browser_repeats_while_email_fails (w : World) (m : ServiceModule)
    (st : Store) (p : Profile.t) (r : Reminder.t) :
  Reached w st p r ->
  emailNotificationsEnabled p = true ->
  browserNotificationsEnabled p = true ->
  Occurs [browserCall w m p r; emailCall w p r] (passTrace w m st)
  /\ (sendReminderNotification w r = false ->
      In r (passStore w m st)
      /\ forall w2 m2,
           Reached w2 st p r ->
           In (browserCall w2 m2 p r) (passTrace w2 m2 (passStore w m st))).
Proof.
  intros Hreach He Hb.
  pose proof (pass_reaches w m st p r Hreach) as Hocc.
  split.
  - eapply Occurs_trans; [| exact Hocc].
    unfold reminderEvents, notifyReminder, deliver, updateAndLog,
      browserCall, emailCall.
    rewrite He, Hb.
    destruct (sendReminderNotification w r),
      (reminders_update w (Reminder.id r)); cbn;
      match goal with
      | |- Occurs [?a; ?b] (?a :: ?b :: ?rest) =>
          exact (Occurs_prefix [a; b] rest)
      end.
  - intros Hfail.
    assert (Hkeep : In r (passStore w m st)).
    { rewrite passStore_spec.
      apply markAll_keeps; [exact (reached_row _ _ _ _ Hreach) |].
      intros Hid. apply updatedIds_In in Hid. destruct Hid as [q [r' Hev]].
      destruct (pass_update_owner w m st p r q r' Succeeds Hreach Hev)
        as [-> ->].
      apply passTrace_on_behalf in Hev.
      destruct Hev as [_ [_ [_ [_ [_ [_ Hev]]]]]].
      apply reminderEvents_update in Hev. destruct Hev as [_ [_ Hev]].
      rewrite (Hev He) in Hfail. discriminate Hfail. }
    split; [exact Hkeep |].
    intros w2 m2 Hreach2.
    eapply Occurs_In;
      [exact (pass_reaches w2 m2 _ p r (Reached_after w m st w2 p r Hreach2 Hkeep)) |].
    destruct (reminderEvents_browser_first w2 m2 p r Hb) as [rest ->].
    now left.
Qed.

Lemma X23_browser_repeats_while_email_fails_witness :
  Occurs [browserCall Sample2.mailDownForFrank Sample.registered
            Sample2.frank Sample2.rf;
          emailCall Sample2.mailDownForFrank Sample2.frank Sample2.rf]
         (passTrace Sample2.mailDownForFrank Sample.registered [Sample2.rf]).
Proof.
  assert (Hreach : Reached Sample2.mailDownForFrank [Sample2.rf]
                           Sample2.frank Sample2.rf).
  { constructor; try reflexivity.
    - intros q _. discriminate.
    - cbn. repeat constructor. intros [].
    - cbn. repeat constructor. intros [].
    - cbn. now left.
    - cbn. now left. }
  destruct (X23_browser_repeats_while_email_fails Sample2.mailDownForFrank
              Sample.registered [Sample2.rf] Sample2.frank Sample2.rf
              Hreach eq_refl eq_refl) as [H _].
  exact H.
Defined.
